(** * Minesweeper board engine: a shallow embedding and its verification

    The development follows the TypeScript sources of the game core:

    - [lib/grid]: [Point], [eightWayNeighbors] and the row-major [Grid];
    - [utils/assert], [utils/shuffle-array];
    - [core/minesweeper-board]: the [MinesweeperBoard] class with its
      constructor, [generate], [clickTile], [changeTileState] and the
      private helpers [setTileOpen], [openTile], [openNeighbors],
      [checkWin] and [handleLose].

    The last part of the definitions holds the rest of the code that can be
    told without the renderer: the remaining methods of [Grid],
    [lib/signal], [lib/stopwatch], [utils/clamp], [utils/digit-array],
    [board-settings], and from the PixiJS layer the texture keys of the
    tiles and of the face button, the number display, the listener of the
    header and the tile under the pointer.

    Coordinates and sizes are JavaScript numbers that only ever hold
    integers here (loop counters, [Math.floor] results, array lengths), so
    they are integers of [Z]; array lengths and neighbour counts are [nat].
    Arrays are lists, read with [!!] and written with [<[ _ := _ ]>].
    Methods that mutate the board or emit signals are computations of the
    monad [M] over a [World]: the board, the signals emitted so far and the
    console warnings printed so far.  A thrown [Error] is an outcome of its
    own, and leaves behind whatever was mutated before the throw.  The
    recursion of [setTileOpen] fills the call stack of the engine: the room
    for its nested calls is a parameter of the model, and running out of it
    is an outcome as well. *)

From Stdlib Require Import ZArith QArith Qround Lia Lqa Bool String.
From stdpp Require Import base tactics option numbers list.

Local Open Scope Z_scope.

(** ** lib/grid *)

Record Point : Type := mkPoint { x : Z; y : Z }.

#[global] Instance Point_eq_dec : EqDecision Point.
Proof. solve_decision. Defined.

(** [eightWayNeighbors]: [dx] is the outer loop, [dy] the inner one, the
    centre is skipped.  The generator is always consumed to its end by its
    callers, so it is the list of what it yields. *)
Definition eightWayNeighbors (point : Point) : list Point :=
  dx ← [-1; 0; 1];
  dy ← [-1; 0; 1];
  if (dx =? 0) && (dy =? 0) then []
  else [ {| x := x point + dx; y := y point + dy |} ].

Arguments eightWayNeighbors : simpl never.

(** Errors that the code throws: the error of [Grid.get], a failed [assert]
    with its message, and the [RangeError] of [new Array] for a length that
    is no array length. *)
Inductive Error : Type :=
| OutOfBoundsError (point : Point)
| AssertionError (message : string)
| RangeError.

(** The result of running a piece of code: it returns, it throws one of the
    errors above, or the room for nested calls ran out (see [setTileOpen]),
    which is the [RangeError] that the engine throws when its call stack is
    exhausted. *)
Inductive Outcome (A : Type) : Type :=
| Return (a : A)
| Throw (e : Error)
| OutOfFuel.
Arguments Return {A} a.
Arguments Throw {A} e.
Arguments OutOfFuel {A}.

(** [utils/assert] *)
Definition assert (condition : bool) (message : string) : Outcome unit :=
  if condition then Return tt else Throw (AssertionError message).

Definition bindO {A B} (m : Outcome A) (k : A → Outcome B) : Outcome B :=
  match m with
  | Return a => k a
  | Throw e => Throw e
  | OutOfFuel => OutOfFuel
  end.

Notation "'let+' x := m 'in' k" := (bindO m (λ x, k))
  (at level 10, x name, m at level 100, k at level 200,
   format "'[v' 'let+'  x  :=  m  'in'  '/' k ']'").

Record Grid (T : Type) : Type := mkGrid {
  width : Z;
  height : Z;
  array : list T
}.
Arguments mkGrid {T} width height array.
Arguments width {T} g.
Arguments height {T} g.
Arguments array {T} g.

(** The [size] field of the class is [width * height]. *)
Definition size {T} (g : Grid T) : Z := width g * height g.

(** [new Grid(width, height, array)], with the array given. *)
Definition newGrid {T} (width height : Z) (array : list T) : Outcome (Grid T) :=
  let+ _ := assert (0 <? width) "Width should be greater than zero" in
  let+ _ := assert (0 <? height) "Height should be greater than zero" in
  let+ _ := assert (Z.of_nat (length array) =? width * height)
              "Size of the array should be equal to the size of the grid" in
  Return (mkGrid width height array).

(** [points]: [y] is the outer loop, [x] the inner one. *)
Definition points {T} (g : Grid T) : list Point :=
  y ← seqZ 0 (height g);
  x ← seqZ 0 (width g);
  [ {| x := x; y := y |} ].

Definition isInBounds {T} (g : Grid T) (point : Point) : bool :=
  (x point <? width g) && (y point <? height g) &&
  (0 <=? x point) && (0 <=? y point).

(** [pointToArrayIndex]: [None] is the source's [null]. *)
Definition pointToArrayIndex {T} (g : Grid T) (point : Point) : option Z :=
  if isInBounds g point then Some (x point + width g * y point) else None.

(** [getOrNull].  On a grid whose array has [size] elements, which the
    constructor checks, an index in bounds always holds an element. *)
Definition getOrNull {T} (g : Grid T) (point : Point) : option T :=
  match pointToArrayIndex g point with
  | None => None
  | Some index => array g !! Z.to_nat index
  end.

(** Whether a value stored in a grid is JavaScript's [null]: booleans, numbers
    and objects never are, and a value of a type [T | null], which is
    [option T], is when it is [None]. *)
Class Nullable (T : Type) := isNull : T → bool.

#[global] Instance bool_Nullable : Nullable bool := λ _, false.
#[global] Instance Z_Nullable : Nullable Z := λ _, false.
#[global] Instance option_Nullable {T} : Nullable (option T) :=
  λ value, match value with None => true | Some _ => false end.

(** [get] throws when [getOrNull] returned [null]: for a point out of
    bounds, and also for a point in bounds whose element is [null]. *)
Definition get {T} `{Nullable T} (g : Grid T) (point : Point) : Outcome T :=
  match getOrNull g point with
  | None => Throw (OutOfBoundsError point)
  | Some value =>
      if isNull value then Throw (OutOfBoundsError point) else Return value
  end.

(** [Array.from(iterable, f)] where [f] may throw: elements are produced in
    order, and the first throw ends the construction. *)
Fixpoint arrayFrom {A B} (f : A → Outcome B) (l : list A) : Outcome (list B) :=
  match l with
  | [] => Return []
  | a :: l' =>
      let+ b := f a in
      let+ bs := arrayFrom f l' in
      Return (b :: bs)
  end.

Definition mapIndexed {T R} `{Nullable T} (g : Grid T)
    (transform : Point → T → R) : Outcome (Grid R) :=
  let+ newArray :=
    arrayFrom (λ point, let+ value := get g point in
                        Return (transform point value)) (points g) in
  newGrid (width g) (height g) newArray.

(** An object stored in a grid is mutated through the reference that [get]
    returned; on the list this is a write at the index of the point. *)
Definition setAt {T} (g : Grid T) (point : Point) (value : T) : Grid T :=
  match pointToArrayIndex g point with
  | None => g
  | Some index =>
      mkGrid (width g) (height g) (<[ Z.to_nat index := value ]> (array g))
  end.

(** ** core/minesweeper-board: the data *)

Inductive TileData : Type :=
| EmptyTile (bombNeighbors : nat)
| BombTile.

(** The [state] field of a [TileState]. *)
Inductive Mark : Type := default | flag.

Record TileState : Type := mkTileState {
  state : Mark;
  isOpen : bool;
  wasClicked : bool
}.

Inductive BoardState : Type := not_started | active | won | lost.

(** The tiles are objects. *)
#[global] Instance TileData_Nullable : Nullable TileData := λ _, false.
#[global] Instance TileState_Nullable : Nullable TileState := λ _, false.

#[global] Instance TileData_eq_dec : EqDecision TileData.
Proof. solve_decision. Defined.
#[global] Instance Mark_eq_dec : EqDecision Mark.
Proof. solve_decision. Defined.
#[global] Instance TileState_eq_dec : EqDecision TileState.
Proof. solve_decision. Defined.
#[global] Instance BoardState_eq_dec : EqDecision BoardState.
Proof. solve_decision. Defined.

Definition isBomb (d : TileData) : bool :=
  match d with BombTile => true | EmptyTile _ => false end.

Definition isEmpty (d : TileData) : bool :=
  match d with BombTile => false | EmptyTile _ => true end.

Definition isFlag (m : Mark) : bool :=
  match m with flag => true | default => false end.

(** The fields of a [MinesweeperBoard] object. *)
Record MinesweeperBoard : Type := mkBoard {
  boardState : BoardState;
  tileData : Grid TileData;
  tileState : Grid TileState;
  bombCount : Z;
  tilesLeftToOpenToWin : Z
}.

(** What the two signals of the board deliver to their listeners, in the
    order of the [emit] calls. *)
Inductive Signal : Type :=
| TileChanged (point : Point)
| BoardStateChanged (newState : BoardState).

(** The [console.warn] calls of the board, one constructor per call site. *)
Inductive Warning : Type :=
| WarnAlreadyOpen (point : Point)
| WarnNotDefault (m : Mark) (point : Point)
| WarnNotActive
| WarnOpenTileNotDefault
| WarnNeighborsOfClosed.

Record World : Type := mkWorld {
  board : MinesweeperBoard;
  emitted : list Signal;
  console : list Warning
}.

(** ** The monad of board methods *)

Definition M (A : Type) : Type := World → Outcome A * World.

Definition ret {A} (a : A) : M A := λ w, (Return a, w).

Definition bind {A B} (m : M A) (k : A → M B) : M B :=
  λ w, match m w with
       | (Return a, w') => k a w'
       | (Throw e, w') => (Throw e, w')
       | (OutOfFuel, w') => (OutOfFuel, w')
       end.

Notation "'let*' x := m 'in' k" := (bind m (λ x, k))
  (at level 10, x name, m at level 100, k at level 200,
   format "'[v' 'let*'  x  :=  m  'in'  '/' k ']'").
Notation "m >> k" := (bind m (λ _, k))
  (at level 100, k at level 200, right associativity,
   format "'[v' m  >>  '/' k ']'").

Definition throw {A} (e : Error) : M A := λ w, (Throw e, w).
Definition outOfFuel {A} : M A := λ w, (OutOfFuel, w).

(** A computation that cannot touch the world, run inside [M]. *)
Definition lift {A} (o : Outcome A) : M A := λ w, (o, w).

Definition gets {A} (f : MinesweeperBoard → A) : M A := λ w, (Return (f (board w)), w).

Definition modify (f : MinesweeperBoard → MinesweeperBoard) : M unit :=
  λ w, (Return tt, mkWorld (f (board w)) (emitted w) (console w)).

Definition emit (s : Signal) : M unit :=
  λ w, (Return tt, mkWorld (board w) (emitted w ++ [s]) (console w)).

Definition warn (d : Warning) : M unit :=
  λ w, (Return tt, mkWorld (board w) (emitted w) (console w ++ [d])).

(** [for (const a of l) body(a)] *)
Fixpoint forEach {A} (l : list A) (body : A → M unit) : M unit :=
  match l with
  | [] => ret tt
  | a :: l' => body a >> forEach l' body
  end.

(** Field updates. *)
Definition withBoardState (s : BoardState) (b : MinesweeperBoard) : MinesweeperBoard :=
  mkBoard s (tileData b) (tileState b) (bombCount b) (tilesLeftToOpenToWin b).

Definition withTileState (g : Grid TileState) (b : MinesweeperBoard) : MinesweeperBoard :=
  mkBoard (boardState b) (tileData b) g (bombCount b) (tilesLeftToOpenToWin b).

Definition withTilesLeft (n : Z) (b : MinesweeperBoard) : MinesweeperBoard :=
  mkBoard (boardState b) (tileData b) (tileState b) (bombCount b) n.

(** [this.tileState.get(point)] and [this.tileData.get(point)]. *)
Definition getTileState (point : Point) : M TileState :=
  let* g := gets tileState in lift (get g point).

Definition getTileData (point : Point) : M TileData :=
  let* g := gets tileData in lift (get g point).

(** A write to a field of the tile-state object at [point]. *)
Definition putTileState (point : Point) (s : TileState) : M unit :=
  modify (λ b, withTileState (setAt (tileState b) point s) b).

(** The [boardState] setter: it stores the state and emits it. *)
Definition setBoardState (newState : BoardState) : M unit :=
  modify (withBoardState newState) >>
  let* s := gets boardState in
  emit (BoardStateChanged s).

(** [for (const a of l) { if (test(a)) return true } return false], the
    shape of a loop that leaves the method at its first hit. *)
Fixpoint anyOf {A} (l : list A) (test : A → M bool) : M bool :=
  match l with
  | [] => ret false
  | a :: l' => let* hit := test a in if hit then ret true else anyOf l' test
  end.

(** [l.filter(test)] with a test that reads the board and may throw. *)
Fixpoint filterA {A} (l : list A) (test : A → M bool) : M (list A) :=
  match l with
  | [] => ret []
  | a :: l' =>
      let* keep := test a in
      let* rest := filterA l' test in
      ret (if keep then a :: rest else rest)
  end.

(** ** utils/shuffle-array *)

(** [[array[i], array[j]] = [array[j], array[i]]]: both elements are read,
    then [array[i]] and [array[j]] are written in this order.  The loop of
    [shuffleArray] only produces indices inside the array. *)
Definition swap {T} (array : list T) (i j : nat) : list T :=
  match array !! j, array !! i with
  | Some aj, Some ai => <[ j := ai ]> (<[ i := aj ]> array)
  | _, _ => array
  end.

(** [Math.floor(Math.random() * (i + 1))], for the value [r] that
    [Math.random()] returned; the product is taken exactly. *)
Definition randomIndex (r : Q) (i : nat) : nat :=
  Z.to_nat (Qfloor (r * inject_Z (Z.of_nat i + 1))).

(** The loop of [shuffleArray], [i] running from [array.length - 1] down to
    1.  [random k] is what the [k]-th call of [Math.random()] returns. *)
Fixpoint shuffleLoop {T} (random : nat → Q) (call : nat) (i : nat)
    (array : list T) : list T :=
  match i with
  | O => array
  | S i' =>
      let j := randomIndex (random call) i in
      shuffleLoop random (S call) i' (swap array i j)
  end.

Definition shuffleArray {T} (random : nat → Q) (array : list T) : list T :=
  shuffleLoop random 0 (length array - 1) array.

(** [Array.prototype.fill(value, start, end)]: negative positions count from
    the end, and both are clamped to the array. *)
Definition relativeIndex (len pos : Z) : Z :=
  if pos <? 0 then Z.max (len + pos) 0 else Z.min pos len.

Definition fill {T} (value : T) (start finish : Z) (array : list T) : list T :=
  let len := Z.of_nat (length array) in
  let k := relativeIndex len start in
  let final := relativeIndex len finish in
  imap (λ i a, if (k <=? Z.of_nat i) && (Z.of_nat i <? final) then value else a)
       array.

(** [fill(value, start)]: the end defaults to the length. *)
Definition fillFrom {T} (value : T) (start : Z) (array : list T) : list T :=
  fill value start (Z.of_nat (length array)) array.

(** ** core/minesweeper-board: construction *)

Definition BOMB_TILE : TileData := BombTile.

(** [bombsGrid.getOrNull(point) ?? false] *)
Definition bombAt (bombsGrid : Grid bool) (point : Point) : bool :=
  match getOrNull bombsGrid point with
  | Some isBomb => isBomb
  | None => false
  end.

(** The constructor of [MinesweeperBoard]. *)
Definition newBoard (width height : Z) (bombsArray : list bool)
  : Outcome MinesweeperBoard :=
  let+ _ := assert (0 <? width) "Width should be greater than zero" in
  let+ _ := assert (0 <? height) "Height should be greater than zero" in
  let+ _ := assert (Z.of_nat (length bombsArray) =? width * height)
              "Bomb array should be as long as the size of the cells of the grid" in
  let+ bombsGrid := newGrid width height bombsArray in
  let+ tileData :=
    mapIndexed bombsGrid (λ point isBomb,
      if isBomb then BOMB_TILE
      else
        let bombNeighbors :=
          length (List.filter (bombAt bombsGrid) (eightWayNeighbors point)) in
        EmptyTile bombNeighbors) in
  let tileStateArray :=
    replicate (Z.to_nat (width * height)) (mkTileState default false false) in
  let+ tileState := newGrid width height tileStateArray in
  let bombCount := Z.of_nat (length (List.filter (λ isBomb, isBomb) bombsArray)) in
  Return (mkBoard not_started tileData tileState bombCount
            (width * height - bombCount)).

(** [generate].  [new Array(n)] throws a [RangeError] unless [n] is an array
    length, an integer from 0 to [2 ^ 32 - 1]; else it has [n] empty slots.
    The two [fill] calls overwrite every one of them (lemma
    [generate_array_slots]), so the value the model starts the slots with is
    never seen. *)
Definition generate (random : nat → Q) (width height bombs : Z)
  : Outcome MinesweeperBoard :=
  let+ _ := if (width * height <? 0) || (2 ^ 32 <=? width * height)
            then Throw RangeError else Return tt in
  let slots := replicate (Z.to_nat (width * height)) false in
  let bombsArray := fillFrom false bombs (fill true 0 bombs slots) in
  newBoard width height (shuffleArray random bombsArray).

(** ** core/minesweeper-board: the game *)

Definition checkWin : M unit :=
  let* left := gets tilesLeftToOpenToWin in
  lift (assert (0 <=? left) "This number should never be negative") >>
  if negb (left =? 0) then ret tt
  else
    (* Flag all bombs *)
    let* data := gets tileData in
    forEach (points data) (λ point,
      let* tData := getTileData point in
      if negb (isBomb tData) then ret tt
      else
        let* tState := getTileState point in
        if isFlag (state tState) then ret tt
        else
          putTileState point
            (mkTileState flag (isOpen tState) (wasClicked tState)) >>
          emit (TileChanged point)) >>
    setBoardState won.

Definition toggled (m : Mark) : Mark :=
  match m with
  | default => flag
  | flag => default
  end.

Definition changeTileState (point : Point) : M unit :=
  let* s := gets boardState in
  (if bool_decide (s = not_started) then setBoardState active else ret tt) >>
  let* s := gets boardState in
  if negb (bool_decide (s = active)) then ret tt
  else
    let* tState := getTileState point in
    if isOpen tState then ret tt
    else
      putTileState point
        (mkTileState (toggled (state tState)) (isOpen tState)
           (wasClicked tState)) >>
      emit (TileChanged point).

(** [setTileOpen] calls itself on the neighbours of a tile without bomb
    neighbours.  [fuel] is the room for these nested calls, which fill the
    call stack until they return: with none left the outcome is [OutOfFuel].
    Every nested call works on a board with one more open tile, so room for
    more calls than the board has closed tiles is never needed. *)
Fixpoint setTileOpen_fuel (fuel : nat) (point : Point) (wasClicked : bool)
  : M unit :=
  match fuel with
  | O => outOfFuel
  | S fuel' =>
      let* tState := getTileState point in
      let* tData := getTileData point in
      if isOpen tState then warn (WarnAlreadyOpen point)
      else if isFlag (state tState)
      then warn (WarnNotDefault (state tState) point)
      else
        putTileState point (mkTileState (state tState) true wasClicked) >>
        emit (TileChanged point) >>
        match tData with
        | BombTile => ret tt
        | EmptyTile bombNeighbors =>
            modify (λ b, withTilesLeft (tilesLeftToOpenToWin b - 1) b) >>
            if negb (bombNeighbors =? 0)%nat then ret tt
            else
              (* Continue opening tiles recursively *)
              forEach (eightWayNeighbors point) (λ neighborPoint,
                let* data := gets tileData in
                if negb (isInBounds data neighborPoint) then ret tt
                else setTileOpen_fuel fuel' neighborPoint false)
        end
  end.

(** The methods of the board are first run with room enough for every
    board: one call more than the board has tiles.  [clickTileOn] below runs
    them on a call stack of a given depth. *)
Definition enoughFuel (b : MinesweeperBoard) : nat :=
  S (length (array (tileState b))).

Definition setTileOpen (point : Point) (wasClicked : bool) : M unit :=
  let* fuel := gets enoughFuel in
  setTileOpen_fuel fuel point wasClicked.

Definition shouldReveal (tData : TileData) (tState : TileState) : bool :=
  let isUnflaggedBomb := isBomb tData && negb (isFlag (state tState)) in
  let isIncorrectFlag := isEmpty tData && isFlag (state tState) in
  negb (negb isUnflaggedBomb && negb isIncorrectFlag).

Definition handleLose : M unit :=
  let* data := gets tileData in
  forEach (points data) (λ point,
    let* tData := getTileData point in
    let* tState := getTileState point in
    if negb (shouldReveal tData tState) then ret tt
    else
      putTileState point
        (mkTileState (state tState) true (wasClicked tState)) >>
      emit (TileChanged point)) >>
  setBoardState lost.

Definition openTile (point : Point) : M unit :=
  let* tState := getTileState point in
  if isFlag (state tState) then warn WarnOpenTileNotDefault
  else
    setTileOpen point true >>
    let* tData := getTileData point in
    if isBomb tData then handleLose else checkWin.

Definition isClosedFlag (s : TileState) : bool :=
  negb (isOpen s) && isFlag (state s).

Definition isClosedNoFlag (s : TileState) : bool :=
  negb (isOpen s) && negb (isFlag (state s)).

Definition openNeighbors (point : Point) : M unit :=
  let* tState := getTileState point in
  if negb (isOpen tState) then warn WarnNeighborsOfClosed
  else
    let* tData := getTileData point in
    match tData with
    | BombTile =>
        throw (AssertionError
          "Bomb tile can't be open, while the game is still running and you can click stuff")
    | EmptyTile bombNeighbors =>
        let* data := gets tileData in
        let neighbors := List.filter (isInBounds data) (eightWayNeighbors point) in
        let* flagNeighbors :=
          filterA neighbors (λ neighborPoint,
            let* neighborState := getTileState neighborPoint in
            ret (isClosedFlag neighborState)) in
        (* We can only open neighbors if there are enough flags nearby. *)
        if negb (length flagNeighbors =? bombNeighbors)%nat then ret tt
        else
          let* neighborsToOpen :=
            filterA neighbors (λ neighborPoint,
              let* neighborState := getTileState neighborPoint in
              ret (isClosedNoFlag neighborState)) in
          forEach neighborsToOpen (λ neighborPoint,
            setTileOpen neighborPoint true) >>
          (* Separate loop: all tiles are opened before the loss is checked. *)
          let* lose :=
            anyOf neighborsToOpen (λ neighborPoint,
              let* neighborData := getTileData neighborPoint in
              ret (isBomb neighborData)) in
          if lose then handleLose else checkWin
    end.

Definition clickTile (point : Point) : M unit :=
  let* s := gets boardState in
  (if bool_decide (s = not_started) then setBoardState active else ret tt) >>
  let* s := gets boardState in
  if negb (bool_decide (s = active)) then warn WarnNotActive
  else
    let* tState := getTileState point in
    if isOpen tState then openNeighbors point else openTile point.

(** ** core/minesweeper-board: the game on a call stack of a given depth *)

(** [openTile], [openNeighbors] and [clickTile] once more, with room for
    [stack] nested calls of [setTileOpen] instead of room enough.  When a
    chain of tiles without bomb neighbours needs more, the call ends with
    [OutOfFuel], and what it has opened until then stays open.  Only the
    nested calls of [setTileOpen] are counted, as they are what grows with
    the board; the other calls made on the way need a bounded room at every
    level, and the listeners of the signals are outside the model. *)
Definition openTileOn (stack : nat) (point : Point) : M unit :=
  let* tState := getTileState point in
  if isFlag (state tState) then warn WarnOpenTileNotDefault
  else
    setTileOpen_fuel stack point true >>
    let* tData := getTileData point in
    if isBomb tData then handleLose else checkWin.

Definition openNeighborsOn (stack : nat) (point : Point) : M unit :=
  let* tState := getTileState point in
  if negb (isOpen tState) then warn WarnNeighborsOfClosed
  else
    let* tData := getTileData point in
    match tData with
    | BombTile =>
        throw (AssertionError
          "Bomb tile can't be open, while the game is still running and you can click stuff")
    | EmptyTile bombNeighbors =>
        let* data := gets tileData in
        let neighbors := List.filter (isInBounds data) (eightWayNeighbors point) in
        let* flagNeighbors :=
          filterA neighbors (λ neighborPoint,
            let* neighborState := getTileState neighborPoint in
            ret (isClosedFlag neighborState)) in
        if negb (length flagNeighbors =? bombNeighbors)%nat then ret tt
        else
          let* neighborsToOpen :=
            filterA neighbors (λ neighborPoint,
              let* neighborState := getTileState neighborPoint in
              ret (isClosedNoFlag neighborState)) in
          forEach neighborsToOpen (λ neighborPoint,
            setTileOpen_fuel stack neighborPoint true) >>
          let* lose :=
            anyOf neighborsToOpen (λ neighborPoint,
              let* neighborData := getTileData neighborPoint in
              ret (isBomb neighborData)) in
          if lose then handleLose else checkWin
    end.

Definition clickTileOn (stack : nat) (point : Point) : M unit :=
  let* s := gets boardState in
  (if bool_decide (s = not_started) then setBoardState active else ret tt) >>
  let* s := gets boardState in
  if negb (bool_decide (s = active)) then warn WarnNotActive
  else
    let* tState := getTileState point in
    if isOpen tState then openNeighborsOn stack point
    else openTileOn stack point.

(** A board as [new MinesweeperBoard(...)] leaves it: no signal emitted and
    nothing printed yet. *)
Definition newWorld (b : MinesweeperBoard) : World := mkWorld b [] [].

(** * Vocabulary of the specification *)

(** What the [Grid] constructor checks. *)
Definition wfGrid {T} (g : Grid T) : Prop :=
  0 < width g ∧ 0 < height g ∧ Z.of_nat (length (array g)) = width g * height g.

(** The two grids of a board are built with the same dimensions. *)
Definition wfBoard (b : MinesweeperBoard) : Prop :=
  wfGrid (tileData b) ∧ wfGrid (tileState b) ∧
  width (tileState b) = width (tileData b) ∧
  height (tileState b) = height (tileData b).

Definition inBounds (w : World) (p : Point) : Prop :=
  isInBounds (tileData (board w)) p = true.

#[global] Instance inBounds_dec w p : Decision (inBounds w p).
Proof. unfold inBounds. apply _. Defined.

Definition tileAt (w : World) (p : Point) : option TileState :=
  getOrNull (tileState (board w)) p.

Definition dataAt (w : World) (p : Point) : option TileData :=
  getOrNull (tileData (board w)) p.

(** The world after the first statement of [clickTile] and
    [changeTileState]: a board that was not started is now active, and its
    listeners were told. *)
Definition activated (w : World) : World :=
  if bool_decide (boardState (board w) = not_started)
  then mkWorld (withBoardState active (board w))
         (emitted w ++ [BoardStateChanged active]) (console w)
  else w.

Definition warned (d : Warning) (w : World) : World :=
  mkWorld (board w) (emitted w) (console w ++ [d]).

(** Counting the tiles of a board that satisfy a test on their data and
    their state, along the two arrays. *)
Fixpoint count2 {A B} (test : A → B → bool) (l1 : list A) (l2 : list B) : nat :=
  match l1, l2 with
  | a :: l1', b :: l2' => ((if test a b then 1 else 0) + count2 test l1' l2')%nat
  | _, _ => 0%nat
  end.

Definition countTiles (test : TileData → TileState → bool)
    (b : MinesweeperBoard) : nat :=
  count2 test (array (tileData b)) (array (tileState b)).

(** Empty tiles that are not open. *)
Definition closedEmpty (b : MinesweeperBoard) : nat :=
  countTiles (λ d s, isEmpty d && negb (isOpen s)) b.

(** Tiles that [setTileOpen] would still open: closed and not flagged. *)
Definition closedDefault (b : MinesweeperBoard) : nat :=
  countTiles (λ _ s, isClosedNoFlag s) b.

Definition isEmptyAt (g : Grid TileData) (p : Point) : bool :=
  match getOrNull g p with
  | Some (EmptyTile _) => true
  | _ => false
  end.

Definition isBombAt (g : Grid TileData) (p : Point) : bool :=
  match getOrNull g p with
  | Some BombTile => true
  | _ => false
  end.

(** [cascade w w' ps]: from [w] to [w'] exactly the tiles [ps] were opened,
    in this order, each of them closed and unflagged before, each announced
    once, and the counter went down by the number of empty tiles among them.
    This is what one call of [setTileOpen] does, and what a loop of such
    calls does. *)
Record cascade (w w' : World) (ps : list Point) : Prop := mkCascade {
  c_boardState : boardState (board w') = boardState (board w);
  c_tileData : tileData (board w') = tileData (board w);
  c_bombCount : bombCount (board w') = bombCount (board w);
  c_width : width (tileState (board w')) = width (tileState (board w));
  c_height : height (tileState (board w')) = height (tileState (board w));
  c_length :
    length (array (tileState (board w'))) = length (array (tileState (board w)));
  c_emitted : emitted w' = emitted w ++ (TileChanged <$> ps);
  c_nodup : NoDup ps;
  c_opened : ∀ q, q ∈ ps →
    ∃ wc wc', tileAt w q = Some (mkTileState default false wc) ∧
              tileAt w' q = Some (mkTileState default true wc');
  c_others : ∀ q, q ∉ ps → tileAt w' q = tileAt w q;
  c_left :
    tilesLeftToOpenToWin (board w') =
    tilesLeftToOpenToWin (board w)
    - Z.of_nat (length (List.filter (isEmptyAt (tileData (board w))) ps));
  c_closedEmpty :
    (closedEmpty (board w')
     + length (List.filter (isEmptyAt (tileData (board w))) ps)
     = closedEmpty (board w))%nat;
  c_closedDefault :
    (closedDefault (board w') + length ps = closedDefault (board w))%nat
}.

(** A point next to an empty tile without bomb neighbours: the only way
    into a nested call of [setTileOpen]. *)
Definition nextToZero (g : Grid TileData) (q : Point) : Prop :=
  ∃ z, getOrNull g z = Some (EmptyTile 0) ∧ q ∈ eightWayNeighbors z.

(** The world after the writes and the [emit] of [setTileOpen] on a closed,
    unflagged tile, before it looks at the neighbours. *)
Definition openedAt (p : Point) (wc : bool) (w : World) : World :=
  let b := board w in
  let b1 := withTileState (setAt (tileState b) p (mkTileState default true wc)) b in
  let b2 := if isEmptyAt (tileData b) p
            then withTilesLeft (tilesLeftToOpenToWin b1 - 1) b1 else b1 in
  mkWorld b2 (emitted w ++ [TileChanged p]) (console w).

(** The nested calls of [setTileOpen] on a tile without bomb neighbours. *)
Definition openAround (fuel : nat) (p : Point) : M unit :=
  forEach (eightWayNeighbors p) (λ neighborPoint,
    let* data := gets tileData in
    if negb (isInBounds data neighborPoint) then ret tt
    else setTileOpen_fuel fuel neighborPoint false).

(** One round of the loops of [checkWin] and [handleLose]: the tile at [p]
    is rewritten by [upd] and announced when [test] holds of it. *)
Definition markAt (test : TileData → TileState → bool)
    (upd : TileState → TileState) (p : Point) (w : World) : World :=
  match dataAt w p, tileAt w p with
  | Some d, Some s =>
      if test d s
      then mkWorld (withTileState (setAt (tileState (board w)) p (upd s)) (board w))
             (emitted w ++ [TileChanged p]) (console w)
      else w
  | _, _ => w
  end.

Definition markEach (test : TileData → TileState → bool)
    (upd : TileState → TileState) (l : list Point) (w : World) : World :=
  foldl (λ w0 p, markAt test upd p w0) w l.

(** Whether the loop rewrites the tile at [p]. *)
Definition marks (test : TileData → TileState → bool) (w : World) (p : Point)
  : bool :=
  match dataAt w p, tileAt w p with
  | Some d, Some s => test d s
  | _, _ => false
  end.

(** The [boardState] setter run on a world. *)
Definition ended (s : BoardState) (w : World) : World :=
  mkWorld (withBoardState s (board w)) (emitted w ++ [BoardStateChanged s])
    (console w).

Definition isUnflaggedBomb (d : TileData) (s : TileState) : bool :=
  isBomb d && negb (isFlag (state s)).

Definition flagged (s : TileState) : TileState :=
  mkTileState flag (isOpen s) (wasClicked s).

Definition revealed (s : TileState) : TileState :=
  mkTileState (state s) true (wasClicked s).

(** Whether the state of the tile at [p] satisfies [test]; no tile, no. *)
Definition holds (test : TileState → bool) (w : World) (p : Point) : bool :=
  match tileAt w p with
  | Some s => test s
  | None => false
  end.

(** The bomb neighbours of every empty tile are counted right: as many as
    there are bombs on the board among the eight neighbours. *)
Definition dataOk (g : Grid TileData) : Prop :=
  ∀ p n, getOrNull g p = Some (EmptyTile n) →
         n = length (List.filter (isBombAt g) (eightWayNeighbors p)).

Definition running (w : World) : Prop :=
  boardState (board w) = not_started ∨ boardState (board w) = active.

(** What holds of a board however it was played. *)
Record Inv (w : World) : Prop := mkInv {
  inv_wf : wfBoard (board w);
  inv_data : dataOk (tileData (board w));
  inv_bombCount :
    bombCount (board w) = Z.of_nat (countTiles (λ d _, isBomb d) (board w));
  inv_nonneg : 0 ≤ tilesLeftToOpenToWin (board w);
  inv_left :
    boardState (board w) ≠ lost →
    tilesLeftToOpenToWin (board w) = Z.of_nat (closedEmpty (board w));
  inv_fresh :
    boardState (board w) = not_started →
    ∀ p s, tileAt w p = Some s → s = mkTileState default false false;
  inv_no_open_bomb :
    running w →
    ∀ p s, tileAt w p = Some s → isOpen s = true →
           isBombAt (tileData (board w)) p = false;
  inv_some_empty :
    running w → tilesLeftToOpenToWin (board w) = 0 →
    ∀ p, inBounds w p → isBombAt (tileData (board w)) p = true;
  inv_won :
    boardState (board w) = won →
    tilesLeftToOpenToWin (board w) = 0 ∧
    ∀ p, isBombAt (tileData (board w)) p = true →
         ∃ s, tileAt w p = Some s ∧ state s = flag ∧ isOpen s = false
}.

(** The worlds that a driver can bring about: it constructs a board, then
    clicks and toggles flags, on any points and whatever the calls return
    or throw. *)
Inductive reachable : World → Prop :=
| reach_new width height bombsArray b :
    newBoard width height bombsArray = Return b → reachable (newWorld b)
| reach_click w p : reachable w → reachable (snd (clickTile p w))
| reach_flag w p : reachable w → reachable (snd (changeTileState p w)).

(** The three lists that [openNeighbors] computes. *)
Definition neighborsIn (w : World) (p : Point) : list Point :=
  List.filter (isInBounds (tileData (board w))) (eightWayNeighbors p).

Definition flagNeighbors (w : World) (p : Point) : list Point :=
  List.filter (holds isClosedFlag w) (neighborsIn w p).

Definition neighborsToOpen (w : World) (p : Point) : list Point :=
  List.filter (holds isClosedNoFlag w) (neighborsIn w p).

(** How [openTile] and [openNeighbors] end once tiles [ps] were opened:
    with the loss if a bomb is among them, else with the win check. *)
Definition finish (w1 : World) (ps : list Point) : World :=
  if existsb (isBombAt (tileData (board w1))) ps
  then ended lost
         (markEach shouldReveal revealed (points (tileData (board w1))) w1)
  else if tilesLeftToOpenToWin (board w1) =? 0
  then ended won
         (markEach isUnflaggedBomb flagged (points (tileData (board w1))) w1)
  else w1.

(** The ways a call [clickTile p] on the world [w] can go. *)
Inductive clickOutcome (w : World) (p : Point) : Outcome unit → World → Prop :=
| click_over :
    ¬ running w →
    clickOutcome w p (Return tt) (warned WarnNotActive w)
| click_outside :
    running w → ¬ inBounds w p →
    clickOutcome w p (Throw (OutOfBoundsError p)) (activated w)
| click_flagged s :
    running w → tileAt w p = Some s → isOpen s = false → state s = flag →
    clickOutcome w p (Return tt) (warned WarnOpenTileNotDefault (activated w))
| click_single wc w1 ps :
    running w → tileAt w p = Some (mkTileState default false wc) →
    cascade (activated w) w1 (p :: ps) →
    tileAt w1 p = Some (mkTileState default true true) →
    (∀ q, q ∈ ps → isBombAt (tileData (board w)) q = false) →
    (isBombAt (tileData (board w)) p = true → ps = []) →
    clickOutcome w p (Return tt) (finish w1 (p :: ps))
| click_chord_stay s k :
    running w → tileAt w p = Some s → isOpen s = true →
    dataAt w p = Some (EmptyTile k) →
    length (flagNeighbors w p) ≠ k →
    clickOutcome w p (Return tt) (activated w)
| click_chord s k w1 ps :
    running w → tileAt w p = Some s → isOpen s = true →
    dataAt w p = Some (EmptyTile k) →
    length (flagNeighbors w p) = k →
    cascade (activated w) w1 ps →
    (∀ q, q ∈ neighborsToOpen w p → q ∈ ps) →
    (∀ q, q ∈ ps → isBombAt (tileData (board w)) q = true →
          q ∈ neighborsToOpen w p) →
    clickOutcome w p (Return tt) (finish w1 ps).

(** The write and the [emit] of [changeTileState] on a closed tile. *)
Definition toggleMark (s : TileState) : TileState :=
  mkTileState (toggled (state s)) (isOpen s) (wasClicked s).

Definition toggledAt (p : Point) (s : TileState) (w : World) : World :=
  mkWorld (withTileState (setAt (tileState (board w)) p (toggleMark s)) (board w))
    (emitted w ++ [TileChanged p]) (console w).

(** The tiles that the loss reveals: bombs without a flag, and flags on
    empty tiles. *)
Definition revealedByLoss (d : TileData) (s : TileState) : bool :=
  (isBomb d && negb (isFlag (state s))) || (isEmpty d && isFlag (state s)).

(** Example boards, as the constructor builds them. *)
Definition closedTile : TileState := mkTileState default false false.

(** Two tiles in a row, the bomb on the left. *)
Definition board2x1 : MinesweeperBoard :=
  mkBoard not_started
    (mkGrid 2 1 [BombTile; EmptyTile 1])
    (mkGrid 2 1 [closedTile; closedTile]) 1 1.

(** Three by three, the bomb in the middle. *)
Definition board3x3 : MinesweeperBoard :=
  mkBoard not_started
    (mkGrid 3 3 [EmptyTile 1; EmptyTile 1; EmptyTile 1;
                 EmptyTile 1; BombTile; EmptyTile 1;
                 EmptyTile 1; EmptyTile 1; EmptyTile 1])
    (mkGrid 3 3 (replicate 9 closedTile)) 1 8.

(** A single tile, and it is a bomb. *)
Definition board1x1 : MinesweeperBoard :=
  mkBoard not_started (mkGrid 1 1 [BombTile]) (mkGrid 1 1 [closedTile]) 1 0.

(** Three by three, the bomb in the corner (0, 0): the tiles of the right
    column and of the bottom row have no bomb neighbour. *)
Definition cornerBombs : list bool :=
  [true; false; false; false; false; false; false; false; false].

Definition cornerBoard : MinesweeperBoard :=
  mkBoard not_started
    (mkGrid 3 3 [BombTile; EmptyTile 1; EmptyTile 0;
                 EmptyTile 1; EmptyTile 1; EmptyTile 0;
                 EmptyTile 0; EmptyTile 0; EmptyTile 0])
    (mkGrid 3 3 (replicate 9 closedTile)) 1 8.

(** A single row of [n + 2] tiles with the bomb at its right end: the first
    [n] tiles have no bomb neighbour, and a click on the left end opens them
    one from inside the other. *)
Definition lineBombs (n : nat) : list bool := replicate (S n) false ++ [true].

Definition lineBoard (n : nat) : MinesweeperBoard :=
  mkBoard not_started
    (mkGrid (Z.of_nat n + 2) 1
       (replicate n (EmptyTile 0) ++ [EmptyTile 1; BombTile]))
    (mkGrid (Z.of_nat n + 2) 1 (replicate (n + 2) closedTile))
    1 (Z.of_nat n + 1).

(** The row of [n + 2] tiles when the flood fill has come to its tile [k]:
    the tiles before it are open, the others are as the constructor left
    them. *)
Record lineOpened (n k : nat) (w : World) : Prop := mkLineOpened {
  line_data : tileData (board w) = tileData (lineBoard n);
  line_width : width (tileState (board w)) = Z.of_nat n + 2;
  line_height : height (tileState (board w)) = 1;
  line_length : length (array (tileState (board w))) = (n + 2)%nat;
  line_open : ∀ i s, (i < k)%nat →
    tileAt w (mkPoint (Z.of_nat i) 0) = Some s → isOpen s = true;
  line_closed : ∀ i, (k ≤ i < n + 2)%nat →
    tileAt w (mkPoint (Z.of_nat i) 0) = Some closedTile
}.

(** [agrees allow P m m']: from a world that satisfies [P], [m] does what
    [m'] does, or, when [allow] is set, runs out of room for nested calls. *)
Definition agrees (allow : bool) (P : World → Prop) {A} (m m' : M A) : Prop :=
  ∀ w, P w → m w = m' w ∨ (allow = true ∧ (m w).1 = OutOfFuel).

(** [below m m']: whatever [m] does without running out of fuel, [m'] does
    as well. *)
Definition below {A} (m m' : M A) : Prop :=
  ∀ w o w', m w = (o, w') → o ≠ OutOfFuel → m' w = (o, w').

(** The three-by-three board after a flag on the bomb and a click on the
    corner (0, 0). *)
Definition chordWorld : World :=
  (clickTile (mkPoint 0 0)
     (changeTileState (mkPoint 1 1) (newWorld board3x3)).2).2.

(** Empty tiles that are open. *)
Definition openEmpty (b : MinesweeperBoard) : nat :=
  countTiles (λ d s, isEmpty d && isOpen s) b.

(** The two-tile board after a flag on the empty tile (1, 0), and then after
    a click on the bomb (0, 0). *)
Definition misflaggedWorld : World :=
  (changeTileState (mkPoint 1 0) (newWorld board2x1)).2.

Definition lostWorld : World := (clickTile (mkPoint 0 0) misflaggedWorld).2.

(** One call of a public mutator. *)
Inductive step : World → World → Prop :=
| step_click w p : step w (clickTile p w).2
| step_flag w p : step w (changeTileState p w).2.

(** * The rest of the code *)

(** ** lib/grid: the remaining methods *)

(** [Array.prototype.slice(start, end)], with the positions read as [fill]
    reads them. *)
Definition slice {T} (array : list T) (start finish : Z) : list T :=
  let len := Z.of_nat (length array) in
  let k := relativeIndex len start in
  let final := relativeIndex len finish in
  take (Z.to_nat (final - k)) (drop (Z.to_nat k) array).

(** [lines]: one slice of the array per row. *)
Definition lines {T} (g : Grid T) : list (list T) :=
  (λ y, slice (array g) (y * width g) ((y + 1) * width g)) <$> seqZ 0 (height g).

(** [Grid.forEach(action)].  The action returns nothing and works on a
    state [S] of its own; it is run on the values in the order of [points],
    and a throw of [get] ends the loop with the state reached so far. *)
Fixpoint forEachPoint {T S} `{Nullable T} (g : Grid T) (action : T → S → S)
    (l : list Point) (s : S) : Outcome unit * S :=
  match l with
  | [] => (Return tt, s)
  | point :: l' =>
      match get g point with
      | Return value => forEachPoint g action l' (action value s)
      | Throw e => (Throw e, s)
      | OutOfFuel => (OutOfFuel, s)
      end
  end.

Definition Grid_forEach {T S} `{Nullable T} (g : Grid T)
    (action : T → S → S) (s : S) : Outcome unit * S :=
  forEachPoint g action (points g) s.

(** ** What the listeners of a board receive *)

(** The values that [boardStateChangedSignal] delivered, and the points
    that [tileChangedSignal] delivered, among the emissions of a world. *)
Definition stateChanges (signals : list Signal) : list BoardState :=
  omap (λ s, match s with
             | BoardStateChanged newState => Some newState
             | TileChanged _ => None
             end) signals.

Definition tileChanges (signals : list Signal) : list Point :=
  omap (λ s, match s with
             | TileChanged point => Some point
             | BoardStateChanged _ => None
             end) signals.

(** The states that a board has been put into by the time it is in the
    state [s]: a game is started once, and then won or lost once. *)
Definition statesUpTo (s : BoardState) : list BoardState :=
  match s with
  | not_started => []
  | active => [active]
  | won => [active; won]
  | lost => [active; lost]
  end.

(** ** The shape of a played board *)

(** What the tiles of a board look like however it was played: an open tile
    has no flag unless the loss revealed it, a closed tile was never
    clicked open, and on a lost board every bomb without a flag and every
    flag on an empty tile is open, every bomb with a flag closed. *)
Record Shape (w : World) : Prop := mkShape {
  shape_open :
    boardState (board w) ≠ lost →
    ∀ p s, tileAt w p = Some s → isOpen s = true → state s = default;
  shape_closed :
    ∀ p s, tileAt w p = Some s → isOpen s = false → wasClicked s = false;
  shape_lost :
    boardState (board w) = lost →
    ∀ p d s, dataAt w p = Some d → tileAt w p = Some s →
      (isBomb d = true → isOpen s = negb (isFlag (state s))) ∧
      (isBomb d = false → state s = flag → isOpen s = true);
  shape_lost_bomb :
    boardState (board w) = lost →
    ∃ p s, dataAt w p = Some BombTile ∧ tileAt w p = Some s ∧
           isOpen s = true ∧ state s = default
}.

(** ** pixi/minesweeper: the header of the window *)

(** What [MinesweeperPixi] keeps of the game in its header: the state that
    the face button shows, whether the button is held down, and whether the
    ticker of the stopwatch is started. *)
Record Header : Type := mkHeader {
  buttonState : BoardState;
  isPressed : bool;
  tickerStarted : bool
}.

(** [MinesweeperButtonPixi.getTextureKey] *)
Definition buttonTextureKey (h : Header) : string :=
  if isPressed h then "face/happy_pressed.png"
  else match buttonState h with
       | not_started | active => "face/happy.png"
       | won => "face/sunglasses.png"
       | lost => "face/dead.png"
       end.

(** [MinesweeperPixi.onBoardStateChanged]: [button.changeState(newState)],
    then [stopwatch.pause()] or [stopwatch.start()], which stop and start
    the ticker. *)
Definition onBoardStateChanged (newState : BoardState) (h : Header) : Header :=
  let h1 := mkHeader newState (isPressed h) (tickerStarted h) in
  match newState with
  | not_started | won | lost => mkHeader (buttonState h1) (isPressed h1) false
  | active => mkHeader (buttonState h1) (isPressed h1) true
  end.

(** The header as [setupBoard] leaves it for a new board: the button shows
    the state of the board, which is [not_started], and [stopwatch.reset()]
    has stopped the ticker. *)
Definition setupHeader (pressed : bool) : Header :=
  mkHeader not_started pressed false.

(** The listener that [setupBoard] connects to [boardStateChangedSignal],
    run on everything the signal delivered. *)
Definition headerAfter (signals : list Signal) (h : Header) : Header :=
  foldl (λ h0 newState, onBoardStateChanged newState h0) h (stateChanges signals).

(** ** pixi/minesweeper-tile *)

(** [MinesweeperTilePixi.numberTextures], indexed by the number of adjacent
    bombs. *)
Definition numberTextures : list string :=
  (λ number, "cell/open/" ++ number ++ ".png")%string
    <$> ["empty"; "1"; "2"; "3"; "4"; "5"; "6"; "7"; "8"]%string.

(** [MinesweeperTilePixi.getTextureKey], for the [highlight] of the tile.
    [None] is the [undefined] that an index outside [numberTextures]
    yields. *)
Definition getTextureKey (highlight : bool) (tData : TileData)
    (tState : TileState) : option string :=
  if negb (isOpen tState)
  then (* Tile is not open. *)
    match state tState with
    | default =>
        Some (if highlight then "cell/open/empty.png"
              else "cell/filled/empty.png")%string
    | flag => Some "cell/filled/flag.png"%string
    end
  else
    match tData with
    | EmptyTile bombNeighbors =>
        (* Is open and not a bomb. *)
        match state tState with
        | default => numberTextures !! (bombNeighbors - 0)%nat
        | flag => Some "cell/open/no_mine.png"%string
        end
    | BombTile =>
        (* Is open and is a bomb. *)
        Some (if wasClicked tState then "cell/open/mine_red.png"
              else "cell/open/mine.png")%string
    end.

(** ** lib/signal *)

(** The class [Signal<T>].  Its callbacks are function objects kept in a
    [Set]: they are compared by reference, kept in the order in which they
    were added, and adding one that is there changes nothing.  [K] is the
    type of the references, and [call k data] is what the function behind
    [k] does, given [data], to the state [S] that the listeners work on;
    callbacks that connect or disconnect listeners of the same signal while
    it emits are outside this model. *)
Module SignalClass.

Section Signal.
Context {K T S : Type} `{EqDecision K}.
Variable call : K → T → S → S.

Record Signal : Type := mkSignal { callbacks : list K }.

(** [new Signal()] *)
Definition newSignal : Signal := mkSignal [].

Definition connect (callback : K) (s : Signal) : Signal :=
  if bool_decide (callback ∈ callbacks s) then s
  else mkSignal (callbacks s ++ [callback]).

Definition disconnect (callback : K) (s : Signal) : Signal :=
  mkSignal (List.filter (λ c, negb (bool_decide (c = callback))) (callbacks s)).

Definition emit (data : T) (s : Signal) (st : S) : S :=
  foldl (λ st0 callback, call callback data st0) st (callbacks s).

Definition clear (s : Signal) : Signal := mkSignal [].

(** The calls that change the set of callbacks. *)
Inductive Change : Type :=
| Connect (callback : K)
| Disconnect (callback : K)
| Clear.

Definition change (s : Signal) (c : Change) : Signal :=
  match c with
  | Connect callback => connect callback s
  | Disconnect callback => disconnect callback s
  | Clear => clear s
  end.

(** Whether the last of the calls [cs] that concerns [callback] connects
    it. *)
Definition connectedBy (callback : K) (cs : list Change) : bool :=
  foldl (λ b c,
    match c with
    | Connect k => if bool_decide (k = callback) then true else b
    | Disconnect k => if bool_decide (k = callback) then false else b
    | Clear => false
    end) false cs.

End Signal.

Arguments Signal K : clear implicits.
Arguments Change K : clear implicits.

End SignalClass.

(** ** utils/clamp and utils/digit-array *)

(** [clamp], on integers. *)
Definition clamp (value min max : Z) : Outcome Z :=
  let+ _ := assert (min <=? max)
              "The 'min' value cannot be greater than the 'max' value." in
  Return (Z.min (Z.max value min) max).

(** The loop of [getDigitArray], [i] running from [digits - 1] down to 0:
    it pushes [Math.floor(number / 10 ** i)] and goes on with
    [number % 10 ** i]. *)
Fixpoint digitLoop (digits : nat) (number : Z) : list Z :=
  match digits with
  | O => []
  | S i =>
      let divisor := 10 ^ Z.of_nat i in
      number `div` divisor :: digitLoop i (number `mod` divisor)
  end.

(** [getDigitArray], on integers.  [floorLog10 n] is what
    [Math.floor(Math.log10(n))] returns: the logarithm is computed in
    floating point, so the model takes it as given.  The quotients and
    remainders of the loop are those of the integers, which is what floating
    point computes for integers below [2 ^ 52]. *)
Definition getDigitArray (floorLog10 : Z → Z) (number : Z) : list Z :=
  if number =? 0 then [0]
  else
    let number := Z.abs number in
    (* Count digits *)
    let digits := floorLog10 (Z.abs number) + 1 in
    digitLoop (Z.to_nat digits) number.

(** The integer that a list of decimal digits writes, the first digit the
    most significant one. *)
Definition digitsValue (digits : list Z) : Z :=
  foldl (λ acc digit, 10 * acc + digit) 0 digits.

(** The integer logarithm to base 10, by repeated division: what
    [Math.floor(Math.log10(n))] is when the logarithm is accurate. *)
Fixpoint log10Loop (fuel : nat) (n : Z) : Z :=
  match fuel with
  | O => 0
  | S fuel' => if n <? 10 then 0 else 1 + log10Loop fuel' (n `div` 10)
  end.

Definition exactFloorLog10 (n : Z) : Z := log10Loop (Z.to_nat n) n.

(** ** pixi/minesweeper-number-display *)

(** [MinesweeperNumberDisplayPixi.digitTextures] *)
Definition digitTextures : list string :=
  (λ number, "number/" ++ number ++ ".png")%string
    <$> ["0"; "1"; "2"; "3"; "4"; "5"; "6"; "7"; "8"; "9"]%string.

(** One round of the loop of [updateDisplay]: the key of the texture that
    the sprite at [index] gets.  [None] is [undefined]: what an index
    outside [digitTextures] would yield.  A digit that is [undefined] fails
    both comparisons of the assertion.  The message of the assertion ends
    with the digit, which the model leaves out. *)
Definition spriteTexture (isNegative : bool) (digitArray : list Z)
    (digitsStartAtIndex : Z) (index : Z) : Outcome (option string) :=
  if isNegative && (index =? digitsStartAtIndex - 1)
  then Return (Some "number/minus.png"%string)
  else if index <? digitsStartAtIndex
  then Return (Some "number/empty.png"%string)
  else
    let digitIndex := index - digitsStartAtIndex in
    match digitArray !! Z.to_nat digitIndex with
    | None =>
        Throw (AssertionError "Digit can't be bigger than 9 or less than 0.")
    | Some digit =>
        let+ _ := assert ((0 <=? digit) && (digit <=? 9))
                    "Digit can't be bigger than 9 or less than 0." in
        Return (digitTextures !! Z.to_nat digit)
    end.

(** The loop over [digitSpriteArray.entries()]: the sprites get their
    textures one after the other, and a throw leaves the later ones as they
    were. *)
Fixpoint updateSprites (texture : Z → Outcome (option string)) (index : Z)
    (sprites : list (option string)) : Outcome unit * list (option string) :=
  match sprites with
  | [] => (Return tt, [])
  | sprite :: rest =>
      match texture index with
      | Return key =>
          let (o, rest') := updateSprites texture (index + 1) rest in
          (o, key :: rest')
      | Throw e => (Throw e, sprite :: rest)
      | OutOfFuel => (OutOfFuel, sprite :: rest)
      end
  end.

(** [updateDisplay], for an integer [value] of the display and the texture
    keys of its sprites. *)
Definition updateDisplay (floorLog10 : Z → Z) (value : Z)
    (sprites : list (option string)) : Outcome unit * list (option string) :=
  let isNegative := value <? 0 in
  let checked :=
    (* Only 3 display cells: numbers from -99 to 999. *)
    let+ clamped := clamp value (-99) 999 in
    let clampedValue := Z.abs clamped in
    let digitArray := getDigitArray floorLog10 clampedValue in
    let+ _ := assert (0 <? length digitArray)%nat
                "There can't be less than one digit" in
    let+ _ :=
      if isNegative
      then assert (length digitArray <=? 2)%nat
             "Can only display 2 digits when the number is negative"
      else assert (length digitArray <=? 3)%nat
             "Can only display 3 digits when the number is positive" in
    Return digitArray in
  match checked with
  | Return digitArray =>
      let digitsStartAtIndex := 3 - Z.of_nat (length digitArray) in
      updateSprites (spriteTexture isNegative digitArray digitsStartAtIndex)
        0 sprites
  | Throw e => (Throw e, sprites)
  | OutOfFuel => (OutOfFuel, sprites)
  end.

(** ** board-settings *)

(** The settings of the board read from the parameters of the URL.
    [params name] is what [urlParams.get(name)] returns, [None] for [null];
    [parseInt s] is the integer that [parseInt] reads from [s], [None] for
    [NaN]; the product [width * height] is that of the integers, which is
    what floating point computes while the numbers read are at most
    [2 ^ 26] in absolute value.  Every function returns its result together
    with what it printed to the console. *)
Module Settings.

Inductive MinesweeperDifficulty : Type :=
| beginner | intermediate | expert | custom.

Record BoardSettings : Type := mkBoardSettings {
  width : Z;
  height : Z;
  bombs : Z
}.

Definition BEGINNER_SETTINGS : BoardSettings := mkBoardSettings 9 9 10.
Definition INTERMEDIATE_SETTINGS : BoardSettings := mkBoardSettings 16 16 40.
Definition EXPERT_SETTINGS : BoardSettings := mkBoardSettings 30 16 99.

(** The calls of [console.warn] and [console.error], one constructor per
    call site. *)
Inductive Message : Type :=
| UnknownDifficulty (param : string)
| FallingBack
| ParamMissing
| ParamNaN
| NoBomb
| TooManyBombs
| TooSmall.

Definition getUrlParamsDifficulty (params : string → option string)
  : MinesweeperDifficulty * list Message :=
  match params "difficulty"%string with
  | None => (beginner, [])
  | Some param =>
      if String.eqb param "beginner" then (beginner, [])
      else if String.eqb param "intermediate" then (intermediate, [])
      else if String.eqb param "expert" then (expert, [])
      else if String.eqb param "custom" then (custom, [])
      else (beginner, [UnknownDifficulty param])
  end.

Definition getUrlParamsCustomBoardSettings (parseInt : string → option Z)
    (params : string → option string) : option BoardSettings * list Message :=
  match params "width"%string, params "height"%string, params "bombs"%string with
  | Some widthParam, Some heightParam, Some bombsParam =>
      match parseInt widthParam, parseInt heightParam, parseInt bombsParam with
      | Some width, Some height, Some bombs =>
          if bombs <? 1 then (None, [NoBomb])
          else if width * height <=? bombs then (None, [TooManyBombs])
          else if (height <? 1) || (width <? 8) then (None, [TooSmall])
          else (Some (mkBoardSettings width height bombs), [])
      | _, _, _ => (None, [ParamNaN])
      end
  | _, _, _ => (None, [ParamMissing])
  end.

Definition getUrlParamsBoardSettings (parseInt : string → option Z)
    (params : string → option string) : BoardSettings * list Message :=
  let (difficulty, printed) := getUrlParamsDifficulty params in
  match difficulty with
  | beginner => (BEGINNER_SETTINGS, printed)
  | intermediate => (INTERMEDIATE_SETTINGS, printed)
  | expert => (EXPERT_SETTINGS, printed)
  | custom =>
      let (boardSettings, printed') :=
        getUrlParamsCustomBoardSettings parseInt params in
      match boardSettings with
      | None => (BEGINNER_SETTINGS, printed ++ printed' ++ [FallingBack])
      | Some boardSettings => (boardSettings, printed ++ printed')
      end
  end.

End Settings.

(** ** lib/stopwatch *)

(** The class [Stopwatch].  Its numbers are floating-point numbers: they
    are the rationals of [Q], and the two operations on them that round,
    the sum [elapsedMS + deltaMS] and the quotient [elapsedMS / 1000], are
    the parameters [plus] and [divide] of the model.  [Math.floor] does not
    round.  The ticker is kept as the flag that [start] sets and [stop]
    clears, and [secondsUpdate] as the list of the values it emitted. *)
Module StopwatchClass.

Record Stopwatch : Type := mkStopwatch {
  started : bool;
  elapsedMS : Q;
  elapsedSeconds : Z;
  secondsUpdate : list Z
}.

(** [new Stopwatch()] *)
Definition newStopwatch : Stopwatch := mkStopwatch false 0 0 [].

(** The getter and the setter of [seconds]. *)
Definition seconds (sw : Stopwatch) : Z := elapsedSeconds sw.

Definition setSeconds (newSeconds : Q) (sw : Stopwatch) : Stopwatch :=
  let newSeconds := Qfloor newSeconds in
  if newSeconds =? elapsedSeconds sw then sw
  else mkStopwatch (started sw) (elapsedMS sw) newSeconds
         (secondsUpdate sw ++ [newSeconds]).

Definition start (sw : Stopwatch) : Stopwatch :=
  mkStopwatch true (elapsedMS sw) (elapsedSeconds sw) (secondsUpdate sw).

Definition pause (sw : Stopwatch) : Stopwatch :=
  mkStopwatch false (elapsedMS sw) (elapsedSeconds sw) (secondsUpdate sw).

Definition reset (sw : Stopwatch) : Stopwatch :=
  setSeconds 0
    (mkStopwatch false 0 (elapsedSeconds sw) (secondsUpdate sw)).

(** [update], for the [deltaMS] of the ticker. *)
Definition update (plus divide : Q → Q → Q) (deltaMS : Q) (sw : Stopwatch)
  : Stopwatch :=
  let sw1 := mkStopwatch (started sw) (plus (elapsedMS sw) deltaMS)
               (elapsedSeconds sw) (secondsUpdate sw) in
  setSeconds (divide (elapsedMS sw1) (inject_Z 1000)) sw1.

(** What can happen to a stopwatch: the three public methods, and a tick of
    the ticker, which runs [update] when the ticker is started. *)
Inductive Event : Type :=
| Start
| Pause
| Reset
| Tick (deltaMS : Q).

Definition handle (plus divide : Q → Q → Q) (sw : Stopwatch) (e : Event)
  : Stopwatch :=
  match e with
  | Start => start sw
  | Pause => pause sw
  | Reset => reset sw
  | Tick deltaMS => if started sw then update plus divide deltaMS sw else sw
  end.

(** Every number of [l] differs from the one before it, the first one
    from [previous]. *)
Fixpoint distinctFrom (previous : Z) (l : list Z) : Prop :=
  match l with
  | [] => True
  | n :: l' => n ≠ previous ∧ distinctFrom n l'
  end.

(** The listeners of [secondsUpdate] know the seconds: the last value
    emitted, or 0 when there is none, is the current number of seconds, and
    no value was emitted twice in a row. *)
Definition inSync (sw : Stopwatch) : Prop :=
  elapsedSeconds sw = List.last (secondsUpdate sw) 0 ∧
  distinctFrom 0 (secondsUpdate sw).

End StopwatchClass.

(** ** pixi/minesweeper-board: the tile under the pointer *)

Definition TILE_SIZE_PX : Z := 16.

(** The position that the constructor of [MinesweeperBoardPixi] gives to
    the sprite of the tile at [point]. *)
Definition tilePosition (point : Point) : Z * Z :=
  (x point * TILE_SIZE_PX, y point * TILE_SIZE_PX).

(** [updateLastHovered], for the local position [(px, py)] of the pointer:
    whether the hovered tile was updated, and the hovered tile after the
    call.  The position is the rational that the floating-point number
    denotes; the division by 16, a power of two, does not round it. *)
Definition updateLastHovered (px py : Q) (lastHoveredTile : option Point)
  : bool * option Point :=
  let newPoint :=
    mkPoint (Qfloor (px / inject_Z TILE_SIZE_PX))
            (Qfloor (py / inject_Z TILE_SIZE_PX)) in
  let same :=
    match lastHoveredTile with
    | Some last => (x newPoint =? x last) && (y newPoint =? y last)
    | None => false
    end in
  if same then (false, lastHoveredTile) else (true, Some newPoint).

(** * Properties *)

(** ** Grids *)

Section GridFacts.
Context {T : Type}.
Implicit Types (g : Grid T) (p q : Point).

Lemma isInBounds_true g p :
  isInBounds g p = true ↔ 0 ≤ x p < width g ∧ 0 ≤ y p < height g.
Proof.
  unfold isInBounds. rewrite !andb_true_iff, !Z.ltb_lt, !Z.leb_le. lia.
Qed.


Lemma index_in_array g p :
  wfGrid g → isInBounds g p = true →
  (Z.to_nat (x p + width g * y p) < length (array g))%nat.
Proof.
  intros (Hw & Hh & Hlen) Hp. apply isInBounds_true in Hp. nia.
Qed.

Lemma index_inj g p q :
  isInBounds g p = true → isInBounds g q = true →
  Z.to_nat (x p + width g * y p) = Z.to_nat (x q + width g * y q) → p = q.
Proof.
  intros Hp Hq Heq. apply isInBounds_true in Hp, Hq.
  destruct p as [px py], q as [qx qy]; simpl in *.
  assert (px + width g * py = qx + width g * qy) as Hz by nia.
  assert (py = qy) by nia. subst. f_equal. lia.
Qed.

Lemma getOrNull_inBounds g p v : getOrNull g p = Some v → isInBounds g p = true.
Proof.
  unfold getOrNull, pointToArrayIndex. by destruct (isInBounds g p).
Qed.

Lemma getOrNull_out g p : isInBounds g p = false → getOrNull g p = None.
Proof. unfold getOrNull, pointToArrayIndex. by intros ->. Qed.

Lemma getOrNull_is_Some g p :
  wfGrid g → isInBounds g p = true → is_Some (getOrNull g p).
Proof.
  intros Hwf Hp. unfold getOrNull, pointToArrayIndex. rewrite Hp.
  apply lookup_lt_is_Some. by apply index_in_array.
Qed.

Lemma getOrNull_lookup g p :
  isInBounds g p = true →
  getOrNull g p = array g !! Z.to_nat (x p + width g * y p).
Proof. unfold getOrNull, pointToArrayIndex. by intros ->. Qed.

Lemma width_setAt g p v : width (setAt g p v) = width g.
Proof. unfold setAt. by destruct (pointToArrayIndex g p). Qed.

Lemma height_setAt g p v : height (setAt g p v) = height g.
Proof. unfold setAt. by destruct (pointToArrayIndex g p). Qed.

Lemma length_setAt g p v : length (array (setAt g p v)) = length (array g).
Proof.
  unfold setAt. destruct (pointToArrayIndex g p); simpl; [|done].
  by rewrite length_insert.
Qed.

Lemma array_setAt g p v :
  isInBounds g p = true →
  array (setAt g p v) = <[ Z.to_nat (x p + width g * y p) := v ]> (array g).
Proof. unfold setAt, pointToArrayIndex. by intros ->. Qed.

Lemma isInBounds_setAt g p v q : isInBounds (setAt g p v) q = isInBounds g q.
Proof. unfold isInBounds. by rewrite width_setAt, height_setAt. Qed.

Lemma wfGrid_setAt g p v : wfGrid g → wfGrid (setAt g p v).
Proof.
  unfold wfGrid. by rewrite width_setAt, height_setAt, length_setAt.
Qed.

Lemma getOrNull_setAt_eq g p v :
  wfGrid g → isInBounds g p = true → getOrNull (setAt g p v) p = Some v.
Proof.
  intros Hwf Hp. rewrite getOrNull_lookup by by rewrite isInBounds_setAt.
  rewrite width_setAt, array_setAt by done.
  apply list_lookup_insert_eq. by apply index_in_array.
Qed.

Lemma getOrNull_setAt_ne g p v q :
  p ≠ q → getOrNull (setAt g p v) q = getOrNull g q.
Proof.
  intros Hne. destruct (isInBounds g q) eqn:Hq.
  - rewrite !getOrNull_lookup by by rewrite ?isInBounds_setAt.
    rewrite width_setAt. destruct (isInBounds g p) eqn:Hp.
    + rewrite array_setAt by done. apply list_lookup_insert_ne.
      intros Heq. by apply Hne, (index_inj g).
    + unfold setAt, pointToArrayIndex. by rewrite Hp.
  - rewrite !getOrNull_out; by rewrite ?isInBounds_setAt.
Qed.

End GridFacts.

Lemma lookup_bind_uniform {A B} (f : A → list B) (n : nat) (l : list A) (i j : nat) :
  (∀ a, length (f a) = n) → (j < n)%nat →
  (l ≫= f) !! (i * n + j)%nat = l !! i ≫= λ a, f a !! j.
Proof.
  intros Hlen Hj. revert i. induction l as [|a l IH]; intros i.
  - by rewrite !lookup_nil.
  - rewrite bind_cons. destruct i as [|i]; simpl.
    + apply lookup_app_l. by rewrite Hlen.
    + rewrite lookup_app_r by (rewrite Hlen; lia).
      rewrite Hlen, <- IH. f_equal. lia.
Qed.

Lemma elem_of_eightWayNeighbors p q :
  q ∈ eightWayNeighbors p ↔
  q ≠ p ∧ Z.abs (x q - x p) ≤ 1 ∧ Z.abs (y q - y p) ≤ 1.
Proof.
  unfold eightWayNeighbors. destruct p as [px py], q as [qx qy]. simpl.
  rewrite !elem_of_cons, !elem_of_nil. split.
  - intros H. repeat destruct H as [H|H]; try done;
      simplify_eq; (split; [intros [=]; lia|lia]).
  - intros (Hne & Hx & Hy).
    assert (qx = px - 1 ∨ qx = px ∨ qx = px + 1) as Hqx by lia.
    assert (qy = py - 1 ∨ qy = py ∨ qy = py + 1) as Hqy by lia.
    destruct Hqx as [-> | [-> | ->] ], Hqy as [-> | [-> | ->] ];
      try (exfalso; apply Hne; f_equal; lia);
      repeat (first [left; f_equal; lia|right]).
Qed.

Section PointsFacts.
Context {T : Type}.
Implicit Types (g : Grid T) (p q : Point).

Lemma elem_of_points g p : p ∈ points g ↔ isInBounds g p = true.
Proof.
  unfold points. rewrite isInBounds_true, list_elem_of_bind. split.
  - intros (py & Hp & Hy). apply list_elem_of_bind in Hp as (px & Hp & Hx).
    apply list_elem_of_singleton in Hp as ->. simpl.
    apply elem_of_seqZ in Hx, Hy. lia.
  - intros [Hx Hy]. exists (y p). split; [|apply elem_of_seqZ; lia].
    apply list_elem_of_bind. exists (x p). split; [|apply elem_of_seqZ; lia].
    destruct p. apply list_elem_of_singleton. done.
Qed.

Lemma NoDup_points g : NoDup (points g).
Proof.
  unfold points. apply NoDup_bind; [| |apply NoDup_seqZ].
  - intros y1 y2 p _ _ (x1 & Hp1 & _)%list_elem_of_bind (x2 & Hp2 & _)%list_elem_of_bind.
    apply list_elem_of_singleton in Hp1, Hp2. congruence.
  - intros py _. apply NoDup_bind; [| |apply NoDup_seqZ].
    + intros x1 x2 p _ _ Hp1%list_elem_of_singleton Hp2%list_elem_of_singleton.
      congruence.
    + intros. apply NoDup_singleton.
Qed.

Lemma points_lookup g p :
  isInBounds g p = true →
  points g !! Z.to_nat (x p + width g * y p) = Some p.
Proof.
  intros Hp. apply isInBounds_true in Hp.
  replace (Z.to_nat (x p + width g * y p))
    with (Z.to_nat (y p) * Z.to_nat (width g) + Z.to_nat (x p))%nat by nia.
  unfold points.
  assert (∀ py, seqZ 0 (width g) ≫= (λ px, [ {| x := px; y := py |} ])
                = (λ px, {| x := px; y := py |}) <$> seqZ 0 (width g)) as Hrow.
  { intros py. induction (seqZ 0 (width g)) as [|a l IH]; [done|].
    rewrite bind_cons, IH. done. }
  rewrite (lookup_bind_uniform _ (Z.to_nat (width g))).
  - rewrite lookup_seqZ_lt by lia. simpl. rewrite Hrow, list_lookup_fmap.
    rewrite lookup_seqZ_lt by lia. simpl. destruct p; simpl in *.
    f_equal. f_equal; lia.
  - intros py. by rewrite Hrow, length_fmap, length_seqZ.
  - lia.
Qed.

Lemma length_points g :
  length (points g) = (Z.to_nat (height g) * Z.to_nat (width g))%nat.
Proof.
  unfold points. generalize (seqZ 0 (width g)) (length_seqZ 0 (width g)).
  intros row <-. rewrite <- (length_seqZ 0 (height g)).
  induction (seqZ 0 (height g)) as [|a l IH]; [done|].
  rewrite bind_cons, length_app, IH. simpl. f_equal.
  clear. induction row; simpl; [done|]. by f_equal.
Qed.

End PointsFacts.

(** ** Running the primitives of [M] *)

Lemma bind_run {A B} (m : M A) (k : A → M B) w :
  bind m k w =
  match m w with
  | (Return a, w') => k a w'
  | (Throw e, w') => (Throw e, w')
  | (OutOfFuel, w') => (OutOfFuel, w')
  end.
Proof. done. Qed.

Lemma bind_Return {A B} (m : M A) (k : A → M B) w a w' :
  m w = (Return a, w') → bind m k w = k a w'.
Proof. intros H. by rewrite bind_run, H. Qed.


Lemma getTileState_run p w :
  getTileState p w =
  (match tileAt w p with
   | Some s => Return s
   | None => Throw (OutOfBoundsError p)
   end, w).
Proof. done. Qed.

Lemma getTileData_run p w :
  getTileData p w =
  (match dataAt w p with
   | Some d => Return d
   | None => Throw (OutOfBoundsError p)
   end, w).
Proof. done. Qed.

Lemma clickTile_run p w :
  clickTile p w =
  if bool_decide (boardState (board (activated w)) = active)
  then (let* tState := getTileState p in
        if isOpen tState then openNeighbors p else openTile p) (activated w)
  else (Return tt, warned WarnNotActive (activated w)).
Proof.
  unfold clickTile, activated. rewrite bind_run. simpl.
  destruct (bool_decide (boardState (board w) = not_started)); simpl.
  - unfold setBoardState. by rewrite !bind_run.
  - rewrite (bind_run (ret tt)). simpl. rewrite (bind_run (gets _)). simpl.
    by case_bool_decide.
Qed.

Lemma changeTileState_run p w :
  changeTileState p w =
  if bool_decide (boardState (board (activated w)) = active)
  then (let* tState := getTileState p in
        if isOpen tState then ret tt
        else
          putTileState p
            (mkTileState (toggled (state tState)) (isOpen tState)
               (wasClicked tState)) >>
          emit (TileChanged p)) (activated w)
  else (Return tt, activated w).
Proof.
  unfold changeTileState, activated. rewrite bind_run. simpl.
  destruct (bool_decide (boardState (board w) = not_started)); simpl.
  - unfold setBoardState. by rewrite !bind_run.
  - rewrite (bind_run (ret tt)). simpl. rewrite (bind_run (gets _)). simpl.
    by case_bool_decide.
Qed.

Lemma activated_terminal w :
  boardState (board w) = won ∨ boardState (board w) = lost → activated w = w.
Proof.
  intros Hs. unfold activated. case_bool_decide; [|done].
  destruct Hs; congruence.
Qed.

Lemma activated_active w :
  boardState (board w) = active → activated w = w.
Proof. intros Hs. unfold activated. case_bool_decide; [congruence|done]. Qed.

(** C7: [won] and [lost] are terminal.  On a board in one of these states
    [clickTile] only prints its warning and [changeTileState] does nothing
    at all, for every point, on the board or not: no tile state, no counter,
    no board state changes, and no signal is emitted. *)
Theorem terminal_states_are_final w p :
  boardState (board w) = won ∨ boardState (board w) = lost →
  clickTile p w = (Return tt, warned WarnNotActive w) ∧
  changeTileState p w = (Return tt, w).
Proof.
  intros Hs. rewrite clickTile_run, changeTileState_run.
  rewrite (activated_terminal w Hs).
  case_bool_decide; [|done]. destruct Hs; congruence.
Qed.

(** ** Counting *)

Section Counting.
Context {A B : Type}.
Implicit Types (test : A → B → bool).

Lemma count2_insert test (l1 : list A) (l2 : list B) i a b b' :
  l1 !! i = Some a → l2 !! i = Some b →
  (count2 test l1 (<[ i := b' ]> l2) + (if test a b then 1 else 0)
   = count2 test l1 l2 + (if test a b' then 1 else 0))%nat.
Proof.
  revert l2 i. induction l1 as [|a0 l1 IH]; intros [|b0 l2] [|i] H1 H2;
    simplify_eq/=; [lia|].
  specialize (IH _ _ H1 H2). lia.
Qed.

Lemma count2_le_length test (l1 : list A) (l2 : list B) : (count2 test l1 l2 ≤ length l2)%nat.
Proof.
  revert l2. induction l1 as [|a l1 IH]; intros [|b l2]; simpl; try lia.
  specialize (IH l2). destruct (test a b); lia.
Qed.

Lemma count2_zero test (l1 : list A) (l2 : list B) i a b :
  count2 test l1 l2 = 0%nat → l1 !! i = Some a → l2 !! i = Some b →
  test a b = false.
Proof.
  revert l2 i. induction l1 as [|a0 l1 IH]; intros [|b0 l2] [|i] H0 H1 H2;
    simplify_eq/=.
  - destruct (test a b); [lia|done].
  - eapply IH; [|done..]. lia.
Qed.


Lemma count2_ext test test' (l1 : list A) (l2 : list B) :
  (∀ i a b, l1 !! i = Some a → l2 !! i = Some b → test a b = test' a b) →
  count2 test l1 l2 = count2 test' l1 l2.
Proof.
  revert l2. induction l1 as [|a l1 IH]; intros [|b l2] H; simpl; try done.
  rewrite (H 0%nat a b) by done. f_equal. apply IH.
  intros i a' b' ??. by apply (H (S i)).
Qed.

Lemma count2_split test test' (l1 : list A) (l2 : list B) :
  (count2 (λ a b, test a b && test' a b) l1 l2
   + count2 (λ a b, test a b && negb (test' a b)) l1 l2
   = count2 test l1 l2)%nat.
Proof.
  revert l2. induction l1 as [|a l1 IH]; intros [|b l2]; simpl; try done.
  specialize (IH l2). destruct (test a b), (test' a b); simpl; lia.
Qed.

Lemma count2_true (l1 : list A) (l2 : list B) :
  length l1 = length l2 → count2 (λ _ _, true) l1 l2 = length l2.
Proof.
  revert l2. induction l1 as [|a l1 IH]; intros [|b l2] H; simplify_eq/=; [done|].
  by rewrite IH.
Qed.

End Counting.

(** ** Cascades of openings *)

Lemma cascade_same w w' :
  board w' = board w → emitted w' = emitted w → cascade w w' [].
Proof.
  intros Hb He. unfold tileAt.
  split; rewrite ?Hb, ?He; simpl; try done; try lia.
  - by rewrite app_nil_r.
  - constructor.
  - by intros q ?%elem_of_nil.
  - intros q _. unfold tileAt. by rewrite Hb.
Qed.

Lemma cascade_trans w w1 w2 ps1 ps2 :
  cascade w w1 ps1 → cascade w1 w2 ps2 → cascade w w2 (ps1 ++ ps2).
Proof.
  intros H1 H2.
  assert (∀ q, q ∈ ps1 → q ∉ ps2) as Hdisj.
  { intros q Hq1 Hq2.
    destruct (c_opened _ _ _ H1 q Hq1) as (? & ? & _ & Ho).
    destruct (c_opened _ _ _ H2 q Hq2) as (? & ? & Hc & _). congruence. }
  split.
  - by rewrite (c_boardState _ _ _ H2), (c_boardState _ _ _ H1).
  - by rewrite (c_tileData _ _ _ H2), (c_tileData _ _ _ H1).
  - by rewrite (c_bombCount _ _ _ H2), (c_bombCount _ _ _ H1).
  - by rewrite (c_width _ _ _ H2), (c_width _ _ _ H1).
  - by rewrite (c_height _ _ _ H2), (c_height _ _ _ H1).
  - by rewrite (c_length _ _ _ H2), (c_length _ _ _ H1).
  - by rewrite (c_emitted _ _ _ H2), (c_emitted _ _ _ H1), fmap_app, app_assoc.
  - apply NoDup_app. split_and!; [apply H1|done|apply H2].
  - intros q [Hq|Hq]%elem_of_app.
    + destruct (c_opened _ _ _ H1 q Hq) as (wc & wc' & Hc & Ho).
      exists wc, wc'. split; [done|].
      rewrite (c_others _ _ _ H2 q); [done|by apply Hdisj].
    + destruct (c_opened _ _ _ H2 q Hq) as (wc & wc' & Hc & Ho).
      exists wc, wc'. split; [|done].
      rewrite <- (c_others _ _ _ H1 q); [done|].
      intros Hq1. by apply (Hdisj q).
  - intros q Hq. rewrite elem_of_app in Hq.
    rewrite (c_others _ _ _ H2 q), (c_others _ _ _ H1 q); tauto.
  - rewrite (c_left _ _ _ H2), (c_left _ _ _ H1), (c_tileData _ _ _ H1).
    rewrite List.filter_app, length_app. lia.
  - pose proof (c_closedEmpty _ _ _ H1). pose proof (c_closedEmpty _ _ _ H2).
    rewrite (c_tileData _ _ _ H1) in *.
    rewrite List.filter_app, length_app. lia.
  - pose proof (c_closedDefault _ _ _ H1). pose proof (c_closedDefault _ _ _ H2).
    rewrite length_app. lia.
Qed.

Lemma cascade_wfBoard w w' ps :
  cascade w w' ps → wfBoard (board w) → wfBoard (board w').
Proof.
  intros H (Hd & Hs & Hw & Hh). unfold wfBoard, wfGrid in *.
  rewrite (c_tileData _ _ _ H), (c_width _ _ _ H), (c_height _ _ _ H),
    (c_length _ _ _ H). done.
Qed.

Lemma cascade_inBounds w w' ps p :
  cascade w w' ps → inBounds w' p ↔ inBounds w p.
Proof. intros H. unfold inBounds. by rewrite (c_tileData _ _ _ H). Qed.

Lemma tileAt_is_Some w p :
  wfBoard (board w) → inBounds w p → is_Some (tileAt w p).
Proof.
  intros (Hd & Hs & Hw & Hh) Hp. apply getOrNull_is_Some; [done|].
  unfold inBounds, isInBounds in *. by rewrite Hw, Hh.
Qed.

Lemma dataAt_is_Some w p :
  wfBoard (board w) → inBounds w p → is_Some (dataAt w p).
Proof. intros (Hd & _) Hp. by apply getOrNull_is_Some. Qed.

Lemma tileAt_inBounds w p s :
  wfBoard (board w) → tileAt w p = Some s → inBounds w p.
Proof.
  intros (Hd & Hs & Hw & Hh) Hp%getOrNull_inBounds.
  unfold inBounds, isInBounds in *. by rewrite <- Hw, <- Hh.
Qed.


Lemma cascade_openedAt w p wc wc0 :
  wfBoard (board w) →
  tileAt w p = Some (mkTileState default false wc0) →
  cascade w (openedAt p wc w) [p].
Proof.
  intros Hwf Hs. pose proof (tileAt_inBounds _ _ _ Hwf Hs) as Hp.
  destruct (dataAt_is_Some w p Hwf Hp) as [d Hd].
  destruct Hwf as (Hwd & Hws & Hw & Hh).
  assert (isInBounds (tileState (board w)) p = true) as Hp'
    by by eapply getOrNull_inBounds.
  set (i := Z.to_nat (x p + width (tileState (board w)) * y p)).
  assert (array (tileData (board w)) !! i = Some d) as Hdi.
  { unfold dataAt in Hd. rewrite getOrNull_lookup in Hd by done.
    unfold i. by rewrite Hw. }
  assert (array (tileState (board w)) !! i = Some (mkTileState default false wc0)) as Hsi.
  { unfold tileAt in Hs. by rewrite getOrNull_lookup in Hs. }
  assert (∀ test,
    (countTiles test (board (openedAt p wc w))
     + (if test d (mkTileState default false wc0) then 1 else 0)
     = countTiles test (board w)
       + (if test d (mkTileState default true wc) then 1 else 0))%nat) as Hcount.
  { intros test. unfold countTiles, openedAt. simpl.
    destruct (isEmptyAt _ p); simpl; rewrite array_setAt by done;
      by apply count2_insert. }
  assert (isEmptyAt (tileData (board w)) p = isEmpty d) as Hempty.
  { unfold isEmptyAt. fold (dataAt w p). rewrite Hd. by destruct d. }
  unfold openedAt, tileAt. rewrite Hempty.
  split; simpl.
  - by destruct (isEmpty d).
  - by destruct (isEmpty d).
  - by destruct (isEmpty d).
  - destruct (isEmpty d); simpl; apply width_setAt.
  - destruct (isEmpty d); simpl; apply height_setAt.
  - destruct (isEmpty d); simpl; apply length_setAt.
  - done.
  - apply NoDup_singleton.
  - intros q ->%list_elem_of_singleton. exists wc0, wc. split; [done|].
    destruct (isEmpty d); simpl; by apply getOrNull_setAt_eq.
  - intros q Hq%not_elem_of_cons. destruct Hq as [Hq _].
    destruct (isEmpty d); simpl; by apply getOrNull_setAt_ne.
  - rewrite Hempty. destruct (isEmpty d); simpl; lia.
  - rewrite Hempty. specialize (Hcount (λ d s, isEmpty d && negb (isOpen s))).
    unfold closedEmpty. simpl in Hcount.
    rewrite Hempty in Hcount. rewrite andb_false_r, andb_true_r in Hcount.
    destruct (isEmpty d); simpl in *; lia.
  - specialize (Hcount (λ _ s, isClosedNoFlag s)).
    unfold closedDefault. simpl in Hcount. rewrite Hempty in Hcount. lia.
Qed.

Lemma tileAt_openedAt w p wc :
  wfBoard (board w) → inBounds w p →
  tileAt (openedAt p wc w) p = Some (mkTileState default true wc).
Proof.
  intros Hwf Hp. destruct (tileAt_is_Some w p Hwf Hp) as [s Hs].
  apply getOrNull_inBounds in Hs. destruct Hwf as (_ & Hws & _).
  unfold tileAt, openedAt. simpl.
  destruct (isEmptyAt _ p); simpl; by apply getOrNull_setAt_eq.
Qed.

Lemma forEach_cascade {A} (l : list A) (body : A → M unit)
    (P : World → Prop) (R : A → Point → Prop) w :
  (∀ w0 w1 ps, P w0 → cascade w0 w1 ps → P w1) →
  (∀ a w0, a ∈ l → P w0 →
     ∃ w1 ps, body a w0 = (Return tt, w1) ∧ cascade w0 w1 ps ∧
              ∀ q, q ∈ ps → R a q) →
  P w →
  ∃ w' ps, forEach l body w = (Return tt, w') ∧ cascade w w' ps ∧
           ∀ q, q ∈ ps → ∃ a, a ∈ l ∧ R a q.
Proof.
  intros HP. revert w. induction l as [|a l IH]; intros w Hbody Hw.
  - exists w, []. split_and!; [done|by apply cascade_same|].
    by intros q ?%elem_of_nil.
  - destruct (Hbody a w) as (w1 & ps1 & Hrun1 & Hc1 & HR1); [left|done|].
    destruct (IH w1) as (w2 & ps2 & Hrun2 & Hc2 & HR2).
    { intros a' w0 Ha'. apply Hbody. by right. }
    { by eapply HP. }
    exists w2, (ps1 ++ ps2). split_and!.
    + simpl. by rewrite (bind_Return _ _ _ _ _ Hrun1).
    + by eapply cascade_trans.
    + intros q [Hq|Hq]%elem_of_app.
      * exists a. split; [left|auto].
      * destruct (HR2 q Hq) as (a' & Ha' & HR). exists a'. split; [by right|done].
Qed.

Lemma setTileOpen_fuel_already_open fuel p wc w s d :
  tileAt w p = Some s → dataAt w p = Some d → isOpen s = true →
  setTileOpen_fuel (S fuel) p wc w = (Return tt, warned (WarnAlreadyOpen p) w).
Proof.
  intros Hs Hd Ho. simpl.
  rewrite bind_run, getTileState_run, Hs.
  rewrite bind_run, getTileData_run, Hd. by rewrite Ho.
Qed.

Lemma setTileOpen_fuel_flagged fuel p wc w s d :
  tileAt w p = Some s → dataAt w p = Some d →
  isOpen s = false → state s = flag →
  setTileOpen_fuel (S fuel) p wc w
  = (Return tt, warned (WarnNotDefault flag p) w).
Proof.
  intros Hs Hd Ho Hf. simpl.
  rewrite bind_run, getTileState_run, Hs.
  rewrite bind_run, getTileData_run, Hd. by rewrite Ho, Hf.
Qed.

Lemma setTileOpen_fuel_closed fuel p wc w wc0 d :
  tileAt w p = Some (mkTileState default false wc0) → dataAt w p = Some d →
  setTileOpen_fuel (S fuel) p wc w =
  match d with
  | EmptyTile 0 => openAround fuel p (openedAt p wc w)
  | _ => (Return tt, openedAt p wc w)
  end.
Proof.
  intros Hs Hd. simpl.
  rewrite bind_run, getTileState_run, Hs.
  rewrite bind_run, getTileData_run, Hd. simpl.
  unfold openedAt, isEmptyAt. fold (dataAt w p). rewrite Hd.
  destruct d as [[|n]|]; by rewrite !bind_run.
Qed.

(** What a call of [setTileOpen] on a point of the board does, when the
    depth allowed exceeds the number of tiles it could still open. *)
Lemma setTileOpen_fuel_cascade fuel : ∀ w p wc,
  wfBoard (board w) → inBounds w p → (closedDefault (board w) < fuel)%nat →
  ∃ w' ps,
    setTileOpen_fuel fuel p wc w = (Return tt, w') ∧
    cascade w w' ps ∧
    (∀ q, q ∈ ps → q = p ∨ nextToZero (tileData (board w)) q) ∧
    (∀ s, tileAt w p = Some s →
       if isOpen s then w' = warned (WarnAlreadyOpen p) w ∧ ps = []
       else if isFlag (state s)
       then w' = warned (WarnNotDefault flag p) w ∧ ps = []
       else tileAt w' p = Some (mkTileState default true wc) ∧
            ∃ ps', ps = p :: ps' ∧
                   (dataAt w p ≠ Some (EmptyTile 0) →
                    ps' = [] ∧ w' = openedAt p wc w)).
Proof.
  induction fuel as [|fuel IH]; intros w p wc Hwf Hp Hfuel; [lia|].
  destruct (tileAt_is_Some w p Hwf Hp) as [[m o wc0] Hs].
  destruct (dataAt_is_Some w p Hwf Hp) as [d Hd].
  destruct o.
  { exists (warned (WarnAlreadyOpen p) w), []. split_and!.
    - by eapply setTileOpen_fuel_already_open.
    - by apply cascade_same.
    - by intros q ?%elem_of_nil.
    - intros s Hs'. rewrite Hs in Hs'. by simplify_eq/=. }
  destruct m; cycle 1.
  { exists (warned (WarnNotDefault flag p) w), []. split_and!.
    - by eapply setTileOpen_fuel_flagged.
    - by apply cascade_same.
    - by intros q ?%elem_of_nil.
    - intros s Hs'. rewrite Hs in Hs'. by simplify_eq/=. }
  pose proof (cascade_openedAt w p wc wc0 Hwf Hs) as Hc1.
  pose proof (tileAt_openedAt w p wc Hwf Hp) as Hs1.
  rewrite (setTileOpen_fuel_closed fuel p wc w wc0 d Hs Hd).
  assert (∃ w' ps',
    match d with
    | EmptyTile 0 => openAround fuel p (openedAt p wc w)
    | _ => (Return tt, openedAt p wc w)
    end = (Return tt, w') ∧
    cascade (openedAt p wc w) w' ps' ∧
    (∀ q, q ∈ ps' → nextToZero (tileData (board w)) q) ∧
    (d ≠ EmptyTile 0 → ps' = [] ∧ w' = openedAt p wc w))
    as (w' & ps' & Hrun & Hc2 & Hz & Hstay).
  { assert (∃ w' ps', (Return tt, openedAt p wc w) = (Return tt, w') ∧
      cascade (openedAt p wc w) w' ps' ∧
      (∀ q, q ∈ ps' → nextToZero (tileData (board w)) q) ∧
      (ps' = [] ∧ w' = openedAt p wc w)) as Hstop.
    { exists (openedAt p wc w), []. split_and!; [done|by apply cascade_same| |done..].
      by intros q ?%elem_of_nil. }
    destruct d as [[|n]|];
      [|destruct Hstop as (w' & ps' & ? & ? & ? & ?); by exists w', ps'..].
    clear Hstop.
    destruct (forEach_cascade (eightWayNeighbors p)
      (λ neighborPoint,
         let* data := gets tileData in
         if negb (isInBounds data neighborPoint) then ret tt
         else setTileOpen_fuel fuel neighborPoint false)
      (λ w0, wfBoard (board w0) ∧ (closedDefault (board w0) < fuel)%nat ∧
             tileData (board w0) = tileData (board w))
      (λ a q, q = a ∨ nextToZero (tileData (board w)) q)
      (openedAt p wc w)) as (w' & ps' & Hrun & Hc2 & Hz).
    - intros w0 w1 ps (Hwf0 & Hlt0 & Hd0) Hc. split_and!.
      + by eapply cascade_wfBoard.
      + pose proof (c_closedDefault _ _ _ Hc). lia.
      + by rewrite (c_tileData _ _ _ Hc).
    - intros a w0 Ha (Hwf0 & Hlt0 & Hd0). rewrite bind_run. simpl.
      destruct (isInBounds (tileData (board w0)) a) eqn:Hin; simpl.
      + destruct (IH w0 a false Hwf0 Hin Hlt0) as (w1 & ps & Hrun & Hc & Hz & _).
        exists w1, ps. split_and!; [done..|]. by rewrite <- Hd0.
      + exists w0, []. split_and!; [done|by apply cascade_same|].
        by intros q ?%elem_of_nil.
    - split_and!.
      + by eapply cascade_wfBoard.
      + pose proof (c_closedDefault _ _ _ Hc1). simpl in *. lia.
      + apply Hc1.
    - exists w', ps'. split_and!; [done..| |done].
      intros q Hq. destruct (Hz q Hq) as (a & Ha & [->|Hq']); [|done].
      by exists p. }
  exists w', ([p] ++ ps'). split_and!.
  - done.
  - by eapply cascade_trans.
  - intros q [Hq|Hq]%elem_of_cons; auto.
  - intros s Hs'. rewrite Hs in Hs'. simplify_eq/=. split.
    + rewrite (c_others _ _ _ Hc2); [done|]. intros Hq.
      destruct (c_opened _ _ _ Hc2 p Hq) as (? & ? & Hclosed & _). congruence.
    + exists ps'. split; [done|]. intros Hne. apply Hstay. congruence.
Qed.

(** ** The loops over all points *)

Section MarkEach.
Variable test : TileData → TileState → bool.
Variable upd : TileState → TileState.

Lemma markAt_frame p w :
  boardState (board (markAt test upd p w)) = boardState (board w) ∧
  tileData (board (markAt test upd p w)) = tileData (board w) ∧
  bombCount (board (markAt test upd p w)) = bombCount (board w) ∧
  tilesLeftToOpenToWin (board (markAt test upd p w))
    = tilesLeftToOpenToWin (board w) ∧
  console (markAt test upd p w) = console w ∧
  (wfBoard (board w) → wfBoard (board (markAt test upd p w))).
Proof.
  unfold markAt. destruct (dataAt w p) as [d|], (tileAt w p) as [s|]; try done.
  destruct (test d s); [|done]. simpl. split_and!; try done.
  intros (Hd & Hs & Hw & Hh). split_and!; simpl;
    rewrite ?width_setAt, ?height_setAt; try done.
  by apply wfGrid_setAt.
Qed.

Lemma markAt_other p w q :
  q ≠ p → tileAt (markAt test upd p w) q = tileAt w q.
Proof.
  intros Hne. unfold markAt.
  destruct (dataAt w p) as [d|], (tileAt w p) as [s|] eqn:Hs; try done.
  destruct (test d s); [|done]. unfold tileAt. simpl.
  by apply getOrNull_setAt_ne.
Qed.

Lemma markAt_here p w d s :
  wfBoard (board w) → dataAt w p = Some d → tileAt w p = Some s →
  tileAt (markAt test upd p w) p = Some (if test d s then upd s else s).
Proof.
  intros Hwf Hd Hs. unfold markAt. rewrite Hd, Hs.
  destruct (test d s); [|done]. unfold tileAt. simpl.
  apply getOrNull_setAt_eq; [apply Hwf|]. by eapply getOrNull_inBounds.
Qed.

Lemma markAt_emitted p w :
  emitted (markAt test upd p w)
  = emitted w ++ (if marks test w p then [TileChanged p] else []).
Proof.
  unfold markAt, marks.
  destruct (dataAt w p) as [d|], (tileAt w p) as [s|];
    rewrite ?app_nil_r; try done.
  destruct (test d s); by rewrite ?app_nil_r.
Qed.

Lemma markAt_dataAt p w q : dataAt (markAt test upd p w) q = dataAt w q.
Proof. unfold dataAt. by rewrite (proj1 (proj2 (markAt_frame p w))). Qed.

Lemma markEach_frame l w :
  boardState (board (markEach test upd l w)) = boardState (board w) ∧
  tileData (board (markEach test upd l w)) = tileData (board w) ∧
  bombCount (board (markEach test upd l w)) = bombCount (board w) ∧
  tilesLeftToOpenToWin (board (markEach test upd l w))
    = tilesLeftToOpenToWin (board w) ∧
  console (markEach test upd l w) = console w ∧
  (wfBoard (board w) → wfBoard (board (markEach test upd l w))).
Proof.
  revert w. induction l as [|a l IH]; intros w; [done|].
  unfold markEach in *. simpl.
  destruct (IH (markAt test upd a w)) as (-> & -> & -> & -> & -> & Hwf).
  destruct (markAt_frame a w) as (-> & -> & -> & -> & -> & Hwf').
  split_and!; auto.
Qed.

Lemma markEach_other l w q :
  q ∉ l → tileAt (markEach test upd l w) q = tileAt w q.
Proof.
  revert w. induction l as [|a l IH]; intros w Hq; [done|].
  apply not_elem_of_cons in Hq as [Hne Hq].
  unfold markEach in *. simpl. rewrite IH by done. by apply markAt_other.
Qed.

Lemma markEach_here l w q d s :
  wfBoard (board w) → NoDup l → q ∈ l →
  dataAt w q = Some d → tileAt w q = Some s →
  tileAt (markEach test upd l w) q = Some (if test d s then upd s else s).
Proof.
  revert w. induction l as [|a l IH]; intros w Hwf Hnd Hq Hd Hs.
  { by apply elem_of_nil in Hq. }
  apply NoDup_cons in Hnd as [Ha Hnd].
  change (markEach test upd (a :: l) w)
    with (markEach test upd l (markAt test upd a w)).
  destruct (decide (q = a)) as [->|Hne].
  - rewrite markEach_other by done. by apply markAt_here.
  - apply elem_of_cons in Hq as [?|Hq]; [done|]. apply IH; try done.
    + by apply markAt_frame.
    + by rewrite markAt_dataAt.
    + by rewrite markAt_other.
Qed.

Lemma markEach_emitted l w :
  NoDup l →
  emitted (markEach test upd l w)
  = emitted w ++ (TileChanged <$> List.filter (marks test w) l).
Proof.
  revert w. induction l as [|a l IH]; intros w Hnd.
  { simpl. by rewrite app_nil_r. }
  apply NoDup_cons in Hnd as [Ha Hnd].
  change (markEach test upd (a :: l) w)
    with (markEach test upd l (markAt test upd a w)).
  rewrite IH, markAt_emitted by done. simpl.
  assert (List.filter (marks test (markAt test upd a w)) l
          = List.filter (marks test w) l) as ->.
  { apply List.filter_ext_in. intros q Hq%list_elem_of_In. unfold marks.
    rewrite markAt_dataAt, markAt_other; [done|]. by intros ->. }
  destruct (marks test w a); simpl; by rewrite <- ?app_assoc, ?app_nil_r.
Qed.

Lemma markEach_countTiles (test' : TileData → TileState → bool) l w :
  wfBoard (board w) →
  (∀ d s, test d s = true → test' d (upd s) = test' d s) →
  countTiles test' (board (markEach test upd l w)) = countTiles test' (board w).
Proof.
  intros Hwf Hkeep. revert w Hwf.
  induction l as [|a l IH]; intros w Hwf; [done|].
  change (markEach test upd (a :: l) w)
    with (markEach test upd l (markAt test upd a w)).
  rewrite IH by by apply markAt_frame.
  unfold markAt.
  destruct (dataAt w a) as [d|] eqn:Hd, (tileAt w a) as [s|] eqn:Hs; try done.
  destruct (test d s) eqn:Ht; [|done].
  unfold countTiles. simpl.
  pose proof (getOrNull_inBounds _ _ _ Hs) as Hin.
  rewrite array_setAt by done.
  unfold dataAt in Hd. rewrite getOrNull_lookup in Hd by by eapply getOrNull_inBounds.
  unfold tileAt in Hs. rewrite getOrNull_lookup in Hs by done.
  destruct Hwf as (_ & _ & Hw & _). rewrite <- Hw in Hd.
  pose proof (count2_insert test' _ _ _ _ _ (upd s) Hd Hs) as Hc.
  rewrite (Hkeep d s Ht) in Hc. lia.
Qed.

End MarkEach.

Lemma forEach_markEach test upd (body : Point → M unit) l w :
  wfBoard (board w) → (∀ p, p ∈ l → inBounds w p) →
  (∀ p w0, wfBoard (board w0) → inBounds w0 p →
     body p w0 = (Return tt, markAt test upd p w0)) →
  forEach l body w = (Return tt, markEach test upd l w).
Proof.
  intros Hwf Hl Hbody. revert w Hwf Hl.
  induction l as [|a l IH]; intros w Hwf Hl; [done|].
  simpl. rewrite (bind_Return _ _ _ tt (markAt test upd a w)).
  - apply IH; [by apply markAt_frame|].
    intros p Hp. unfold inBounds.
    rewrite (proj1 (proj2 (markAt_frame test upd a w))). apply Hl. by right.
  - apply Hbody; [done|]. apply Hl. by left.
Qed.

Lemma checkWin_run w :
  wfBoard (board w) →
  checkWin w =
  if tilesLeftToOpenToWin (board w) <? 0
  then (Throw (AssertionError "This number should never be negative"), w)
  else if tilesLeftToOpenToWin (board w) =? 0
  then (Return tt,
        ended won (markEach isUnflaggedBomb flagged
                     (points (tileData (board w))) w))
  else (Return tt, w).
Proof.
  intros Hwf. unfold checkWin. rewrite bind_run. simpl.
  rewrite bind_run. unfold lift, assert.
  destruct (tilesLeftToOpenToWin (board w) <? 0) eqn:Hneg.
  { apply Z.ltb_lt in Hneg. by rewrite (proj2 (Z.leb_gt _ _) Hneg). }
  apply Z.ltb_ge in Hneg. rewrite (proj2 (Z.leb_le _ _) Hneg).
  destruct (tilesLeftToOpenToWin (board w) =? 0); simpl; [|done].
  rewrite bind_run. simpl.
  rewrite (bind_Return _ _ _ tt
    (markEach isUnflaggedBomb flagged (points (tileData (board w))) w)).
  { unfold setBoardState. by rewrite !bind_run. }
  apply forEach_markEach; [done|by intros p Hp%elem_of_points|].
  intros p w0 Hwf0 Hp.
  destruct (dataAt_is_Some w0 p Hwf0 Hp) as [d Hd].
  destruct (tileAt_is_Some w0 p Hwf0 Hp) as [s Hs].
  rewrite bind_run, getTileData_run, Hd. unfold markAt. rewrite Hd, Hs.
  unfold isUnflaggedBomb. destruct (isBomb d); simpl; [|done].
  rewrite bind_run, getTileState_run, Hs.
  destruct (isFlag (state s)); simpl; [done|]. by rewrite bind_run.
Qed.

Lemma handleLose_run w :
  wfBoard (board w) →
  handleLose w =
  (Return tt,
   ended lost (markEach shouldReveal revealed (points (tileData (board w))) w)).
Proof.
  intros Hwf. unfold handleLose. rewrite bind_run. simpl.
  rewrite (bind_Return _ _ _ tt
    (markEach shouldReveal revealed (points (tileData (board w))) w)).
  { unfold setBoardState. by rewrite !bind_run. }
  apply forEach_markEach; [done|by intros p Hp%elem_of_points|].
  intros p w0 Hwf0 Hp.
  destruct (dataAt_is_Some w0 p Hwf0 Hp) as [d Hd].
  destruct (tileAt_is_Some w0 p Hwf0 Hp) as [s Hs].
  rewrite bind_run, getTileData_run, Hd.
  rewrite bind_run, getTileState_run, Hs. unfold markAt. rewrite Hd, Hs.
  destruct (shouldReveal d s); simpl; [|done]. by rewrite bind_run.
Qed.

(** ** The helpers of [openNeighbors] *)

Lemma setTileOpen_cascade w p wc :
  wfBoard (board w) → inBounds w p →
  ∃ w' ps,
    setTileOpen p wc w = (Return tt, w') ∧
    cascade w w' ps ∧
    (∀ q, q ∈ ps → q = p ∨ nextToZero (tileData (board w)) q) ∧
    (∀ s, tileAt w p = Some s →
       if isOpen s then w' = warned (WarnAlreadyOpen p) w ∧ ps = []
       else if isFlag (state s)
       then w' = warned (WarnNotDefault flag p) w ∧ ps = []
       else tileAt w' p = Some (mkTileState default true wc) ∧
            ∃ ps', ps = p :: ps' ∧
                   (dataAt w p ≠ Some (EmptyTile 0) →
                    ps' = [] ∧ w' = openedAt p wc w)).
Proof.
  intros Hwf Hp.
  change (setTileOpen p wc w)
    with (setTileOpen_fuel (enoughFuel (board w)) p wc w).
  apply setTileOpen_fuel_cascade; [done..|].
  unfold enoughFuel, closedDefault, countTiles.
  pose proof (count2_le_length (λ _ s, isClosedNoFlag s)
    (array (tileData (board w))) (array (tileState (board w)))). lia.
Qed.

Lemma filterA_run (test : TileState → bool) l w :
  (∀ q, q ∈ l → is_Some (tileAt w q)) →
  filterA l (λ q, let* s := getTileState q in ret (test s)) w
  = (Return (List.filter (holds test w) l), w).
Proof.
  induction l as [|a l IH]; intros Hl; [done|].
  destruct (Hl a) as [s Hs]; [left|].
  cbn [filterA List.filter].
  rewrite (bind_Return _ _ _ (test s) w)
    by (by rewrite bind_run, getTileState_run, Hs).
  rewrite (bind_Return _ _ _ _ w (IH (λ q Hq, Hl q (list_elem_of_further _ _ _ Hq)))).
  unfold ret, holds. by rewrite Hs.
Qed.

Lemma anyOf_run l w :
  (∀ q, q ∈ l → is_Some (dataAt w q)) →
  anyOf l (λ q, let* d := getTileData q in ret (isBomb d)) w
  = (Return (existsb (isBombAt (tileData (board w))) l), w).
Proof.
  induction l as [|a l IH]; intros Hl; [done|].
  destruct (Hl a) as [d Hd]; [left|].
  cbn [anyOf existsb].
  rewrite (bind_Return _ _ _ (isBomb d) w)
    by (by rewrite bind_run, getTileData_run, Hd).
  unfold isBombAt at 1. fold (dataAt w a). rewrite Hd.
  destruct d; simpl; [|done]. apply IH. intros q Hq. apply Hl. by right.
Qed.

Lemma filter_pigeonhole {A} (f g : A → bool) (l : list A) :
  length (List.filter f l) = length (List.filter g l) →
  (∃ a, a ∈ l ∧ g a = true ∧ f a = false) →
  ∃ b, b ∈ l ∧ f b = true ∧ g b = false.
Proof.
  assert (∀ k : list A, (∀ b, b ∈ k → f b = true → g b = true) →
    (length (List.filter f k) ≤ length (List.filter g k))%nat ∧
    ((∃ a, a ∈ k ∧ g a = true ∧ f a = false) →
     (length (List.filter f k) < length (List.filter g k))%nat)) as Hmono.
  { induction k as [|c k IH]; intros Himp.
    { split; [done|]. by intros (a & ?%elem_of_nil & _). }
    destruct IH as [IHle IHlt]. { intros b Hb. apply Himp. by right. }
    simpl. destruct (f c) eqn:Hfc.
    - rewrite (Himp c) by (done || left). simpl. split; [lia|].
      intros (a & [->|Ha]%elem_of_cons & Hg & Hf); [congruence|].
      assert (length (List.filter f k) < length (List.filter g k))%nat
        by (apply IHlt; eauto). lia.
    - destruct (g c) eqn:Hgc; simpl; [split; intros; lia|]. split; [done|].
      intros (a & [->|Ha]%elem_of_cons & Hg & Hf); [congruence|].
      apply IHlt. eauto. }
  intros Hlen Hex.
  destruct (existsb (λ b, f b && negb (g b)) l) eqn:Hsearch.
  - apply existsb_exists in Hsearch as (b & Hb%list_elem_of_In & Hfg).
    apply andb_true_iff in Hfg as [Hf Hg%negb_true_iff]. eauto.
  - destruct (Hmono l) as [_ Hlt]; [|specialize (Hlt Hex); lia].
    intros b Hb Hf. destruct (g b) eqn:Hg; [done|].
    assert (existsb (λ b, f b && negb (g b)) l = true) as Hyes; [|congruence].
    apply existsb_exists. exists b. split; [by apply list_elem_of_In|].
    by rewrite Hf, Hg.
Qed.

Lemma nextToZero_not_bomb g q :
  dataOk g → nextToZero g q → isBombAt g q = false.
Proof.
  intros Hok (z & Hz & Hq). specialize (Hok z 0%nat Hz).
  destruct (isBombAt g q) eqn:Hb; [|done].
  assert (q ∈ List.filter (isBombAt g) (eightWayNeighbors z)) as Hin.
  { apply list_elem_of_In, filter_In. split; [by apply list_elem_of_In|done]. }
  symmetry in Hok. apply length_zero_iff_nil in Hok. rewrite Hok in Hin.
  by apply elem_of_nil in Hin.
Qed.

Lemma openAll_cascade l w :
  wfBoard (board w) → (∀ a, a ∈ l → inBounds w a) →
  ∃ w' ps,
    forEach l (λ q, setTileOpen q true) w = (Return tt, w') ∧
    cascade w w' ps ∧
    (∀ q, q ∈ ps → q ∈ l ∨ nextToZero (tileData (board w)) q) ∧
    (∀ a, a ∈ l → holds isClosedNoFlag w a = true → a ∈ ps).
Proof.
  revert w. induction l as [|a l IH]; intros w Hwf Hl.
  { exists w, []. split_and!; [done|by apply cascade_same|..].
    - by intros q ?%elem_of_nil.
    - by intros a ?%elem_of_nil. }
  destruct (setTileOpen_cascade w a true Hwf) as (w1 & ps1 & Hrun1 & Hc1 & Hz1 & Hhead);
    [apply Hl; left|].
  destruct (IH w1) as (w2 & ps2 & Hrun2 & Hc2 & Hz2 & Hall).
  { by eapply cascade_wfBoard. }
  { intros a' Ha'. apply (cascade_inBounds _ _ _ _ Hc1), Hl. by right. }
  exists w2, (ps1 ++ ps2). split_and!.
  - cbn [forEach]. by rewrite (bind_Return _ _ _ _ _ Hrun1).
  - by eapply cascade_trans.
  - intros q [Hq|Hq]%elem_of_app.
    + destruct (Hz1 q Hq) as [->|?]; [left; left|by right].
    + rewrite (c_tileData _ _ _ Hc1) in Hz2.
      destruct (Hz2 q Hq) as [?|?]; [left; by right|by right].
  - intros a' Ha' Hclosed. apply elem_of_app.
    destruct (decide (a' ∈ ps1)) as [|Hnot]; [by left|right].
    unfold holds in Hclosed.
    destruct (tileAt w a') as [s|] eqn:Hs; [|done].
    apply andb_true_iff in Hclosed as [Ho%negb_true_iff Hf%negb_true_iff].
    apply elem_of_cons in Ha' as [->|Ha'].
    + specialize (Hhead s Hs). rewrite Ho, Hf in Hhead.
      destruct Hhead as (_ & ps' & -> & _). exfalso. apply Hnot. left.
    + apply Hall; [done|]. unfold holds.
      rewrite (c_others _ _ _ Hc1 a' Hnot), Hs. unfold isClosedNoFlag.
      by rewrite Ho, Hf.
Qed.

Lemma neighborsIn_inBounds w p q : q ∈ neighborsIn w p → inBounds w q.
Proof. by intros (_ & ?)%list_elem_of_In%filter_In. Qed.

Lemma getTileState_Some p w s :
  tileAt w p = Some s → getTileState p w = (Return s, w).
Proof. intros H. by rewrite getTileState_run, H. Qed.

Lemma getTileData_Some p w d :
  dataAt w p = Some d → getTileData p w = (Return d, w).
Proof. intros H. by rewrite getTileData_run, H. Qed.

Ltac run_get :=
  first
    [ erewrite (bind_Return (getTileState _))
        by (apply getTileState_Some; eassumption)
    | erewrite (bind_Return (getTileData _))
        by (apply getTileData_Some; eassumption)
    | erewrite (bind_Return (gets _)) by reflexivity ];
  cbv beta iota.

Lemma openNeighbors_run w p s k :
  wfBoard (board w) →
  tileAt w p = Some s → isOpen s = true → dataAt w p = Some (EmptyTile k) →
  openNeighbors p w =
  if (length (flagNeighbors w p) =? k)%nat
  then (forEach (neighborsToOpen w p) (λ q, setTileOpen q true) >>
        let* lose :=
          anyOf (neighborsToOpen w p) (λ q,
            let* d := getTileData q in ret (isBomb d)) in
        if lose then handleLose else checkWin) w
  else (Return tt, w).
Proof.
  intros Hwf Hs Ho Hd. unfold openNeighbors.
  run_get. rewrite Ho. cbn [negb]. run_get. run_get.
  fold (neighborsIn w p).
  assert (∀ q, q ∈ neighborsIn w p → is_Some (tileAt w q)) as Hn.
  { intros q Hq. apply tileAt_is_Some; [done|]. by eapply neighborsIn_inBounds. }
  erewrite bind_Return by (by apply (filterA_run isClosedFlag)).
  fold (flagNeighbors w p).
  destruct (length (flagNeighbors w p) =? k)%nat; cbn [negb]; [|done].
  erewrite bind_Return by (by apply (filterA_run isClosedNoFlag)).
  done.
Qed.

(** ** The invariant *)

Lemma Inv_ext w w' : board w' = board w → Inv w → Inv w'.
Proof.
  intros Hb [H1 H2 H3 H4 H5 H6 H7 H8 H9].
  split; unfold running, tileAt, inBounds in *; by rewrite Hb.
Qed.

Lemma activated_tileState w :
  tileState (board (activated w)) = tileState (board w).
Proof. unfold activated. by case_bool_decide. Qed.

Lemma activated_tileData w :
  tileData (board (activated w)) = tileData (board w).
Proof. unfold activated. by case_bool_decide. Qed.

Lemma activated_tilesLeft w :
  tilesLeftToOpenToWin (board (activated w)) = tilesLeftToOpenToWin (board w).
Proof. unfold activated. by case_bool_decide. Qed.

Lemma activated_bombCount w :
  bombCount (board (activated w)) = bombCount (board w).
Proof. unfold activated. by case_bool_decide. Qed.

Lemma activated_tileAt w p : tileAt (activated w) p = tileAt w p.
Proof. unfold tileAt. by rewrite activated_tileState. Qed.

Lemma activated_dataAt w p : dataAt (activated w) p = dataAt w p.
Proof. unfold dataAt. by rewrite activated_tileData. Qed.



Lemma activated_state w :
  running w → boardState (board (activated w)) = active.
Proof.
  intros Hr. unfold activated. case_bool_decide; [done|].
  by destruct Hr.
Qed.

Lemma activated_idle w : ¬ running w → activated w = w.
Proof.
  intros Hr. unfold activated. case_bool_decide; [|done].
  destruct Hr. by left.
Qed.

Lemma activated_countTiles test w :
  countTiles test (board (activated w)) = countTiles test (board w).
Proof. unfold countTiles. by rewrite activated_tileState, activated_tileData. Qed.

Lemma activated_wfBoard w : wfBoard (board (activated w)) ↔ wfBoard (board w).
Proof. unfold wfBoard. by rewrite activated_tileState, activated_tileData. Qed.

Lemma Inv_activated w : Inv w → Inv (activated w).
Proof.
  intros [H1 H2 H3 H4 H5 H6 H7 H8 H9].
  destruct (decide (running w)) as [Hr|Hr]; [|by rewrite activated_idle].
  pose proof (activated_state w Hr) as Hs.
  split; unfold inBounds, closedEmpty;
    rewrite ?activated_wfBoard, ?activated_tileData, ?activated_tilesLeft,
      ?activated_bombCount, ?activated_countTiles; try done.
  - intros _. apply H5. by destruct Hr as [-> | ->].
  - by rewrite Hs.
  - intros _ q s. rewrite activated_tileAt. by apply H7.
  - intros _. by apply H8.
  - by rewrite Hs.
Qed.

Lemma cascade_left w0 w1 ps :
  cascade w0 w1 ps →
  tilesLeftToOpenToWin (board w0) = Z.of_nat (closedEmpty (board w0)) →
  tilesLeftToOpenToWin (board w1) = Z.of_nat (closedEmpty (board w1)).
Proof.
  intros Hc Hl. pose proof (c_closedEmpty _ _ _ Hc).
  rewrite (c_left _ _ _ Hc), Hl. lia.
Qed.

Lemma finish_run w1 ps :
  wfBoard (board w1) → 0 ≤ tilesLeftToOpenToWin (board w1) →
  (if existsb (isBombAt (tileData (board w1))) ps then handleLose else checkWin)
    w1
  = (Return tt, finish w1 ps).
Proof.
  intros Hwf Hl. unfold finish.
  destruct (existsb _ ps); [by apply handleLose_run|].
  rewrite checkWin_run by done.
  rewrite (proj2 (Z.ltb_ge _ _) Hl).
  by destruct (tilesLeftToOpenToWin (board w1) =? 0).
Qed.

Lemma flagNeighbors_activated w p :
  flagNeighbors (activated w) p = flagNeighbors w p.
Proof.
  unfold flagNeighbors, neighborsIn, holds, tileAt.
  by rewrite activated_tileData, activated_tileState.
Qed.

Lemma neighborsToOpen_activated w p :
  neighborsToOpen (activated w) p = neighborsToOpen w p.
Proof.
  unfold neighborsToOpen, neighborsIn, holds, tileAt.
  by rewrite activated_tileData, activated_tileState.
Qed.

Lemma elem_of_neighborsToOpen w p q :
  q ∈ neighborsToOpen w p ↔
  q ∈ eightWayNeighbors p ∧ inBounds w q ∧ holds isClosedNoFlag w q = true.
Proof.
  unfold neighborsToOpen, neighborsIn.
  rewrite list_elem_of_In, !filter_In, <- list_elem_of_In. unfold inBounds. tauto.
Qed.

Lemma existsb_bomb_false g (ps : list Point) :
  existsb (isBombAt g) ps = false ↔ ∀ q, q ∈ ps → isBombAt g q = false.
Proof.
  split.
  - intros Hex q Hq. destruct (isBombAt g q) eqn:Hb; [|done].
    rewrite <- Hex. symmetry. apply existsb_exists. exists q.
    by rewrite <- list_elem_of_In.
  - intros Hall. destruct (existsb (isBombAt g) ps) eqn:Hex; [|done].
    apply existsb_exists in Hex as (q & Hq%list_elem_of_In & Hb).
    by rewrite (Hall q Hq) in Hb.
Qed.

Lemma openTile_run w p s :
  tileAt w p = Some s →
  openTile p w =
  if isFlag (state s)
  then (Return tt, warned WarnOpenTileNotDefault w)
  else (setTileOpen p true >>
        let* d := getTileData p in
        if isBomb d then handleLose else checkWin) w.
Proof. intros Hs. unfold openTile. run_get. by destruct (isFlag (state s)). Qed.

Lemma isBombAt_dataAt w p d :
  dataAt w p = Some d → isBombAt (tileData (board w)) p = isBomb d.
Proof. unfold isBombAt. fold (dataAt w p). intros ->. by destruct d. Qed.

Lemma clickTile_outcome w p :
  Inv w → clickOutcome w p (clickTile p w).1 (clickTile p w).2.
Proof.
  intros HI. pose proof (Inv_activated w HI) as HI0. rewrite clickTile_run.
  destruct (decide (running w)) as [Hr|Hr]; cycle 1.
  { rewrite (activated_idle w Hr), bool_decide_eq_false_2.
    - by apply click_over.
    - intros Hs. apply Hr. by right. }
  rewrite (activated_state w Hr), bool_decide_eq_true_2 by done.
  pose proof (inv_wf _ HI0) as Hwf0.
  assert (tilesLeftToOpenToWin (board (activated w))
          = Z.of_nat (closedEmpty (board (activated w)))) as Hleft0.
  { apply (inv_left _ HI0). by rewrite (activated_state w Hr). }
  destruct (isInBounds (tileData (board w)) p) eqn:Hin; cycle 1.
  { assert (tileAt (activated w) p = None) as Hnone.
    { destruct (tileAt (activated w) p) eqn:Hs; [|done].
      apply (tileAt_inBounds _ _ _ Hwf0) in Hs. unfold inBounds in Hs.
      rewrite activated_tileData in Hs. congruence. }
    rewrite bind_run, getTileState_run, Hnone. simpl.
    apply click_outside; [done|]. unfold inBounds. by rewrite Hin. }
  assert (inBounds (activated w) p) as Hin0.
  { unfold inBounds. by rewrite activated_tileData. }
  destruct (tileAt_is_Some _ p Hwf0 Hin0) as [s Hs].
  destruct (dataAt_is_Some _ p Hwf0 Hin0) as [d Hd].
  pose proof Hs as Hs'. rewrite activated_tileAt in Hs'.
  pose proof Hd as Hd'. rewrite activated_dataAt in Hd'.
  run_get. destruct (isOpen s) eqn:Ho.
  - (* the tile is open: its neighbours *)
    assert (isBomb d = false) as Hnb.
    { rewrite <- (isBombAt_dataAt _ _ _ Hd').
      by apply (inv_no_open_bomb _ HI Hr p s). }
    destruct d as [k|]; [|done].
    rewrite (openNeighbors_run _ p s k Hwf0 Hs Ho Hd).
    rewrite flagNeighbors_activated, neighborsToOpen_activated.
    destruct (length (flagNeighbors w p) =? k)%nat eqn:Hk; cycle 1.
    { apply Nat.eqb_neq in Hk. simpl. by eapply click_chord_stay. }
    apply Nat.eqb_eq in Hk.
    destruct (openAll_cascade (neighborsToOpen w p) (activated w))
      as (w1 & ps & Hrun & Hc & Hz & Hall); [done| |].
    { intros q (_ & Hq & _)%elem_of_neighborsToOpen. unfold inBounds.
      by rewrite activated_tileData. }
    rewrite (bind_Return _ _ _ _ _ Hrun).
    pose proof (cascade_wfBoard _ _ _ Hc Hwf0) as Hwf1.
    assert (∀ q, q ∈ neighborsToOpen w p → is_Some (dataAt w1 q)) as Hdata.
    { intros q (_ & Hq & _)%elem_of_neighborsToOpen.
      apply dataAt_is_Some; [done|]. unfold inBounds.
      by rewrite (c_tileData _ _ _ Hc), activated_tileData. }
    rewrite (bind_Return _ _ _ _ _ (anyOf_run _ w1 Hdata)).
    assert (∀ q, q ∈ neighborsToOpen w p → q ∈ ps) as Hall'.
    { intros q Hq. apply Hall; [done|].
      apply elem_of_neighborsToOpen in Hq as (_ & _ & Hq).
      unfold holds in *. by rewrite activated_tileAt. }
    assert (∀ q, q ∈ ps → isBombAt (tileData (board w)) q = true →
                 q ∈ neighborsToOpen w p) as Hdirect.
    { intros q Hq Hb. destruct (Hz q Hq) as [|Hzero]; [done|].
      rewrite activated_tileData in Hzero.
      by rewrite (nextToZero_not_bomb _ _ (inv_data _ HI) Hzero) in Hb. }
    assert (existsb (isBombAt (tileData (board w1))) (neighborsToOpen w p)
            = existsb (isBombAt (tileData (board w1))) ps) as ->.
    { rewrite (c_tileData _ _ _ Hc), activated_tileData.
      destruct (existsb _ ps) eqn:Hex.
      - apply existsb_exists in Hex as (q & Hq%list_elem_of_In & Hb).
        apply existsb_exists. exists q. split; [|done].
        apply list_elem_of_In. by apply Hdirect.
      - apply existsb_bomb_false. intros q Hq.
        apply (proj1 (existsb_bomb_false _ _) Hex). by apply Hall'. }
    rewrite finish_run; [by eapply click_chord|done|].
    rewrite (cascade_left _ _ _ Hc Hleft0). lia.
  - (* the tile is closed *)
    rewrite (openTile_run _ p s Hs).
    destruct s as [m o wc]; simpl in *; subst o.
    destruct m; simpl; [|by eapply click_flagged].
    destruct (setTileOpen_cascade (activated w) p true Hwf0 Hin0)
      as (w1 & ps & Hrun & Hc & Hz & Hhead).
    destruct (Hhead _ Hs) as (Hs1 & ps' & -> & Hstop).
    rewrite (bind_Return _ _ _ _ _ Hrun).
    pose proof (cascade_wfBoard _ _ _ Hc Hwf0) as Hwf1.
    assert (dataAt w1 p = Some d) as Hd1.
    { unfold dataAt. by rewrite (c_tileData _ _ _ Hc). }
    run_get.
    assert (∀ q, q ∈ ps' → isBombAt (tileData (board w)) q = false) as Hsafe.
    { intros q Hq. destruct (Hz q) as [->|Hzero]; [by right| |].
      - pose proof (c_nodup _ _ _ Hc) as Hnd.
        apply NoDup_cons in Hnd as [Hnd _]. done.
      - rewrite activated_tileData in Hzero.
        apply (nextToZero_not_bomb _ _ (inv_data _ HI) Hzero). }
    assert (isBombAt (tileData (board w)) p = true → ps' = []) as Hone.
    { rewrite (isBombAt_dataAt _ _ _ Hd'). intros Hb.
      apply Hstop. rewrite Hd. intros [= ->]. done. }
    assert (isBomb d = existsb (isBombAt (tileData (board w1))) (p :: ps')) as ->.
    { rewrite (c_tileData _ _ _ Hc), activated_tileData. simpl.
      rewrite (isBombAt_dataAt _ _ _ Hd').
      rewrite (proj2 (existsb_bomb_false _ _) Hsafe). by rewrite orb_false_r. }
    rewrite finish_run; [by eapply click_single|done|].
    rewrite (cascade_left _ _ _ Hc Hleft0). lia.
Qed.

Lemma count2_first_only {A B} (f : A → bool) (l1 : list A) (l2 l2' : list B) :
  length l2 = length l2' →
  count2 (λ a _, f a) l1 l2 = count2 (λ a _, f a) l1 l2'.
Proof.
  revert l2 l2'. induction l1 as [|a l1 IH]; intros [|b l2] [|b' l2'] H;
    simplify_eq/=; try done.
  f_equal. by apply IH.
Qed.

Lemma isBombAt_inBounds g p : isBombAt g p = true → isInBounds g p = true.
Proof.
  unfold isBombAt. destruct (getOrNull g p) eqn:H; [|done].
  intros _. by eapply getOrNull_inBounds.
Qed.

Lemma isBombAt_true w p :
  isBombAt (tileData (board w)) p = true ↔ dataAt w p = Some BombTile.
Proof.
  unfold isBombAt. fold (dataAt w p).
  destruct (dataAt w p) as [[]|]; naive_solver.
Qed.


(** Opening tiles from an active board and then ending the call keeps the
    invariant. *)
Lemma cascade_Inv_finish w0 w1 ps :
  Inv w0 → boardState (board w0) = active → cascade w0 w1 ps →
  Inv (finish w1 ps).
Proof.
  intros HI Hact Hc.
  pose proof (cascade_wfBoard _ _ _ Hc (inv_wf _ HI)) as Hwf1.
  assert (dataOk (tileData (board w1))) as Hdata1.
  { rewrite (c_tileData _ _ _ Hc). apply HI. }
  assert (∀ w, wfBoard (board w) →
            tileData (board w) = tileData (board w1) →
            length (array (tileState (board w)))
              = length (array (tileState (board w1))) →
            bombCount (board w) = bombCount (board w1) →
            bombCount (board w)
            = Z.of_nat (countTiles (λ d _, isBomb d) (board w))) as Hbombs.
  { intros w _ Hd Hlen ->. rewrite (c_bombCount _ _ _ Hc), (inv_bombCount _ HI).
    f_equal. unfold countTiles. rewrite Hd, (c_tileData _ _ _ Hc).
    apply count2_first_only. by rewrite Hlen, (c_length _ _ _ Hc). }
  assert (tilesLeftToOpenToWin (board w1) = Z.of_nat (closedEmpty (board w1)))
    as Hleft1.
  { apply (cascade_left _ _ _ Hc), (inv_left _ HI). by rewrite Hact. }
  assert (∀ q s, tileAt w1 q = Some s → isOpen s = true →
                 isBombAt (tileData (board w1)) q = true → q ∈ ps) as Hopen.
  { intros q s Hs Ho Hb. destruct (decide (q ∈ ps)) as [|Hq]; [done|].
    rewrite (c_others _ _ _ Hc q Hq) in Hs. rewrite (c_tileData _ _ _ Hc) in Hb.
    rewrite (inv_no_open_bomb _ HI (or_intror Hact) q s Hs Ho) in Hb. done. }
  assert (∀ st w2,
    tileData (board w2) = tileData (board w1) →
    bombCount (board w2) = bombCount (board w1) →
    wfBoard (board w2) →
    bombCount (board (ended st w2))
    = Z.of_nat (countTiles (λ d _, isBomb d) (board (ended st w2)))) as Hbombs2.
  { intros st w2 Hd Hbc Hwf2. apply Hbombs; try done.
    destruct Hwf2 as (_ & (_ & _ & Hlen2) & Hw2 & Hh2).
    destruct Hwf1 as (_ & (_ & _ & Hlen1) & Hw1 & Hh1).
    simpl. rewrite Hd in *. apply Nat2Z.inj. congruence. }
  unfold finish. destruct (existsb _ ps) eqn:Hex.
  - (* lost *)
    set (w2 := markEach shouldReveal revealed (points (tileData (board w1))) w1).
    destruct (markEach_frame shouldReveal revealed
                (points (tileData (board w1))) w1)
      as (Hst & Hd & Hbc & Hl & _ & Hwf2). fold w2 in Hst, Hd, Hbc, Hl, Hwf2.
    specialize (Hwf2 Hwf1).
    split.
    + done.
    + simpl. by rewrite Hd.
    + by apply Hbombs2.
    + simpl. rewrite Hl. lia.
    + done.
    + done.
    + by intros [|].
    + by intros [|].
    + done.
  - set (pts := points (tileData (board w1))).
    destruct (tilesLeftToOpenToWin (board w1) =? 0) eqn:Hzero.
    + (* won *)
      apply Z.eqb_eq in Hzero.
      set (w2 := markEach isUnflaggedBomb flagged pts w1).
      destruct (markEach_frame isUnflaggedBomb flagged pts w1)
        as (Hst & Hd & Hbc & Hl & _ & Hwf2). fold w2 in Hst, Hd, Hbc, Hl, Hwf2.
      specialize (Hwf2 Hwf1).
      assert (closedEmpty (board w2) = closedEmpty (board w1)) as Hce.
      { by apply markEach_countTiles. }
      split.
      * done.
      * simpl. by rewrite Hd.
      * by apply Hbombs2.
      * simpl. rewrite Hl. lia.
      * intros _. simpl. rewrite Hl. change (closedEmpty _) with (closedEmpty (board w2)).
        by rewrite Hce.
      * done.
      * by intros [|].
      * by intros [|].
      * intros _. simpl. rewrite Hl, Hd. split; [done|]. intros q Hb.
        pose proof (isBombAt_inBounds _ _ Hb) as Hin.
        destruct (tileAt_is_Some w1 q Hwf1 Hin) as [s Hs].
        pose proof (proj1 (isBombAt_true w1 q) Hb) as Hdq.
        change (tileAt (ended won w2) q) with (tileAt w2 q). unfold w2.
        rewrite (markEach_here _ _ pts w1 q BombTile s Hwf1); try done;
          [|apply NoDup_points|by apply elem_of_points].
        eexists. split; [done|].
        assert (isOpen s = false) as Hclosed.
        { destruct (isOpen s) eqn:Ho; [|done].
          pose proof (Hopen q s Hs Ho Hb) as Hq.
          by rewrite (proj1 (existsb_bomb_false _ _) Hex q Hq) in Hb. }
        unfold isUnflaggedBomb. simpl.
        destruct s as [[] o c]; simpl in *; done.
    + (* still running *)
      apply Z.eqb_neq in Hzero.
      split; try done.
      * by apply Hbombs.
      * lia.
      * rewrite (c_boardState _ _ _ Hc), Hact. done.
      * intros _ q s Hs Ho. destruct (isBombAt _ q) eqn:Hb; [|done].
        pose proof (Hopen q s Hs Ho Hb) as Hq.
        by rewrite (proj1 (existsb_bomb_false _ _) Hex q Hq) in Hb.
      * rewrite (c_boardState _ _ _ Hc), Hact. done.
Qed.

Lemma clickOutcome_Inv w p o w' : Inv w → clickOutcome w p o w' → Inv w'.
Proof.
  intros HI Hout. pose proof (Inv_activated w HI) as HI0.
  destruct Hout as [Hr|Hr Hout|s Hr Hs Ho Hf|wc w1 ps Hr Hs Hc _ _ _
                    |s k Hr Hs Ho Hd Hk|s k w1 ps Hr Hs Ho Hd Hk Hc _ _];
    try done.
  - by apply (Inv_ext w).
  - by apply (Inv_ext (activated w)).
  - eapply cascade_Inv_finish; [done| |done]. by apply activated_state.
  - eapply cascade_Inv_finish; [done| |done]. by apply activated_state.
Qed.

Lemma changeTileState_eq p w :
  changeTileState p w =
  if bool_decide (boardState (board (activated w)) = active)
  then match tileAt (activated w) p with
       | None => (Throw (OutOfBoundsError p), activated w)
       | Some s =>
           (Return tt,
            if isOpen s then activated w else toggledAt p s (activated w))
       end
  else (Return tt, activated w).
Proof.
  rewrite changeTileState_run. case_bool_decide; [|done].
  rewrite bind_run, getTileState_run.
  destruct (tileAt (activated w) p) as [s|]; [|done].
  destruct (isOpen s) eqn:Ho; [done|]. rewrite bind_run. simpl.
  unfold toggledAt, toggleMark. by rewrite Ho.
Qed.

Lemma toggledAt_markAt p s d w :
  tileAt w p = Some s → dataAt w p = Some d → isOpen s = false →
  toggledAt p s w = markEach (λ _ s, negb (isOpen s)) toggleMark [p] w.
Proof.
  intros Hs Hd Ho. unfold markEach, markAt. simpl. by rewrite Hs, Hd, Ho.
Qed.

Lemma changeTileState_Inv w p : Inv w → Inv (changeTileState p w).2.
Proof.
  intros HI. pose proof (Inv_activated w HI) as HI0.
  rewrite changeTileState_eq. case_bool_decide as Hact; [|done].
  destruct (tileAt (activated w) p) as [s|] eqn:Hs; [|done]. simpl.
  destruct (isOpen s) eqn:Ho; [done|].
  pose proof (inv_wf _ HI0) as Hwf0.
  pose proof (tileAt_inBounds _ _ _ Hwf0 Hs) as Hin.
  destruct (dataAt_is_Some _ p Hwf0 Hin) as [d Hd].
  rewrite (toggledAt_markAt p s d _ Hs Hd Ho).
  set (test := λ (_ : TileData) (s : TileState), negb (isOpen s)).
  set (w2 := markEach test toggleMark [p] (activated w)).
  destruct (markEach_frame test toggleMark [p] (activated w))
    as (Hst & Hdata & Hbc & Hl & _ & Hwf2).
  fold w2 in Hst, Hdata, Hbc, Hl, Hwf2. specialize (Hwf2 Hwf0).
  assert (∀ test', (∀ d s, test' d (toggleMark s) = test' d s) →
            countTiles test' (board w2) = countTiles test' (board (activated w)))
    as Hcount.
  { intros test' Hkeep. apply markEach_countTiles; [done|]. intros; apply Hkeep. }
  split.
  - done.
  - rewrite Hdata. apply HI0.
  - rewrite Hbc, (inv_bombCount _ HI0). f_equal. symmetry. by apply Hcount.
  - rewrite Hl. apply HI0.
  - intros _. rewrite Hl, (inv_left _ HI0) by by rewrite Hact.
    f_equal. symmetry. by apply Hcount.
  - rewrite Hst, Hact. done.
  - intros _ q s' Hs' Ho'. rewrite Hdata.
    destruct (decide (q = p)) as [->|Hne].
    + unfold w2 in Hs'.
      rewrite (markEach_here _ _ [p] _ p d s Hwf0) in Hs'; try done;
        [|apply NoDup_singleton|by left].
      unfold test in Hs'. rewrite Ho in Hs'. simpl in Hs'.
      injection Hs' as <-. simpl in Ho'. congruence.
    + unfold w2 in Hs'. rewrite markEach_other in Hs'.
      * eapply (inv_no_open_bomb _ HI0); [by right|done..].
      * by intros ->%list_elem_of_singleton.
  - intros _. rewrite Hl, Hdata. unfold inBounds. rewrite Hdata.
    apply (inv_some_empty _ HI0). by right.
  - rewrite Hst, Hact. done.
Qed.

(** ** Construction *)

Lemma arrayFrom_Return {A B} (f : A → Outcome B) (R : A → B → Prop) (l : list A) :
  (∀ a, a ∈ l → ∃ b, f a = Return b ∧ R a b) →
  ∃ bs, arrayFrom f l = Return bs ∧ Forall2 R l bs.
Proof.
  induction l as [|a l IH]; intros Hl.
  { exists []. by split. }
  destruct (Hl a) as (b & Hb & HR); [left|].
  destruct IH as (bs & Hbs & HRs). { intros a' Ha'. apply Hl. by right. }
  exists (b :: bs). split; [|by constructor].
  simpl. by rewrite Hb, Hbs.
Qed.

Lemma arrayFrom_Throw {A B} (f : A → Outcome B) (l : list A) :
  (∀ a, a ∈ l → f a ≠ OutOfFuel) →
  (∃ a, a ∈ l ∧ ∃ e, f a = Throw e) →
  ∃ a e, a ∈ l ∧ f a = Throw e ∧ arrayFrom f l = Throw e.
Proof.
  induction l as [|a l IH]; intros Hfuel (a' & Ha' & e' & He').
  { by apply elem_of_nil in Ha'. }
  simpl. destruct (f a) as [b|e|] eqn:Hfa.
  - destruct IH as (a0 & e0 & Ha0 & He0 & Hrun).
    + intros a1 Ha1. apply Hfuel. by right.
    + apply elem_of_cons in Ha' as [->|Ha']; [congruence|]. eauto.
    + exists a0, e0. split_and!; [by right|done|]. simpl. by rewrite Hrun.
  - exists a, e. split_and!; [by left|done|done].
  - destruct (Hfuel a); [by left|done].
Qed.

Lemma index_point {T} (g : Grid T) (i : nat) :
  wfGrid g → (i < length (array g))%nat →
  ∃ p, isInBounds g p = true ∧ Z.to_nat (x p + width g * y p) = i.
Proof.
  intros (Hw & Hh & Hlen) Hi.
  exists (mkPoint (Z.of_nat i `mod` width g) (Z.of_nat i `div` width g)).
  pose proof (Z.mod_pos_bound (Z.of_nat i) (width g) Hw).
  pose proof (Z.div_mod (Z.of_nat i) (width g)).
  assert (0 ≤ Z.of_nat i `div` width g) by (apply Z.div_pos; lia).
  assert (Z.of_nat i `div` width g < height g).
  { apply Z.div_lt_upper_bound; lia. }
  split; [apply isInBounds_true; simpl; lia|]. simpl. lia.
Qed.

Lemma newGrid_Return {T} (width height : Z) (array : list T) :
  0 < width → 0 < height → Z.of_nat (length array) = width * height →
  newGrid width height array = Return (mkGrid width height array).
Proof.
  intros Hw Hh Hlen. unfold newGrid, assert.
  rewrite (proj2 (Z.ltb_lt _ _) Hw), (proj2 (Z.ltb_lt _ _) Hh).
  by rewrite (proj2 (Z.eqb_eq _ _) Hlen).
Qed.

Lemma mapIndexed_Return {T R} `{Nullable T} (g : Grid T)
    (transform : Point → T → R) :
  wfGrid g → (∀ v, v ∈ array g → isNull v = false) →
  ∃ newArray,
    mapIndexed g transform = Return (mkGrid (width g) (height g) newArray) ∧
    length newArray = length (array g) ∧
    (∀ p v, getOrNull g p = Some v →
            getOrNull (mkGrid (width g) (height g) newArray) p
            = Some (transform p v)) ∧
    (∀ i v, array g !! i = Some v →
            ∃ p, getOrNull g p = Some v ∧ newArray !! i = Some (transform p v)).
Proof.
  intros Hwf Hnull.
  destruct (arrayFrom_Return
    (λ point, let+ value := get g point in Return (transform point value))
    (λ p r, ∃ v, getOrNull g p = Some v ∧ r = transform p v) (points g))
    as (newArray & Hrun & Hall).
  { intros p Hp%elem_of_points.
    destruct (getOrNull_is_Some g p Hwf Hp) as [v Hv].
    exists (transform p v). unfold get. rewrite Hv.
    rewrite Hnull; [eauto|].
    rewrite getOrNull_lookup in Hv by done. by eapply list_elem_of_lookup_2. }
  assert (length newArray = length (array g)) as Hlen.
  { rewrite <- (Forall2_length _ _ _ Hall), length_points.
    destruct Hwf as (? & ? & ?). nia. }
  assert (∀ p v, getOrNull g p = Some v →
            newArray !! Z.to_nat (x p + width g * y p) = Some (transform p v))
    as Hpoint.
  { intros p v Hv. pose proof (getOrNull_inBounds _ _ _ Hv) as Hp.
    destruct (Forall2_lookup_l _ _ _ _ _ Hall (points_lookup g p Hp))
      as (r & Hr & v' & Hv' & ->). congruence. }
  exists newArray. split_and!; [|done|..].
  - unfold mapIndexed. rewrite Hrun. cbn [bindO].
    destruct Hwf as (Hw & Hh & Hsize). apply newGrid_Return; congruence.
  - intros p v Hv. pose proof (getOrNull_inBounds _ _ _ Hv) as Hp.
    rewrite getOrNull_lookup by done. simpl. by apply Hpoint.
  - intros i v Hv.
    destruct (index_point g i Hwf) as (p & Hp & <-).
    { by eapply lookup_lt_Some. }
    exists p. rewrite getOrNull_lookup by done. split; [done|].
    apply Hpoint. by rewrite getOrNull_lookup.
Qed.

Lemma count_bombs (l : list bool) (ds : list TileData) (ss : list TileState) :
  length ds = length l → length ss = length l →
  (∀ i v d, l !! i = Some v → ds !! i = Some d → isBomb d = v) →
  length (List.filter (λ isBomb, isBomb) l) = count2 (λ d _, isBomb d) ds ss.
Proof.
  revert ds ss. induction l as [|v l IH]; intros [|d ds] [|s ss] Hd Hs Hall;
    simplify_eq/=; [done|].
  rewrite (Hall 0%nat v d) by done.
  rewrite <- (IH ds ss); try done.
  - by destruct v.
  - intros i v' d' ??. by apply (Hall (S i)).
Qed.

(** The tile data that the constructor derives from the bomb layout. *)
Lemma newBoard_spec width height bombsArray :
  0 < width → 0 < height → Z.of_nat (length bombsArray) = width * height →
  ∃ dataArray,
    newBoard width height bombsArray
    = Return
        (mkBoard not_started
           (mkGrid width height dataArray)
           (mkGrid width height
              (replicate (Z.to_nat (width * height))
                 (mkTileState default false false)))
           (Z.of_nat (length (List.filter (λ isBomb, isBomb) bombsArray)))
           (width * height
            - Z.of_nat (length (List.filter (λ isBomb, isBomb) bombsArray)))) ∧
    length dataArray = length bombsArray ∧
    (∀ p v, getOrNull (mkGrid width height bombsArray) p = Some v →
       getOrNull (mkGrid width height dataArray) p
       = Some (if v then BombTile
               else EmptyTile
                      (length (List.filter
                                 (bombAt (mkGrid width height bombsArray))
                                 (eightWayNeighbors p))))) ∧
    (∀ i v, bombsArray !! i = Some v →
       ∃ d, dataArray !! i = Some d ∧ isBomb d = v).
Proof.
  intros Hw Hh Hlen.
  set (bombsGrid := mkGrid width height bombsArray).
  assert (wfGrid bombsGrid) as Hwf by done.
  destruct (mapIndexed_Return bombsGrid
    (λ point isBomb,
       if isBomb then BOMB_TILE
       else EmptyTile
              (length (List.filter (bombAt bombsGrid) (eightWayNeighbors point))))
    Hwf) as (dataArray & Hrun & Hlen' & Hpoint & Hindex); [done|].
  exists dataArray. split_and!; [|done|done|].
  - unfold newBoard.
    rewrite !newGrid_Return by (rewrite ?length_replicate; lia).
    unfold assert.
    rewrite (proj2 (Z.ltb_lt _ _) Hw), (proj2 (Z.ltb_lt _ _) Hh).
    rewrite (proj2 (Z.eqb_eq _ _) Hlen). cbn [bindO].
    fold bombsGrid. by rewrite Hrun.
  - intros i v Hv. destruct (Hindex i v Hv) as (p & _ & Hd).
    eexists. split; [done|]. by destruct v.
Qed.

Lemma newBoard_Return width height bombsArray b :
  newBoard width height bombsArray = Return b →
  0 < width ∧ 0 < height ∧ Z.of_nat (length bombsArray) = width * height.
Proof.
  unfold newBoard, assert.
  destruct (0 <? width) eqn:Hw; [|done].
  destruct (0 <? height) eqn:Hh; [|done].
  destruct (Z.of_nat (length bombsArray) =? width * height) eqn:Hlen; [|done].
  intros _. apply Z.ltb_lt in Hw, Hh. apply Z.eqb_eq in Hlen. done.
Qed.

Lemma newBoard_Inv width height bombsArray b :
  newBoard width height bombsArray = Return b → Inv (newWorld b).
Proof.
  intros Hnew. destruct (newBoard_Return _ _ _ _ Hnew) as (Hw & Hh & Hlen).
  destruct (newBoard_spec width height bombsArray Hw Hh Hlen)
    as (dataArray & Hrun & Hlen' & Hpoint & Hindex).
  rewrite Hrun in Hnew. injection Hnew as <-.
  set (bombsGrid := mkGrid width height bombsArray) in *.
  set (s0 := mkTileState default false false).
  set (states := replicate (Z.to_nat (width * height)) s0).
  assert (length states = length bombsArray) as Hlen''.
  { unfold states. rewrite length_replicate. lia. }
  assert (∀ i s, states !! i = Some s → s = s0) as Hs0.
  { intros i s Hs. by apply lookup_replicate in Hs as [-> _]. }
  assert (length (List.filter (λ isBomb, isBomb) bombsArray)
          = count2 (λ d _, isBomb d) dataArray states) as Hbombs.
  { apply count_bombs; [done..|].
    intros i v d Hv Hd. destruct (Hindex i v Hv) as (d' & Hd' & <-). congruence. }
  assert (count2 (λ d s, isEmpty d && negb (isOpen s)) dataArray states
          + count2 (λ d _, isBomb d) dataArray states = length bombsArray)%nat
    as Hsum.
  { rewrite <- Hlen'', <- (count2_true dataArray states) by congruence.
    rewrite <- (count2_split (λ _ _, true) (λ d _, isBomb d)).
    rewrite Nat.add_comm. f_equal.
    apply count2_ext. intros i d s _ Hs. rewrite (Hs0 i s Hs). by destruct d. }
  assert (wfBoard
    (mkBoard not_started (mkGrid width height dataArray)
       (mkGrid width height states)
       (Z.of_nat (length (List.filter (λ isBomb, isBomb) bombsArray)))
       (width * height
        - Z.of_nat (length (List.filter (λ isBomb, isBomb) bombsArray)))))
    as Hwf.
  { split_and!; simpl; try done; split_and!; simpl; try done; lia. }
  assert (∀ q, bombAt bombsGrid q = isBombAt (mkGrid width height dataArray) q)
    as Hsame.
  { intros q. unfold bombAt, isBombAt.
    destruct (getOrNull bombsGrid q) as [v|] eqn:Hv.
    - rewrite (Hpoint q v Hv). by destruct v.
    - rewrite getOrNull_out; [done|].
      destruct (isInBounds (mkGrid width height dataArray) q) eqn:Hin; [|done].
      destruct (getOrNull_is_Some bombsGrid q) as [? ?]; [done|done|congruence]. }
  split; simpl.
  - done.
  - intros p n Hd.
    pose proof (getOrNull_inBounds _ _ _ Hd) as Hin.
    destruct (getOrNull_is_Some bombsGrid p) as [v Hv]; [done|done|].
    rewrite (Hpoint p v Hv) in Hd. destruct v; [done|].
    rewrite <- (List.filter_ext _ _ Hsame). congruence.
  - unfold countTiles. simpl. by rewrite Hbombs.
  - lia.
  - intros _. unfold closedEmpty, countTiles. simpl. lia.
  - intros _ p s Hs. unfold tileAt in Hs. simpl in Hs.
    pose proof (getOrNull_inBounds _ _ _ Hs) as Hin.
    rewrite getOrNull_lookup in Hs by done. by apply Hs0 in Hs.
  - intros _ p s Hs Ho. unfold tileAt in Hs. simpl in Hs.
    pose proof (getOrNull_inBounds _ _ _ Hs) as Hin.
    rewrite getOrNull_lookup in Hs by done. apply Hs0 in Hs. by subst s.
  - intros _ Hzero p Hin. unfold inBounds in Hin. simpl in Hin.
    destruct (getOrNull_is_Some (mkGrid width height dataArray) p) as [d Hd];
      [apply Hwf|done|].
    unfold isBombAt. rewrite Hd.
    destruct (getOrNull_is_Some (mkGrid width height states) p) as [s Hs];
      [apply Hwf|done|].
    rewrite getOrNull_lookup in Hd by done.
    rewrite getOrNull_lookup in Hs by done. simpl in Hd, Hs.
    assert (count2 (λ d s, isEmpty d && negb (isOpen s)) dataArray states
            = 0%nat) as Hnone by lia.
    pose proof (count2_zero _ _ _ _ _ _ Hnone Hd Hs) as Hp.
    rewrite (Hs0 _ _ Hs) in Hp. destruct d; simpl in *; done.
  - done.
Qed.

Theorem reachable_Inv w : reachable w → Inv w.
Proof.
  induction 1 as [width height bombsArray b Hnew|w p _ IH|w p _ IH].
  - by eapply newBoard_Inv.
  - eapply clickOutcome_Inv; [done|]. by apply clickTile_outcome.
  - by apply changeTileState_Inv.
Qed.

(** ** Example boards *)

Lemma board2x1_new : newBoard 2 1 [true; false] = Return board2x1.
Proof. reflexivity. Qed.

Lemma board3x3_new :
  newBoard 3 3 [false; false; false; false; true; false; false; false; false]
  = Return board3x3.
Proof. reflexivity. Qed.

Lemma board1x1_new : newBoard 1 1 [true] = Return board1x1.
Proof. reflexivity. Qed.

Lemma board2x1_reachable : reachable (newWorld board2x1).
Proof. eapply reach_new, board2x1_new. Qed.

Lemma board3x3_reachable : reachable (newWorld board3x3).
Proof. eapply reach_new, board3x3_new. Qed.

Lemma board1x1_reachable : reachable (newWorld board1x1).
Proof. eapply reach_new, board1x1_new. Qed.

Lemma cornerBoard_new : newBoard 3 3 cornerBombs = Return cornerBoard.
Proof. reflexivity. Qed.

Lemma cornerBoard_reachable : reachable (newWorld cornerBoard).
Proof. eapply reach_new, cornerBoard_new. Qed.

(** * The behaviour of the game *)

(** ** Terminal states *)

Lemma terminal_states_are_final_witness :
  let w := (clickTile (mkPoint 0 0) (newWorld board2x1)).2 in
  (boardState (board w) = won ∨ boardState (board w) = lost) ∧
  clickTile (mkPoint 1 0) w = (Return tt, warned WarnNotActive w) ∧
  changeTileState (mkPoint 1 0) w = (Return tt, w).
Proof.
  intros w.
  assert (boardState (board w) = won ∨ boardState (board w) = lost) as H
    by (right; reflexivity).
  split; [exact H|]. exact (terminal_states_are_final w (mkPoint 1 0) H).
Defined.

(** ** Toggling a flag *)

Lemma getOrNull_setAt_same {T} (g : Grid T) p v0 v :
  getOrNull g p = Some v0 → getOrNull (setAt g p v) p = Some v.
Proof.
  intros Hv. pose proof (getOrNull_inBounds _ _ _ Hv) as Hp.
  rewrite getOrNull_lookup in Hv by done.
  rewrite getOrNull_lookup by by rewrite isInBounds_setAt.
  rewrite width_setAt, array_setAt by done.
  apply list_lookup_insert_eq. by eapply lookup_lt_Some.
Qed.

(** C9: [changeTileState] on a point of a board that is [active], or
    [not_started] and then first made active.  On an open tile nothing else
    happens.  On a closed tile the mark flips: a tile that was [default] is
    [flag] afterwards, and a tile that was [flag] is [default].  The tile
    stays closed, no other tile and no counter changes, and exactly one
    signal is emitted, [TileChanged] for that point. *)
Theorem changeTileState_toggles w p :
  wfBoard (board w) → inBounds w p → running w →
  ∃ s, tileAt w p = Some s ∧
    if isOpen s
    then changeTileState p w = (Return tt, activated w)
    else ∃ w',
      changeTileState p w = (Return tt, w') ∧
      tileAt w' p
        = Some (mkTileState
                  (match state s with default => flag | flag => default end)
                  false (wasClicked s)) ∧
      (∀ q, q ≠ p → tileAt w' q = tileAt w q) ∧
      emitted w' = emitted (activated w) ++ [TileChanged p] ∧
      boardState (board w') = active ∧
      tileData (board w') = tileData (board w) ∧
      bombCount (board w') = bombCount (board w) ∧
      tilesLeftToOpenToWin (board w') = tilesLeftToOpenToWin (board w).
Proof.
  intros Hwf Hp Hr. destruct (tileAt_is_Some w p Hwf Hp) as [s Hs].
  exists s. split; [done|].
  rewrite changeTileState_eq, (activated_state w Hr), bool_decide_eq_true_2,
    activated_tileAt, Hs by done.
  destruct (isOpen s) eqn:Ho; [done|].
  exists (toggledAt p s (activated w)). split_and!; try done.
  - unfold tileAt, toggledAt, toggleMark. simpl. rewrite Ho.
    rewrite (getOrNull_setAt_same _ _ s) by by rewrite activated_tileState.
    by destruct (state s).
  - intros q Hq. unfold tileAt, toggledAt. simpl.
    rewrite getOrNull_setAt_ne by done. by rewrite activated_tileState.
  - apply (activated_state w Hr).
  - apply activated_tileData.
  - apply activated_bombCount.
  - apply activated_tilesLeft.
Qed.

Lemma changeTileState_toggles_witness :
  let w := newWorld board3x3 in
  let p := mkPoint 1 1 in
  wfBoard (board w) ∧ inBounds w p ∧ running w ∧
  (∃ s, tileAt w p = Some s ∧
    if isOpen s
    then changeTileState p w = (Return tt, activated w)
    else ∃ w',
      changeTileState p w = (Return tt, w') ∧
      tileAt w' p
        = Some (mkTileState
                  (match state s with default => flag | flag => default end)
                  false (wasClicked s)) ∧
      (∀ q, q ≠ p → tileAt w' q = tileAt w q) ∧
      emitted w' = emitted (activated w) ++ [TileChanged p] ∧
      boardState (board w') = active ∧
      tileData (board w') = tileData (board w) ∧
      bombCount (board w') = bombCount (board w) ∧
      tilesLeftToOpenToWin (board w') = tilesLeftToOpenToWin (board w)) ∧
  tileAt (changeTileState p w).2 p = Some (mkTileState flag false false) ∧
  tileAt (changeTileState p (changeTileState p w).2).2 p
  = Some (mkTileState default false false).
Proof.
  intros w p.
  assert (wfBoard (board w)) as Hwf by (vm_compute; intuition congruence).
  assert (inBounds w p) as Hp by reflexivity.
  assert (running w) as Hr by (left; reflexivity).
  split_and!; [exact Hwf|exact Hp|exact Hr| |reflexivity|reflexivity].
  exact (changeTileState_toggles w p Hwf Hp Hr).
Defined.

(** ** The loss *)

Lemma shouldReveal_eq d s : shouldReveal d s = revealedByLoss d s.
Proof.
  unfold shouldReveal, revealedByLoss.
  by destruct (isBomb d), (isEmpty d), (isFlag (state s)).
Qed.

Lemma marks_ext test test' w p :
  (∀ d s, test d s = test' d s) → marks test w p = marks test' w p.
Proof.
  intros H. unfold marks. by destruct (dataAt w p), (tileAt w p).
Qed.

(** C4: the loss.  [handleLose] opens exactly the tiles that are a bomb
    without a flag or an empty tile with a flag, and emits [TileChanged]
    for each of them in the order of [points], whether or not the tile was
    open already; every other tile, the tile data and the counters stay as
    they are; then the board state is [lost] and [BoardStateChanged lost]
    is emitted.  A click on a closed, unflagged bomb of a running board
    opens that tile as clicked and then runs exactly this. *)
Theorem handleLose_reveals w :
  wfBoard (board w) →
  (∃ w',
     handleLose w = (Return tt, w') ∧
     boardState (board w') = lost ∧
     (∀ p d s, dataAt w p = Some d → tileAt w p = Some s →
        tileAt w' p
        = Some (if revealedByLoss d s
                then mkTileState (state s) true (wasClicked s)
                else s)) ∧
     emitted w'
     = emitted w
       ++ (TileChanged <$>
             List.filter (marks revealedByLoss w) (points (tileData (board w))))
       ++ [BoardStateChanged lost] ∧
     tileData (board w') = tileData (board w) ∧
     bombCount (board w') = bombCount (board w) ∧
     tilesLeftToOpenToWin (board w') = tilesLeftToOpenToWin (board w)) ∧
  (∀ p wc,
     running w → tileAt w p = Some (mkTileState default false wc) →
     dataAt w p = Some BombTile →
     clickTile p w = handleLose (openedAt p true (activated w))).
Proof.
  intros Hwf. split.
  - set (pts := points (tileData (board w))).
    exists (ended lost (markEach shouldReveal revealed pts w)).
    destruct (markEach_frame shouldReveal revealed pts w)
      as (Hst & Hd & Hbc & Hl & _ & _).
    split_and!; try done.
    + by apply handleLose_run.
    + intros p d s Hpd Hps.
      change (tileAt (ended lost (markEach shouldReveal revealed pts w)) p)
        with (tileAt (markEach shouldReveal revealed pts w) p).
      rewrite (markEach_here _ _ pts w p d s Hwf); try done.
      * by rewrite shouldReveal_eq.
      * apply NoDup_points.
      * apply elem_of_points. by eapply getOrNull_inBounds.
    + simpl. rewrite markEach_emitted by apply NoDup_points.
      rewrite <- app_assoc. do 3 f_equal.
      apply List.filter_ext. intros p. apply marks_ext, shouldReveal_eq.
  - intros p wc Hr Hs Hd.
    rewrite clickTile_run, (activated_state w Hr), bool_decide_eq_true_2 by done.
    rewrite <- (activated_tileAt w p) in Hs.
    rewrite <- (activated_dataAt w p) in Hd.
    run_get. simpl. rewrite (openTile_run _ p _ Hs). simpl.
    rewrite (bind_Return _ _ _ tt (openedAt p true (activated w))).
    + assert (dataAt (openedAt p true (activated w)) p = Some BombTile) as Hd1.
      { unfold openedAt, dataAt, isEmptyAt. fold (dataAt (activated w) p).
        by rewrite Hd. }
      by run_get.
    + change (setTileOpen p true (activated w))
        with (setTileOpen_fuel (enoughFuel (board (activated w))) p true
                (activated w)).
      unfold enoughFuel.
      by rewrite (setTileOpen_fuel_closed _ p true _ wc BombTile Hs Hd).
Qed.

Lemma handleLose_reveals_witness :
  let w := newWorld board3x3 in
  wfBoard (board w) ∧
  (∃ w',
     handleLose w = (Return tt, w') ∧
     boardState (board w') = lost ∧
     (∀ p d s, dataAt w p = Some d → tileAt w p = Some s →
        tileAt w' p
        = Some (if revealedByLoss d s
                then mkTileState (state s) true (wasClicked s)
                else s)) ∧
     emitted w'
     = emitted w
       ++ (TileChanged <$>
             List.filter (marks revealedByLoss w) (points (tileData (board w))))
       ++ [BoardStateChanged lost] ∧
     tileData (board w') = tileData (board w) ∧
     bombCount (board w') = bombCount (board w) ∧
     tilesLeftToOpenToWin (board w') = tilesLeftToOpenToWin (board w)) ∧
  (∀ p wc,
     running w → tileAt w p = Some (mkTileState default false wc) →
     dataAt w p = Some BombTile →
     clickTile p w = handleLose (openedAt p true (activated w))).
Proof.
  intros w.
  assert (wfBoard (board w)) as Hwf by (vm_compute; intuition congruence).
  split; [exact Hwf|]. exact (handleLose_reveals w Hwf).
Defined.

(** ** Points outside the board *)

Lemma tileAt_outside w p :
  wfBoard (board w) → ¬ inBounds w p → tileAt w p = None.
Proof.
  intros Hwf Hp. destruct (tileAt w p) eqn:Hs; [|done].
  destruct Hp. by eapply tileAt_inBounds.
Qed.

(** C1, as the code has it: a call with a point outside the board.  On a
    board that is [won] or [lost] the call returns and changes nothing
    ([clickTile] prints its warning).  On a board that is [not_started] or
    [active] the call makes the board active, telling the listeners if it
    was not, and then throws the out-of-bounds error of [Grid.get]; no tile
    state and no counter is changed. *)
Theorem outside_call_throws_while_running w p :
  wfBoard (board w) → ¬ inBounds w p →
  (running w →
     clickTile p w = (Throw (OutOfBoundsError p), activated w) ∧
     changeTileState p w = (Throw (OutOfBoundsError p), activated w)) ∧
  (¬ running w →
     clickTile p w = (Return tt, warned WarnNotActive w) ∧
     changeTileState p w = (Return tt, w)) ∧
  tileState (board (activated w)) = tileState (board w) ∧
  tileData (board (activated w)) = tileData (board w) ∧
  bombCount (board (activated w)) = bombCount (board w) ∧
  tilesLeftToOpenToWin (board (activated w)) = tilesLeftToOpenToWin (board w).
Proof.
  intros Hwf Hp. split_and!.
  - intros Hr.
    assert (tileAt (activated w) p = None) as Hnone.
    { rewrite activated_tileAt. by apply tileAt_outside. }
    rewrite clickTile_run, changeTileState_eq, (activated_state w Hr),
      bool_decide_eq_true_2, Hnone by done.
    by rewrite bind_run, getTileState_run, Hnone.
  - intros Hr.
    rewrite clickTile_run, changeTileState_eq, (activated_idle w Hr).
    rewrite bool_decide_eq_false_2; [done|]. intros Hs. apply Hr. by right.
  - apply activated_tileState.
  - apply activated_tileData.
  - apply activated_bombCount.
  - apply activated_tilesLeft.
Qed.

Lemma outside_call_throws_while_running_witness :
  let w := newWorld board2x1 in
  let p := mkPoint 2 0 in
  wfBoard (board w) ∧ ¬ inBounds w p ∧
  (running w →
     clickTile p w = (Throw (OutOfBoundsError p), activated w) ∧
     changeTileState p w = (Throw (OutOfBoundsError p), activated w)) ∧
  (¬ running w →
     clickTile p w = (Return tt, warned WarnNotActive w) ∧
     changeTileState p w = (Return tt, w)) ∧
  tileState (board (activated w)) = tileState (board w) ∧
  tileData (board (activated w)) = tileData (board w) ∧
  bombCount (board (activated w)) = bombCount (board w) ∧
  tilesLeftToOpenToWin (board (activated w)) = tilesLeftToOpenToWin (board w).
Proof.
  intros w p.
  assert (wfBoard (board w)) as Hwf by (vm_compute; intuition congruence).
  assert (¬ inBounds w p) as Hp by (vm_compute; congruence).
  split_and!; [exact Hwf|exact Hp|..];
    apply (outside_call_throws_while_running w p Hwf Hp).
Defined.

(** On the fresh two-tile board a click, or a flag toggle, at the point
    (2, 0) next to the board does not return: it throws, and it has made
    the board active before. *)
Lemma outside_call_is_no_noop :
  let w := newWorld board2x1 in
  let p := mkPoint 2 0 in
  wfBoard (board w) ∧ isInBounds (tileData (board w)) p = false ∧
  clickTile p w
  = (Throw (OutOfBoundsError p),
     mkWorld (withBoardState active board2x1) [BoardStateChanged active] []) ∧
  changeTileState p w
  = (Throw (OutOfBoundsError p),
     mkWorld (withBoardState active board2x1) [BoardStateChanged active] []) ∧
  ¬ (∃ w', clickTile p w = (Return tt, w') ∧ board w' = board w) ∧
  ¬ (∃ w', changeTileState p w = (Return tt, w') ∧ board w' = board w).
Proof.
  intros w p. split_and!.
  - vm_compute. intuition congruence.
  - reflexivity.
  - reflexivity.
  - reflexivity.
  - intros (w' & Hrun & _). vm_compute in Hrun. congruence.
  - intros (w' & Hrun & _). vm_compute in Hrun. congruence.
Qed.

(** ** Chord opening *)

Lemma finish_keeps_open w1 ps q s :
  wfBoard (board w1) → tileAt w1 q = Some s → isOpen s = true →
  holds isOpen (finish w1 ps) q = true.
Proof.
  intros Hwf Hs Ho. pose proof (tileAt_inBounds _ _ _ Hwf Hs) as Hin.
  destruct (dataAt_is_Some w1 q Hwf Hin) as [d Hd].
  assert (∀ test upd st,
    (∀ s0, isOpen s0 = true → isOpen (upd s0) = true) →
    holds isOpen
      (ended st (markEach test upd (points (tileData (board w1))) w1)) q
    = true) as Hmark.
  { intros test upd st Hupd. unfold holds.
    change (tileAt (ended st ?w) q) with (tileAt w q).
    rewrite (markEach_here _ _ _ w1 q d s Hwf); try done.
    - destruct (test d s); [by apply Hupd|done].
    - apply NoDup_points.
    - by apply elem_of_points. }
  unfold finish. destruct (existsb _ ps); [by apply Hmark|].
  destruct (_ =? 0); [by apply Hmark|].
  unfold holds. by rewrite Hs.
Qed.

(** C3: chord opening is all or nothing.  On an active board, a click on an
    open empty tile with [k] bomb neighbours compares [k] with the number of
    its neighbours on the board that are closed and flagged.  If the two
    differ, the call returns and the world is what it was: no tile, no
    counter, no signal.  If they are equal, the call returns and every
    neighbour on the board that was closed and not flagged is open. *)
Theorem chord_all_or_nothing w p s k :
  reachable w → boardState (board w) = active →
  tileAt w p = Some s → isOpen s = true → dataAt w p = Some (EmptyTile k) →
  (length (flagNeighbors w p) ≠ k → clickTile p w = (Return tt, w)) ∧
  (length (flagNeighbors w p) = k →
     ∃ w', clickTile p w = (Return tt, w') ∧
           ∀ q, q ∈ neighborsToOpen w p → holds isOpen w' q = true).
Proof.
  intros Hreach Hact Hs Ho Hd.
  pose proof (reachable_Inv w Hreach) as HI.
  pose proof (clickTile_outcome w p HI) as Hout.
  assert (running w) as Hr by by right.
  destruct (clickTile p w) as [o w']. simpl in Hout.
  inversion Hout as [Hr'|Hr' Hout'|s' Hr' Hs' Ho' Hf'|wc w1 ps Hr' Hs' Hc _ _ _
                     |s' k' Hr' Hs' Ho' Hd' Hk'
                     |s' k' w1 ps Hr' Hs' Ho' Hd' Hk' Hc Hall _]; subst;
    rewrite ?(activated_active w Hact) in *.
  - done.
  - destruct Hout'. by eapply tileAt_inBounds; [apply HI|].
  - congruence.
  - by simplify_eq/=.
  - split; [done|]. intros Hk. congruence.
  - split; [congruence|]. intros _. eexists. split; [done|].
    intros q Hq.
    destruct (c_opened _ _ _ Hc q (Hall q Hq)) as (wc & wc' & _ & Hq1).
    eapply finish_keeps_open; [|done|done].
    eapply cascade_wfBoard; [done|apply HI].
Qed.

(** ** Termination of the flood fill *)

Lemma below_refl {A} (m : M A) : below m m.
Proof. by intros w o w' H _. Qed.

Lemma below_bind {A B} (m m' : M A) (k k' : A → M B) :
  below m m' → (∀ a, below (k a) (k' a)) → below (bind m k) (bind m' k').
Proof.
  intros Hm Hk w o w' Hrun Ho. rewrite bind_run in *.
  destruct (m w) as [[a| |] w1] eqn:Hmw.
  - rewrite (Hm w (Return a) w1 Hmw) by done. by apply Hk.
  - rewrite (Hm w (Throw e) w1 Hmw) by done. done.
  - by simplify_eq.
Qed.

Lemma below_forEach {A} (l : list A) (body body' : A → M unit) :
  (∀ a, below (body a) (body' a)) → below (forEach l body) (forEach l body').
Proof.
  intros Hbody. induction l as [|a l IH]; [apply below_refl|].
  simpl. apply below_bind; [apply Hbody|]. by intros _.
Qed.

Lemma setTileOpen_fuel_S fuel : ∀ p wc,
  below (setTileOpen_fuel fuel p wc) (setTileOpen_fuel (S fuel) p wc).
Proof.
  induction fuel as [|fuel IH]; intros p wc.
  { intros w o w' Hrun Ho. unfold setTileOpen_fuel, outOfFuel in Hrun.
    by simplify_eq. }
  change (setTileOpen_fuel (S (S fuel)) p wc) with
    (let* tState := getTileState p in
     let* tData := getTileData p in
     if isOpen tState then warn (WarnAlreadyOpen p)
     else if isFlag (state tState)
     then warn (WarnNotDefault (state tState) p)
     else
       putTileState p (mkTileState (state tState) true wc) >>
       emit (TileChanged p) >>
       match tData with
       | BombTile => ret tt
       | EmptyTile bombNeighbors =>
           modify (λ b, withTilesLeft (tilesLeftToOpenToWin b - 1) b) >>
           if negb (bombNeighbors =? 0)%nat then ret tt
           else openAround (S fuel) p
       end).
  change (setTileOpen_fuel (S fuel) p wc) with
    (let* tState := getTileState p in
     let* tData := getTileData p in
     if isOpen tState then warn (WarnAlreadyOpen p)
     else if isFlag (state tState)
     then warn (WarnNotDefault (state tState) p)
     else
       putTileState p (mkTileState (state tState) true wc) >>
       emit (TileChanged p) >>
       match tData with
       | BombTile => ret tt
       | EmptyTile bombNeighbors =>
           modify (λ b, withTilesLeft (tilesLeftToOpenToWin b - 1) b) >>
           if negb (bombNeighbors =? 0)%nat then ret tt
           else openAround fuel p
       end).
  apply below_bind; [apply below_refl|]. intros s.
  apply below_bind; [apply below_refl|]. intros d.
  destruct (isOpen s); [apply below_refl|].
  destruct (isFlag (state s)); [apply below_refl|].
  apply below_bind; [apply below_refl|]. intros _.
  apply below_bind; [apply below_refl|]. intros _.
  destruct d as [n|]; [|apply below_refl].
  apply below_bind; [apply below_refl|]. intros _.
  destruct (negb (n =? 0)%nat); [apply below_refl|].
  apply below_forEach. intros q.
  apply below_bind; [apply below_refl|]. intros data.
  destruct (negb (isInBounds data q)); [apply below_refl|]. apply IH.
Qed.

Lemma setTileOpen_fuel_more fuel fuel' p wc :
  (fuel ≤ fuel')%nat →
  below (setTileOpen_fuel fuel p wc) (setTileOpen_fuel fuel' p wc).
Proof.
  induction 1 as [|fuel' _ IH]; [apply below_refl|].
  intros w o w' Hrun Ho. apply setTileOpen_fuel_S; [|done]. by apply IH.
Qed.

Lemma clickOutcome_not_OutOfFuel w p o w' :
  clickOutcome w p o w' → o ≠ OutOfFuel.
Proof. by destruct 1. Qed.

Lemma clickOutcome_Return w p o w' :
  wfBoard (board w) → inBounds w p → clickOutcome w p o w' → o = Return tt.
Proof. intros Hwf Hp. by destruct 1. Qed.

Lemma setTileOpen_outside w p wc :
  wfBoard (board w) → ¬ inBounds w p →
  setTileOpen p wc w = (Throw (OutOfBoundsError p), w).
Proof.
  intros Hwf Hp.
  change (setTileOpen p wc w)
    with (setTileOpen_fuel (S (length (array (tileState (board w))))) p wc w).
  cbn [setTileOpen_fuel].
  by rewrite bind_run, getTileState_run, (tileAt_outside w p Hwf Hp).
Qed.

(** ** The call stack *)

Lemma agrees_refl allow P {A} (m : M A) : agrees allow P m m.
Proof. intros w _. by left. Qed.

Lemma agrees_bind allow P {A B} (m m' : M A) (k k' : A → M B) :
  agrees allow P m m' →
  (∀ w a w', P w → m' w = (Return a, w') → P w') →
  (∀ a, agrees allow P (k a) (k' a)) →
  agrees allow P (bind m k) (bind m' k').
Proof.
  intros Hm Hpres Hk w Hw. rewrite !bind_run.
  destruct (Hm w Hw) as [Heq|[Ha Hout]].
  - rewrite Heq. destruct (m' w) as [[a|e|] w1] eqn:Hrun; [|by left..].
    apply Hk. by eapply Hpres.
  - right. split; [done|]. by destruct (m w) as [[a|e|] w1]; simplify_eq/=.
Qed.

Lemma agrees_forEach allow P {A} (l : list A) (body body' : A → M unit) :
  (∀ a, agrees allow P (body a) (body' a)) →
  (∀ a w w', P w → body' a w = (Return tt, w') → P w') →
  agrees allow P (forEach l body) (forEach l body').
Proof.
  intros Hbody Hpres. induction l as [|a l IH]; [apply agrees_refl|].
  simpl. apply agrees_bind; [apply Hbody| |by intros _].
  intros w [] w'. apply Hpres.
Qed.

Lemma filterA_world (test : TileState → bool) l w r w' :
  filterA l (λ q, let* s := getTileState q in ret (test s)) w = (Return r, w') →
  w' = w.
Proof.
  revert r. induction l as [|a l IH]; intros r; [by intros [= _ <-]|].
  cbn [filterA]. rewrite !bind_run, getTileState_run.
  destruct (tileAt w a) as [s|]; [|done]. simpl. rewrite bind_run.
  destruct (filterA l _ w) as [[r'| |] w1] eqn:Hrest; [|done..].
  intros [= _ <-]. by eapply IH.
Qed.

(** One call of [setTileOpen] with room for [stack] nested calls: it does
    what the call with room enough does, or it runs out of room; and room
    for more calls than there are closed tiles without a flag is enough. *)
Lemma setTileOpen_stack stack w p wc :
  wfBoard (board w) →
  (setTileOpen_fuel stack p wc w = setTileOpen p wc w ∨
   (setTileOpen_fuel stack p wc w).1 = OutOfFuel) ∧
  ((closedDefault (board w) < stack)%nat →
   setTileOpen_fuel stack p wc w = setTileOpen p wc w).
Proof.
  intros Hwf.
  change (setTileOpen p wc w)
    with (setTileOpen_fuel (enoughFuel (board w)) p wc w).
  assert (setTileOpen_fuel stack p wc w
          = setTileOpen_fuel (enoughFuel (board w)) p wc w ∨
          (setTileOpen_fuel stack p wc w).1 = OutOfFuel) as Hany.
  { destruct (decide (inBounds w p)) as [Hp|Hp]; cycle 1.
    { destruct stack as [|stack]; [by right|left].
      unfold enoughFuel. cbn [setTileOpen_fuel].
      by rewrite !bind_run, getTileState_run, (tileAt_outside w p Hwf Hp). }
    destruct (setTileOpen_cascade w p wc Hwf Hp) as (w' & ps & Hrun & _).
    change (setTileOpen p wc w)
      with (setTileOpen_fuel (enoughFuel (board w)) p wc w) in Hrun.
    destruct (Nat.le_ge_cases stack (enoughFuel (board w))) as [Hle|Hle].
    - destruct (setTileOpen_fuel stack p wc w) as [o w1] eqn:Hstack.
      destruct o as [[]|e|]; [left|left|by right];
        symmetry; by apply (setTileOpen_fuel_more _ _ p wc Hle w).
    - left. rewrite (setTileOpen_fuel_more _ _ p wc Hle w _ _ Hrun) by done.
      by rewrite Hrun. }
  split; [done|]. intros Hstack.
  destruct Hany as [|Hout]; [done|].
  destruct (decide (inBounds w p)) as [Hp|Hp].
  - destruct (setTileOpen_fuel_cascade stack w p wc Hwf Hp Hstack)
      as (w1 & ps1 & Hrun1 & _).
    by rewrite Hrun1 in Hout.
  - destruct stack as [|stack]; [lia|].
    cbn [setTileOpen_fuel] in Hout.
    by rewrite !bind_run, getTileState_run, (tileAt_outside w p Hwf Hp) in Hout.
Qed.

Lemma setTileOpen_keeps_wfBoard w p wc w' :
  wfBoard (board w) → setTileOpen p wc w = (Return tt, w') →
  wfBoard (board w') ∧ (closedDefault (board w') ≤ closedDefault (board w))%nat.
Proof.
  intros Hwf Hrun. destruct (decide (inBounds w p)) as [Hp|Hp].
  - destruct (setTileOpen_cascade w p wc Hwf Hp) as (w1 & ps & Hrun1 & Hc & _).
    rewrite Hrun in Hrun1. simplify_eq. split; [by eapply cascade_wfBoard|].
    pose proof (c_closedDefault _ _ _ Hc). lia.
  - by rewrite setTileOpen_outside in Hrun.
Qed.

Section Stack.
Variable stack : nat.
Variable allow : bool.
Variable P : World → Prop.
Hypothesis P_grids : ∀ w w', P w →
  tileData (board w') = tileData (board w) →
  tileState (board w') = tileState (board w) → P w'.
Hypothesis P_open : ∀ q wc w w',
  P w → setTileOpen q wc w = (Return tt, w') → P w'.
Hypothesis P_stack : ∀ q wc,
  agrees allow P (setTileOpen_fuel stack q wc) (setTileOpen q wc).

Lemma P_gets {A} (f : MinesweeperBoard → A) w a w' :
  P w → gets f w = (Return a, w') → P w'.
Proof. by intros Hw [= _ <-]. Qed.

Lemma P_getTileState p w s w' :
  P w → getTileState p w = (Return s, w') → P w'.
Proof. intros Hw. rewrite getTileState_run. by intros [= _ <-]. Qed.

Lemma P_getTileData p w d w' :
  P w → getTileData p w = (Return d, w') → P w'.
Proof. intros Hw. rewrite getTileData_run. by intros [= _ <-]. Qed.

Lemma P_forEach l w (u : unit) w' :
  P w → forEach l (λ q, setTileOpen q true) w = (Return u, w') → P w'.
Proof.
  revert w. induction l as [|a l IH]; intros w Hw; [by intros [= _ <-]|].
  cbn [forEach]. rewrite bind_run.
  destruct (setTileOpen a true w) as [[[]|e|] w1] eqn:Hrun; [|done..].
  apply IH. by eapply P_open.
Qed.

Lemma openTileOn_agrees p : agrees allow P (openTileOn stack p) (openTile p).
Proof.
  unfold openTileOn, openTile.
  apply agrees_bind; [apply agrees_refl|apply P_getTileState|]. intros s.
  destruct (isFlag (state s)); [apply agrees_refl|].
  apply agrees_bind; [apply P_stack|intros w [] w'; apply P_open|].
  intros _. apply agrees_refl.
Qed.

Lemma openNeighborsOn_agrees p :
  agrees allow P (openNeighborsOn stack p) (openNeighbors p).
Proof.
  unfold openNeighborsOn, openNeighbors.
  apply agrees_bind; [apply agrees_refl|apply P_getTileState|]. intros s.
  destruct (negb (isOpen s)); [apply agrees_refl|].
  apply agrees_bind; [apply agrees_refl|apply P_getTileData|]. intros d.
  destruct d as [k|]; [|apply agrees_refl].
  apply agrees_bind; [apply agrees_refl|apply P_gets|]. intros data.
  apply agrees_bind; [apply agrees_refl| |].
  { intros w r w' Hw Hrun. by rewrite (filterA_world _ _ _ _ _ Hrun). }
  intros flags. destruct (negb (length flags =? k)%nat); [apply agrees_refl|].
  apply agrees_bind; [apply agrees_refl| |].
  { intros w r w' Hw Hrun. by rewrite (filterA_world _ _ _ _ _ Hrun). }
  intros l.
  apply agrees_bind; [|apply P_forEach|intros _; apply agrees_refl].
  apply agrees_forEach; [intros q; apply P_stack|].
  intros q w w'. apply P_open.
Qed.

Lemma clickTileOn_agrees p : agrees allow P (clickTileOn stack p) (clickTile p).
Proof.
  unfold clickTileOn, clickTile.
  apply agrees_bind; [apply agrees_refl|apply P_gets|]. intros s.
  apply agrees_bind; [apply agrees_refl| |].
  { intros w [] w' Hw. case_bool_decide; [|by intros [= <-]].
    unfold setBoardState. rewrite !bind_run. simpl. intros [= <-].
    by apply (P_grids w). }
  intros _.
  apply agrees_bind; [apply agrees_refl|apply P_gets|]. intros s'.
  destruct (negb (bool_decide (s' = active))); [apply agrees_refl|].
  apply agrees_bind; [apply agrees_refl|apply P_getTileState|]. intros tState.
  destruct (isOpen tState);
    [apply openNeighborsOn_agrees|apply openTileOn_agrees].
Qed.

End Stack.

Lemma clickTileOn_run stack p w :
  clickTileOn stack p w =
  if bool_decide (boardState (board (activated w)) = active)
  then (let* tState := getTileState p in
        if isOpen tState then openNeighborsOn stack p
        else openTileOn stack p) (activated w)
  else (Return tt, warned WarnNotActive (activated w)).
Proof.
  unfold clickTileOn, activated. rewrite bind_run. simpl.
  destruct (bool_decide (boardState (board w) = not_started)); simpl.
  - unfold setBoardState. by rewrite !bind_run.
  - rewrite (bind_run (ret tt)). simpl. rewrite (bind_run (gets _)). simpl.
    by case_bool_decide.
Qed.

Lemma clickTileOn_any stack w p :
  wfBoard (board w) →
  clickTileOn stack p w = clickTile p w ∨ (clickTileOn stack p w).1 = OutOfFuel.
Proof.
  intros Hwf.
  assert (agrees true (λ w, wfBoard (board w))
            (clickTileOn stack p) (clickTile p)) as Hagrees.
  { apply clickTileOn_agrees.
    - intros w0 w' Hw Hd Hs. unfold wfBoard. by rewrite Hd, Hs.
    - intros q wc w0 w' Hw Hrun. by eapply setTileOpen_keeps_wfBoard.
    - intros q wc w0 Hw.
      destruct (proj1 (setTileOpen_stack stack w0 q wc Hw)); auto. }
  destruct (Hagrees w Hwf) as [|[_ ?]]; auto.
Qed.

Lemma clickTileOn_enough stack w p :
  wfBoard (board w) → (closedDefault (board w) < stack)%nat →
  clickTileOn stack p w = clickTile p w.
Proof.
  intros Hwf Hstack.
  assert (agrees false
            (λ w, wfBoard (board w) ∧ (closedDefault (board w) < stack)%nat)
            (clickTileOn stack p) (clickTile p)) as Hagrees.
  { apply clickTileOn_agrees.
    - intros w0 w' [Hw Hc] Hd Hs. unfold wfBoard, closedDefault, countTiles.
      by rewrite Hd, Hs.
    - intros q wc w0 w' [Hw Hc] Hrun.
      destruct (setTileOpen_keeps_wfBoard _ _ _ _ Hw Hrun). split; [done|lia].
    - intros q wc w0 [Hw Hc]. left.
      by apply (proj2 (setTileOpen_stack stack w0 q wc Hw)). }
  by destruct (Hagrees w) as [|[? _]].
Qed.

(** C6, as the code has it: the flood fill is finite, and opens every cell
    at most once.  On a board with its two grids in place and for a point
    of the board, [setTileOpen] never needs room for more nested calls than
    the board has closed tiles without a flag: on a call stack with room
    for more it returns, and the world it returns is the same for every
    such stack.  The tiles [ps] it announces are pairwise different, each
    was closed before and is open after, and no other tile changed.  Called
    on an open tile it only prints a warning, so that opening any of the
    tiles of [ps] again changes nothing and emits nothing.  On a board that
    was played from a constructed one, [clickTile] on a point of the board
    returns as well on such a stack, and what it returns is the result of
    [clickTile] with room enough.  On a smaller stack the calls either do
    the same or do not run to completion: they end with the exhausted
    stack. *)
Theorem flood_fill_terminates w p wc :
  wfBoard (board w) → inBounds w p →
  ∃ w' ps,
    (∀ stack, (closedDefault (board w) < stack)%nat →
              setTileOpen_fuel stack p wc w = (Return tt, w')) ∧
    (∀ stack, setTileOpen_fuel stack p wc w = (Return tt, w') ∨
              (setTileOpen_fuel stack p wc w).1 = OutOfFuel) ∧
    emitted w' = emitted w ++ (TileChanged <$> ps) ∧
    NoDup ps ∧
    (∀ q, q ∈ ps → holds isOpen w q = false ∧ holds isOpen w' q = true) ∧
    (∀ q, q ∉ ps → tileAt w' q = tileAt w q) ∧
    (holds isOpen w p = true → w' = warned (WarnAlreadyOpen p) w ∧ ps = []) ∧
    (∀ q wc' stack, q ∈ ps →
       setTileOpen_fuel (S stack) q wc' w'
       = (Return tt, warned (WarnAlreadyOpen q) w')) ∧
    (reachable w → ∀ stack,
       ((closedDefault (board w) < stack)%nat →
        ∃ w'', clickTileOn stack p w = (Return tt, w'') ∧
               clickTile p w = (Return tt, w'')) ∧
       ((clickTileOn stack p w).1 = Return tt ∨
        (clickTileOn stack p w).1 = OutOfFuel)).
Proof.
  intros Hwf Hp.
  destruct (setTileOpen_cascade w p wc Hwf Hp)
    as (w' & ps & Hrun & Hc & _ & Hhead).
  exists w', ps. split_and!.
  - intros stack Hstack.
    by rewrite (proj2 (setTileOpen_stack stack w p wc Hwf) Hstack).
  - intros stack.
    destruct (proj1 (setTileOpen_stack stack w p wc Hwf)) as [Heq|Hout];
      [left; by rewrite Heq|by right].
  - apply Hc.
  - apply Hc.
  - intros q Hq. destruct (c_opened _ _ _ Hc q Hq) as (? & ? & Hq0 & Hq1).
    unfold holds. by rewrite Hq0, Hq1.
  - apply Hc.
  - unfold holds. destruct (tileAt w p) as [s|] eqn:Hs; [|done].
    intros Ho. specialize (Hhead s eq_refl). by rewrite Ho in Hhead.
  - intros q wc' stack Hq.
    destruct (c_opened _ _ _ Hc q Hq) as (? & ? & _ & Hq1).
    pose proof (cascade_wfBoard _ _ _ Hc Hwf) as Hwf'.
    pose proof (tileAt_inBounds _ _ _ Hwf' Hq1) as Hin'.
    destruct (dataAt_is_Some w' q Hwf' Hin') as [d Hd].
    exact (setTileOpen_fuel_already_open _ q wc' w' _ d Hq1 Hd eq_refl).
  - intros Hreach stack. pose proof (reachable_Inv w Hreach) as HI.
    pose proof (clickTile_outcome w p HI) as Hout.
    pose proof (clickOutcome_Return _ _ _ _ Hwf Hp Hout) as Hret.
    destruct (clickTile p w) as [o w''] eqn:Hclick. simpl in Hret. subst o.
    split.
    + intros Hstack. exists w''.
      by rewrite (clickTileOn_enough stack w p Hwf Hstack).
    + destruct (clickTileOn_any stack w p Hwf) as [Heq|?]; [left|by right].
      by rewrite Heq, Hclick.
Qed.

Lemma flood_fill_terminates_witness :
  let w := newWorld cornerBoard in
  let p := mkPoint 2 2 in
  let wc := true in
  wfBoard (board w) ∧ inBounds w p ∧
  (∃ w' ps,
    (∀ stack, (closedDefault (board w) < stack)%nat →
              setTileOpen_fuel stack p wc w = (Return tt, w')) ∧
    (∀ stack, setTileOpen_fuel stack p wc w = (Return tt, w') ∨
              (setTileOpen_fuel stack p wc w).1 = OutOfFuel) ∧
    emitted w' = emitted w ++ (TileChanged <$> ps) ∧
    NoDup ps ∧
    (∀ q, q ∈ ps → holds isOpen w q = false ∧ holds isOpen w' q = true) ∧
    (∀ q, q ∉ ps → tileAt w' q = tileAt w q) ∧
    (holds isOpen w p = true → w' = warned (WarnAlreadyOpen p) w ∧ ps = []) ∧
    (∀ q wc' stack, q ∈ ps →
       setTileOpen_fuel (S stack) q wc' w'
       = (Return tt, warned (WarnAlreadyOpen q) w')) ∧
    (reachable w → ∀ stack,
       ((closedDefault (board w) < stack)%nat →
        ∃ w'', clickTileOn stack p w = (Return tt, w'') ∧
               clickTile p w = (Return tt, w'')) ∧
       ((clickTileOn stack p w).1 = Return tt ∨
        (clickTileOn stack p w).1 = OutOfFuel))) ∧
  dataAt w p = Some (EmptyTile 0) ∧
  closedDefault (board w) = 9%nat ∧
  emitted (setTileOpen_fuel 10 p wc w).2
  = TileChanged <$> [mkPoint 2 2; mkPoint 1 1; mkPoint 1 2; mkPoint 0 1;
                     mkPoint 0 2; mkPoint 2 1; mkPoint 1 0; mkPoint 2 0] ∧
  (setTileOpen_fuel 1 p wc w).1 = OutOfFuel.
Proof.
  intros w p wc.
  assert (wfBoard (board w)) as Hwf by (vm_compute; intuition congruence).
  assert (inBounds w p) as Hp by reflexivity.
  split_and!; [exact Hwf|exact Hp| |reflexivity..].
  exact (flood_fill_terminates w p wc Hwf Hp).
Defined.

(** ** A row of tiles without bomb neighbours *)

Lemma lookup_lineBombs n i :
  (i < n + 2)%nat → lineBombs n !! i = Some (bool_decide (i = S n)).
Proof.
  intros Hi. unfold lineBombs. destruct (decide (i = S n)) as [->|Hne].
  - rewrite lookup_app_r by (rewrite length_replicate; lia).
    rewrite length_replicate, Nat.sub_diag. by rewrite bool_decide_eq_true_2.
  - rewrite lookup_app_l by (rewrite length_replicate; lia).
    rewrite lookup_replicate_2 by lia. by rewrite bool_decide_eq_false_2.
Qed.

Lemma bombAt_line n q :
  bombAt (mkGrid (Z.of_nat n + 2) 1 (lineBombs n)) q
  = bool_decide (q = mkPoint (Z.of_nat n + 1) 0).
Proof.
  unfold bombAt. set (g := mkGrid _ _ _).
  destruct (isInBounds g q) eqn:Hin.
  - rewrite getOrNull_lookup by done. apply isInBounds_true in Hin.
    destruct q as [qx qy]. simpl in *. assert (qy = 0) as -> by lia.
    replace (Z.to_nat (qx + (Z.of_nat n + 2) * 0)) with (Z.to_nat qx) by lia.
    rewrite lookup_lineBombs by lia. apply bool_decide_ext.
    split; [intros Hq; f_equal; lia|intros [= ->]; lia].
  - rewrite getOrNull_out by done. symmetry. apply bool_decide_eq_false_2.
    intros ->.
    assert (isInBounds g (mkPoint (Z.of_nat n + 1) 0) = true) as Hin'
      by (apply isInBounds_true; simpl; lia).
    congruence.
Qed.

Lemma length_filter_cons {A} (f : A → bool) a l :
  length (List.filter f (a :: l))
  = ((if f a then 1 else 0) + length (List.filter f l))%nat.
Proof. simpl. by destruct (f a). Qed.

Lemma lineBoard_neighbors n i :
  (i ≤ n)%nat →
  length (List.filter (bombAt (mkGrid (Z.of_nat n + 2) 1 (lineBombs n)))
            (eightWayNeighbors (mkPoint (Z.of_nat i) 0)))
  = if bool_decide (i = n) then 1%nat else 0%nat.
Proof.
  intros Hi. unfold eightWayNeighbors.
  cbn -[Z.add Z.of_nat bombAt List.filter].
  rewrite !length_filter_cons, !bombAt_line. cbn [List.filter length].
  destruct (decide (i = n)) as [->|Hn].
  - rewrite (bool_decide_eq_true_2 (n = n)) by done.
    rewrite (bool_decide_eq_true_2 (mkPoint (Z.of_nat n + 1) (0 + 0) = _))
      by (f_equal; lia).
    by repeat (rewrite (bool_decide_eq_false_2 (mkPoint _ _ = _))
                 by (intros Heq; injection Heq; lia)).
  - rewrite (bool_decide_eq_false_2 (i = n)) by done.
    by repeat (rewrite (bool_decide_eq_false_2 (mkPoint _ _ = _))
                 by (intros Heq; injection Heq; lia)).
Qed.

Lemma lineBombs_count n :
  length (List.filter (λ isBomb : bool, isBomb) (lineBombs n)) = 1%nat.
Proof.
  unfold lineBombs. rewrite List.filter_app, length_app.
  assert (∀ k, List.filter (λ isBomb : bool, isBomb) (replicate k false) = [])
    as -> by (induction k; simpl; auto).
  done.
Qed.

Lemma lineBoard_new n :
  newBoard (Z.of_nat n + 2) 1 (lineBombs n) = Return (lineBoard n).
Proof.
  assert (length (lineBombs n) = (n + 2)%nat) as Hlen.
  { unfold lineBombs. rewrite length_app, length_replicate. simpl. lia. }
  destruct (newBoard_spec (Z.of_nat n + 2) 1 (lineBombs n))
    as (dataArray & Hrun & Hlen' & Hpoint & _); [lia|lia|lia|].
  rewrite Hrun. unfold lineBoard. do 2 f_equal.
  - f_equal. apply list_eq_same_length with (n + 2)%nat.
    + rewrite length_app, length_replicate. simpl. lia.
    + lia.
    + intros i d d' Hi Hd Hd'.
      set (p := mkPoint (Z.of_nat i) 0).
      assert (isInBounds (mkGrid (Z.of_nat n + 2) 1 (lineBombs n)) p = true)
        as Hp by (apply isInBounds_true; simpl; lia).
      specialize (Hpoint p (bool_decide (i = S n))).
      rewrite !getOrNull_lookup in Hpoint by done.
      cbn [x y width array p] in Hpoint.
      replace (Z.to_nat (Z.of_nat i + (Z.of_nat n + 2) * 0)) with i in Hpoint
        by lia.
      rewrite Hd in Hpoint. specialize (Hpoint (lookup_lineBombs n i Hi)).
      apply (inj Some) in Hpoint. subst d. unfold p.
      destruct (decide (i < n)%nat) as [Hlt|Hge].
      * rewrite lookup_app_l in Hd' by (rewrite length_replicate; lia).
        apply lookup_replicate in Hd' as [-> _].
        rewrite bool_decide_eq_false_2 by lia.
        rewrite lineBoard_neighbors by lia.
        by rewrite bool_decide_eq_false_2 by lia.
      * rewrite lookup_app_r in Hd' by (rewrite length_replicate; lia).
        rewrite length_replicate in Hd'.
        destruct (decide (i = n)) as [->|Hne].
        -- rewrite Nat.sub_diag in Hd'. simpl in Hd'. simplify_eq.
           rewrite bool_decide_eq_false_2 by lia.
           rewrite lineBoard_neighbors by lia.
           by rewrite bool_decide_eq_true_2.
        -- replace (i - n)%nat with 1%nat in Hd' by lia. simpl in Hd'.
           simplify_eq. by rewrite bool_decide_eq_true_2 by lia.
  - f_equal. by replace (Z.to_nat ((Z.of_nat n + 2) * 1)) with (n + 2)%nat by lia.
  - by rewrite lineBombs_count.
  - rewrite lineBombs_count. lia.
Qed.

Lemma lineOpened_wfBoard n k w : lineOpened n k w → wfBoard (board w).
Proof.
  intros [Hdata Hw Hh Hlen _ _]. unfold wfBoard, wfGrid.
  rewrite Hdata, Hw, Hh, Hlen. simpl.
  rewrite length_app, length_replicate. simpl. lia.
Qed.

Lemma lineOpened_inBounds n k w q :
  lineOpened n k w →
  inBounds w q ↔ ∃ i, (i < n + 2)%nat ∧ q = mkPoint (Z.of_nat i) 0.
Proof.
  intros [Hdata _ _ _ _ _]. unfold inBounds. rewrite Hdata, isInBounds_true.
  simpl. split.
  - intros [Hx Hy]. exists (Z.to_nat (x q)). split; [lia|].
    destruct q as [qx qy]. simpl in *. f_equal; lia.
  - intros (i & Hi & ->). simpl. lia.
Qed.

Lemma lineOpened_dataAt n k w i :
  lineOpened n k w → (i < n)%nat →
  dataAt w (mkPoint (Z.of_nat i) 0) = Some (EmptyTile 0).
Proof.
  intros [Hdata _ _ _ _ _] Hi. unfold dataAt. rewrite Hdata.
  rewrite getOrNull_lookup by (apply isInBounds_true; simpl; lia).
  cbn [lineBoard tileData array width x y].
  replace (Z.to_nat (Z.of_nat i + (Z.of_nat n + 2) * 0)) with i by lia.
  rewrite lookup_app_l by (rewrite length_replicate; lia).
  by apply lookup_replicate_2.
Qed.

Lemma lineOpened_board n k w w' :
  board w' = board w → lineOpened n k w → lineOpened n k w'.
Proof.
  intros Hb [H1 H2 H3 H4 H5 H6]. split; unfold tileAt in *; by rewrite Hb.
Qed.

Lemma lineOpened_new n w :
  board w = lineBoard n ∨ board w = withBoardState active (lineBoard n) →
  lineOpened n 0 w.
Proof.
  intros Hb.
  assert (tileData (board w) = tileData (lineBoard n) ∧
          tileState (board w) = tileState (lineBoard n)) as [Hd Hs]
    by (by destruct Hb as [->| ->]).
  split; unfold tileAt; rewrite ?Hd, ?Hs; try done.
  - simpl. by rewrite length_replicate.
  - intros i s Hi. lia.
  - intros i Hi.
    rewrite getOrNull_lookup by (apply isInBounds_true; simpl; lia).
    cbn [lineBoard tileState array width x y].
    replace (Z.to_nat (Z.of_nat i + (Z.of_nat n + 2) * 0)) with i by lia.
    apply lookup_replicate_2. lia.
Qed.

Lemma lineOpened_openedAt n k w wc :
  lineOpened n k w → (k < n)%nat →
  lineOpened n (S k) (openedAt (mkPoint (Z.of_nat k) 0) wc w).
Proof.
  intros Hline Hk. pose proof (lineOpened_wfBoard _ _ _ Hline) as Hwf.
  set (p := mkPoint (Z.of_nat k) 0).
  assert (inBounds w p) as Hp.
  { apply (lineOpened_inBounds n k w p Hline). exists k. split; [lia|done]. }
  assert (∀ q, q ≠ p → tileAt (openedAt p wc w) q = tileAt w q) as Hother.
  { intros q Hq. unfold tileAt, openedAt. simpl.
    destruct (isEmptyAt _ p); simpl; by rewrite getOrNull_setAt_ne. }
  destruct Hline as [H1 H2 H3 H4 H5 H6].
  split.
  - rewrite <- H1. unfold openedAt. simpl. by destruct (isEmptyAt _ p).
  - rewrite <- H2. unfold openedAt. simpl.
    destruct (isEmptyAt _ p); simpl; by rewrite width_setAt.
  - rewrite <- H3. unfold openedAt. simpl.
    destruct (isEmptyAt _ p); simpl; by rewrite height_setAt.
  - rewrite <- H4. unfold openedAt. simpl.
    destruct (isEmptyAt _ p); simpl; by rewrite length_setAt.
  - intros i s Hi. destruct (decide (i = k)) as [->|Hne].
    + fold p. rewrite (tileAt_openedAt w p wc Hwf Hp). by intros [= <-].
    + rewrite Hother by (unfold p; intros [= ?]; lia). apply H5. lia.
  - intros i Hi. rewrite Hother by (unfold p; intros [= ?]; lia).
    apply H6. lia.
Qed.

(** On the row of [n + 2] tiles, the call of [setTileOpen] on tile [k] needs
    room for a call on every tile from [k] to [n]: with less it runs out of
    room. *)
Lemma lineBoard_exhausts n stack : ∀ k w wc,
  lineOpened n k w → (k + stack ≤ n)%nat →
  (setTileOpen_fuel stack (mkPoint (Z.of_nat k) 0) wc w).1 = OutOfFuel.
Proof.
  induction stack as [|stack IH]; intros k w wc Hline Hk; [done|].
  set (p := mkPoint (Z.of_nat k) 0).
  rewrite (setTileOpen_fuel_closed stack p wc w false (EmptyTile 0));
    [|apply (line_closed _ _ _ Hline); lia
     |apply (lineOpened_dataAt n k w k Hline); lia].
  pose proof (lineOpened_openedAt n k w wc Hline) as Hline1.
  specialize (Hline1 ltac:(lia)). fold p in Hline1.
  generalize dependent (openedAt p wc w). intros w1 Hline1.
  unfold openAround.
  assert (mkPoint (Z.of_nat (S k)) 0 ∈ eightWayNeighbors p) as Hnext.
  { apply elem_of_eightWayNeighbors. unfold p. simpl.
    split; [intros [= ?]; lia|lia]. }
  assert (∀ q, q ∈ eightWayNeighbors p → inBounds w1 q →
               q = mkPoint (Z.of_nat (S k)) 0 ∨
               ∃ i, (i < S k)%nat ∧ q = mkPoint (Z.of_nat i) 0) as Hnear.
  { intros q Hq Hin.
    apply (lineOpened_inBounds _ _ _ q Hline1) in Hin as (i & Hi & ->).
    apply elem_of_eightWayNeighbors in Hq as (Hne & Hx & _).
    unfold p in *. simpl in *.
    destruct (decide (i = S k)) as [->|?]; [by left|right].
    exists i. split; [lia|done]. }
  revert w1 Hline1 Hnext Hnear.
  induction (eightWayNeighbors p) as [|q l IHl];
    intros w1 Hline1 Hnext Hnear; [by apply elem_of_nil in Hnext|].
  cbn [forEach]. rewrite !bind_run. cbn [gets].
  pose proof (lineOpened_wfBoard _ _ _ Hline1) as Hwf1.
  destruct (isInBounds (tileData (board w1)) q) eqn:Hq; cbn [negb]; cycle 1.
  { cbn [ret]. apply IHl; [done| |].
    - apply elem_of_cons in Hnext as [<-|?]; [|done].
      assert (inBounds w1 (mkPoint (Z.of_nat (S k)) 0)) as Hin.
      { apply (lineOpened_inBounds _ _ _ _ Hline1). exists (S k).
        split; [lia|done]. }
      unfold inBounds in Hin. congruence.
    - intros q' Hq'. apply Hnear. by right. }
  destruct (Hnear q) as [->|(i & Hi & ->)]; [by left|done| |].
  { pose proof (IH (S k) w1 false Hline1 ltac:(lia)) as Hout.
    by destruct (setTileOpen_fuel stack _ false w1) as [[[]|e|] w2];
      simplify_eq/=. }
  destruct stack as [|stack]; [done|].
  destruct (tileAt_is_Some w1 (mkPoint (Z.of_nat i) 0) Hwf1 Hq) as [s Hs].
  destruct (dataAt_is_Some w1 (mkPoint (Z.of_nat i) 0) Hwf1 Hq) as [d Hd].
  rewrite (setTileOpen_fuel_already_open stack _ false w1 s d Hs Hd)
    by (by eapply (line_open _ _ _ Hline1)).
  apply IHl.
  - by apply (lineOpened_board n (S k) w1).
  - apply elem_of_cons in Hnext as [Heq|?]; [|done].
    injection Heq as Heq. lia.
  - intros q' Hq'. apply Hnear. by right.
Qed.

Lemma lineBoard_click_exhausts n stack :
  (stack ≤ n)%nat →
  (clickTileOn stack (mkPoint 0 0) (newWorld (lineBoard n))).1 = OutOfFuel.
Proof.
  intros Hstack.
  set (wa := mkWorld (withBoardState active (lineBoard n))
               [BoardStateChanged active] []).
  assert (lineOpened n 0 wa) as Hline by (apply lineOpened_new; by right).
  assert (tileAt wa (mkPoint 0 0) = Some closedTile) as Hs
    by (apply (line_closed _ _ _ Hline 0%nat); lia).
  pose proof (lineBoard_exhausts n stack 0 wa true Hline ltac:(lia)) as Hout.
  change (mkPoint (Z.of_nat 0) 0) with (mkPoint 0 0) in Hout.
  rewrite clickTileOn_run.
  change (activated (newWorld (lineBoard n))) with wa.
  rewrite bool_decide_eq_true_2 by done.
  rewrite bind_run, getTileState_run, Hs. cbn [closedTile isOpen].
  unfold openTileOn. rewrite bind_run, getTileState_run, Hs. cbn [closedTile state isFlag].
  rewrite bind_run.
  by destruct (setTileOpen_fuel stack _ true wa) as [[[]|e|] w2]; simplify_eq/=.
Qed.

(** On a row of 5000 tiles with the bomb at its right end, a board that the
    constructor builds, a click on the left end opens the tiles one from
    inside the other: on a call stack with room for 4998 nested calls of
    [setTileOpen], neither [setTileOpen] nor [clickTile] runs to
    completion. *)
Lemma flood_fill_exhausts_stack :
  let w := newWorld (lineBoard 4998) in
  let p := mkPoint 0 0 in
  newBoard 5000 1 (lineBombs 4998) = Return (lineBoard 4998) ∧
  reachable w ∧ wfBoard (board w) ∧ inBounds w p ∧
  (setTileOpen_fuel 4998 p true w).1 = OutOfFuel ∧
  (clickTileOn 4998 p w).1 = OutOfFuel ∧
  ¬ ∃ w', setTileOpen_fuel 4998 p true w = (Return tt, w').
Proof.
  intros w p.
  assert (lineOpened 4998 0 w) as Hline by (apply lineOpened_new; by left).
  assert ((setTileOpen_fuel 4998 p true w).1 = OutOfFuel) as Hout
    by exact (lineBoard_exhausts 4998 4998 0 w true Hline (le_n _)).
  split_and!.
  - exact (lineBoard_new 4998).
  - eapply reach_new, (lineBoard_new 4998).
  - by eapply lineOpened_wfBoard.
  - reflexivity.
  - exact Hout.
  - exact (lineBoard_click_exhausts 4998 4998 (le_n _)).
  - intros [w' Hrun]. rewrite Hrun in Hout. discriminate Hout.
Qed.

Lemma chordWorld_reachable : reachable chordWorld.
Proof. apply reach_click, reach_flag, board3x3_reachable. Qed.

Lemma chord_all_or_nothing_witness :
  let w := chordWorld in
  let p := mkPoint 0 0 in
  let s := mkTileState default true true in
  let k := 1%nat in
  reachable w ∧ boardState (board w) = active ∧
  tileAt w p = Some s ∧ isOpen s = true ∧ dataAt w p = Some (EmptyTile k) ∧
  (length (flagNeighbors w p) ≠ k → clickTile p w = (Return tt, w)) ∧
  (length (flagNeighbors w p) = k →
     ∃ w', clickTile p w = (Return tt, w') ∧
           ∀ q, q ∈ neighborsToOpen w p → holds isOpen w' q = true).
Proof.
  intros w p s k.
  assert (boardState (board w) = active) as Hact by reflexivity.
  assert (tileAt w p = Some s) as Hs by reflexivity.
  assert (isOpen s = true) as Ho by reflexivity.
  assert (dataAt w p = Some (EmptyTile k)) as Hd by reflexivity.
  split_and!; [exact chordWorld_reachable|exact Hact|exact Hs|exact Ho|exact Hd|..];
    apply (chord_all_or_nothing w p s k chordWorld_reachable Hact Hs Ho Hd).
Defined.

(** ** The flood fill and the bombs *)

(** C10: the flood fill never opens a bomb.  On a board that was played
    from a constructed one, the neighbours on the board of an empty tile
    without bomb neighbours, which are the points that [setTileOpen] calls
    itself on, are no bombs; and a call of [setTileOpen] on a point leaves
    every bomb tile other than that point as it was.  So when a click opens
    a bomb, the bomb is the clicked tile itself, or a closed, unflagged
    neighbour of the clicked open tile that the chord loop passes to
    [setTileOpen], or the board is lost and the loss revealed it. *)
Theorem flood_fill_opens_no_bomb w :
  reachable w →
  (∀ z q, dataAt w z = Some (EmptyTile 0) → q ∈ eightWayNeighbors z →
          inBounds w q → dataAt w q ≠ Some BombTile) ∧
  (∀ p wc q, dataAt w q = Some BombTile → q ≠ p →
             tileAt (setTileOpen p wc w).2 q = tileAt w q) ∧
  (∀ p q, dataAt w q = Some BombTile →
          holds isOpen w q = false →
          holds isOpen (clickTile p w).2 q = true →
          q = p ∨ q ∈ neighborsToOpen w p ∨
          boardState (board (clickTile p w).2) = lost).
Proof.
  intros Hreach. pose proof (reachable_Inv w Hreach) as HI.
  pose proof (inv_wf _ HI) as Hwf. pose proof (inv_data _ HI) as Hok.
  split_and!.
  - intros z q Hz Hq _ Hb%isBombAt_true.
    rewrite (nextToZero_not_bomb _ q Hok) in Hb; [done|]. by exists z.
  - intros p wc q Hb%isBombAt_true Hne.
    destruct (decide (inBounds w p)) as [Hp|Hp]; cycle 1.
    { by rewrite setTileOpen_outside. }
    destruct (setTileOpen_cascade w p wc Hwf Hp) as (w' & ps & Hrun & Hc & Hz & _).
    rewrite Hrun. simpl. apply (c_others _ _ _ Hc). intros Hq.
    destruct (Hz q Hq) as [|Hzero]; [done|].
    by rewrite (nextToZero_not_bomb _ q Hok Hzero) in Hb.
  - intros p q Hb%isBombAt_true Hclosed Hopen.
    pose proof (clickTile_outcome w p HI) as Hout.
    destruct (clickTile p w) as [o w']. simpl in *.
    assert (∀ w1 ps, cascade (activated w) w1 ps → q ∉ ps →
              holds isOpen (finish w1 ps) q = true →
              boardState (board (finish w1 ps)) = lost) as Hfinish.
    { intros w1 ps Hc Hq Hfin. unfold finish in *.
      destruct (existsb _ ps); [done|].
      assert (holds isOpen w1 q = false) as Hclosed1.
      { unfold holds. by rewrite (c_others _ _ _ Hc q Hq), activated_tileAt. }
      destruct (_ =? 0); [|congruence].
      exfalso. unfold holds in Hfin, Hclosed1.
      change (tileAt (ended won ?w) q) with (tileAt w q) in Hfin.
      pose proof (cascade_wfBoard _ _ _ Hc (proj2 (activated_wfBoard w) Hwf))
        as Hwf1.
      destruct (tileAt w1 q) as [s|] eqn:Hs.
      - pose proof (tileAt_inBounds _ _ _ Hwf1 Hs) as Hin.
        destruct (dataAt_is_Some w1 q Hwf1 Hin) as [d Hd].
        rewrite (markEach_here _ _ _ w1 q d s Hwf1) in Hfin; try done;
          [|apply NoDup_points|by apply elem_of_points].
        destruct (isUnflaggedBomb d s); simpl in Hfin; congruence.
      - destruct (decide (q ∈ points (tileData (board w1)))) as [Hin|Hin].
        + apply elem_of_points in Hin.
          destruct (tileAt_is_Some w1 q Hwf1 Hin). congruence.
        + rewrite markEach_other, Hs in Hfin; done. }
    inversion Hout as [Hr|Hr Hout'|s Hr Hs Ho Hf|wc w1 ps Hr Hs Hc _ Hsafe _
                       |s k Hr Hs Ho Hd Hk|s k w1 ps Hr Hs Ho Hd Hk Hc _ Hdirect];
      subst.
    + unfold holds, tileAt in *. simpl in *. congruence.
    + unfold holds in *. rewrite activated_tileAt in Hopen. congruence.
    + unfold holds, tileAt in *. simpl in *.
      rewrite activated_tileState in Hopen. congruence.
    + destruct (decide (q = p)) as [|Hne]; [by left|]. right. right.
      apply (Hfinish w1 (p :: ps) Hc); [|done].
      intros [?|Hq]%elem_of_cons; [done|]. by rewrite (Hsafe q Hq) in Hb.
    + unfold holds in *. rewrite activated_tileAt in Hopen. congruence.
    + destruct (decide (q ∈ ps)) as [Hq|Hq].
      * right. left. by apply Hdirect.
      * right. right. by apply (Hfinish w1 ps Hc).
Qed.

Lemma flood_fill_opens_no_bomb_witness :
  let w := newWorld cornerBoard in
  reachable w ∧
  ((∀ z q, dataAt w z = Some (EmptyTile 0) → q ∈ eightWayNeighbors z →
           inBounds w q → dataAt w q ≠ Some BombTile) ∧
   (∀ p wc q, dataAt w q = Some BombTile → q ≠ p →
              tileAt (setTileOpen p wc w).2 q = tileAt w q) ∧
   (∀ p q, dataAt w q = Some BombTile →
           holds isOpen w q = false →
           holds isOpen (clickTile p w).2 q = true →
           q = p ∨ q ∈ neighborsToOpen w p ∨
           boardState (board (clickTile p w).2) = lost)) ∧
  dataAt w (mkPoint 2 2) = Some (EmptyTile 0) ∧
  dataAt w (mkPoint 0 0) = Some BombTile ∧
  emitted (setTileOpen (mkPoint 2 2) true w).2
  = TileChanged <$> [mkPoint 2 2; mkPoint 1 1; mkPoint 1 2; mkPoint 0 1;
                     mkPoint 0 2; mkPoint 2 1; mkPoint 1 0; mkPoint 2 0] ∧
  tileAt (setTileOpen (mkPoint 2 2) true w).2 (mkPoint 0 0) = Some closedTile.
Proof.
  intros w. split; [exact cornerBoard_reachable|].
  split; [|split_and!; reflexivity].
  exact (flood_fill_opens_no_bomb w cornerBoard_reachable).
Defined.

(** ** The counter of tiles left to open *)

Lemma tiles_partition b :
  wfBoard b →
  (closedEmpty b + openEmpty b + countTiles (λ d _, isBomb d) b)%nat
  = Z.to_nat (width (tileData b) * height (tileData b)).
Proof.
  intros (Hd & Hs & Hw & Hh).
  destruct Hd as (_ & _ & Hlend). destruct Hs as (_ & _ & Hlens).
  rewrite Hw, Hh in Hlens.
  unfold closedEmpty, openEmpty, countTiles.
  set (ds := array (tileData b)) in *. set (ss := array (tileState b)) in *.
  assert (length ds = length ss) as Hlen by lia.
  assert (count2 (λ d s, isEmpty d && negb (isOpen s)) ds ss
          + count2 (λ d s, isEmpty d && isOpen s) ds ss
          = count2 (λ d _, isEmpty d) ds ss)%nat as H1.
  { rewrite <- (count2_split (λ d _, isEmpty d) (λ _ s, isOpen s)). lia. }
  assert (count2 (λ d _, isBomb d) ds ss + count2 (λ d _, isEmpty d) ds ss
          = length ss)%nat as H2.
  { rewrite <- (count2_true ds ss Hlen).
    rewrite <- (count2_split (λ _ _, true) (λ d _, isBomb d)). f_equal.
    apply count2_ext. intros i d s _ _. by destruct d. }
  lia.
Qed.

(** C5, as the code has it.  The constructor sets the counter to
    [width * height - bombCount].  One call of [setTileOpen] lowers it by
    the number of empty tiles that the call opens, each of them closed
    before, so by nothing on an open tile, a flagged tile or a bomb.  On a
    board that was played from a constructed one the counter is never
    negative, and as long as the board is not [lost] it is
    [width * height - bombCount] minus the number of open empty tiles.
    (The loss opens the wrongly flagged empty tiles and leaves the
    counter.) *)
Theorem tilesLeft_counts_empty_tiles w :
  reachable w →
  (∀ width height bombsArray b,
     newBoard width height bombsArray = Return b →
     tilesLeftToOpenToWin b = width * height - bombCount b) ∧
  0 ≤ tilesLeftToOpenToWin (board w) ∧
  (boardState (board w) ≠ lost →
     tilesLeftToOpenToWin (board w)
     = width (tileData (board w)) * height (tileData (board w))
       - bombCount (board w) - Z.of_nat (openEmpty (board w))) ∧
  (∀ p wc, ∃ ps,
     NoDup ps ∧
     (∀ q, q ∈ ps ↔
           holds isOpen w q = false ∧
           holds isOpen (setTileOpen p wc w).2 q = true) ∧
     tilesLeftToOpenToWin (board (setTileOpen p wc w).2)
     = tilesLeftToOpenToWin (board w)
       - Z.of_nat (length (List.filter (isEmptyAt (tileData (board w))) ps)) ∧
     (holds (λ s, isOpen s || isFlag (state s)) w p = true → ps = []) ∧
     (dataAt w p = Some BombTile →
      tilesLeftToOpenToWin (board (setTileOpen p wc w).2)
      = tilesLeftToOpenToWin (board w))).
Proof.
  intros Hreach. pose proof (reachable_Inv w Hreach) as HI.
  pose proof (inv_wf _ HI) as Hwf.
  split_and!.
  - intros width height bombsArray b Hnew.
    destruct (newBoard_Return _ _ _ _ Hnew) as (Hw & Hh & Hlen).
    destruct (newBoard_spec width height bombsArray Hw Hh Hlen)
      as (dataArray & Hrun & _).
    rewrite Hrun in Hnew. by injection Hnew as <-.
  - apply HI.
  - intros Hs. rewrite (inv_left _ HI Hs), (inv_bombCount _ HI).
    pose proof (tiles_partition _ Hwf). destruct Hwf as ((? & ? & ?) & _). nia.
  - intros p wc.
    destruct (decide (inBounds w p)) as [Hp|Hp]; cycle 1.
    { exists []. rewrite setTileOpen_outside by done. simpl.
      split_and!; [constructor| |lia|done..].
      intros q. split; [by intros ?%elem_of_nil|]. intros [? ?]. congruence. }
    destruct (setTileOpen_cascade w p wc Hwf Hp)
      as (w' & ps & Hrun & Hc & Hz & Hhead).
    exists ps. rewrite Hrun. simpl. split_and!.
    + apply Hc.
    + intros q. split.
      * intros Hq. destruct (c_opened _ _ _ Hc q Hq) as (? & ? & H0 & H1).
        unfold holds. by rewrite H0, H1.
      * intros [H0 H1]. destruct (decide (q ∈ ps)) as [|Hq]; [done|].
        unfold holds in *. rewrite (c_others _ _ _ Hc q Hq) in H1. congruence.
    + apply Hc.
    + unfold holds. destruct (tileAt w p) as [s|] eqn:Hs; [|done].
      intros Hof. specialize (Hhead s eq_refl).
      destruct (isOpen s); [apply Hhead|].
      destruct (isFlag (state s)); [apply Hhead|done].
    + intros Hb. rewrite (c_left _ _ _ Hc).
      destruct (tileAt_is_Some w p Hwf Hp) as [s Hs].
      specialize (Hhead s Hs).
      destruct (isOpen s); [destruct Hhead as [_ ->]; simpl; lia|].
      destruct (isFlag (state s)); [destruct Hhead as [_ ->]; simpl; lia|].
      destruct Hhead as (_ & ps' & -> & Hstop).
      destruct Hstop as [-> _]; [by rewrite Hb|].
      simpl. unfold isEmptyAt. fold (dataAt w p). rewrite Hb. simpl. lia.
Qed.

Lemma misflaggedWorld_reachable : reachable misflaggedWorld.
Proof. apply reach_flag, board2x1_reachable. Qed.

Lemma lostWorld_reachable : reachable lostWorld.
Proof. apply reach_click, misflaggedWorld_reachable. Qed.

Lemma tilesLeft_counts_empty_tiles_witness :
  let w := chordWorld in
  reachable w ∧
  (∀ width height bombsArray b,
     newBoard width height bombsArray = Return b →
     tilesLeftToOpenToWin b = width * height - bombCount b) ∧
  0 ≤ tilesLeftToOpenToWin (board w) ∧
  (boardState (board w) ≠ lost →
     tilesLeftToOpenToWin (board w)
     = width (tileData (board w)) * height (tileData (board w))
       - bombCount (board w) - Z.of_nat (openEmpty (board w))) ∧
  (∀ p wc, ∃ ps,
     NoDup ps ∧
     (∀ q, q ∈ ps ↔
           holds isOpen w q = false ∧
           holds isOpen (setTileOpen p wc w).2 q = true) ∧
     tilesLeftToOpenToWin (board (setTileOpen p wc w).2)
     = tilesLeftToOpenToWin (board w)
       - Z.of_nat (length (List.filter (isEmptyAt (tileData (board w))) ps)) ∧
     (holds (λ s, isOpen s || isFlag (state s)) w p = true → ps = []) ∧
     (dataAt w p = Some BombTile →
      tilesLeftToOpenToWin (board (setTileOpen p wc w).2)
      = tilesLeftToOpenToWin (board w))).
Proof.
  intros w. split; [exact chordWorld_reachable|].
  exact (tilesLeft_counts_empty_tiles w chordWorld_reachable).
Defined.

(** On the two-tile board with a flag on its empty tile, the click on the
    bomb loses the game, and the loss opens the flagged empty tile: an empty
    tile becomes open for the first time and the counter stays at 1, so that
    it is no longer what is left of [width * height - bombCount] after the
    open empty tiles. *)
Lemma loss_opens_empty_tile_without_decrement :
  let p := mkPoint 1 0 in
  reachable misflaggedWorld ∧ reachable lostWorld ∧
  lostWorld = (clickTile (mkPoint 0 0) misflaggedWorld).2 ∧
  dataAt misflaggedWorld p = Some (EmptyTile 1) ∧
  tileAt misflaggedWorld p = Some (mkTileState flag false false) ∧
  tileAt lostWorld p = Some (mkTileState flag true false) ∧
  tilesLeftToOpenToWin (board misflaggedWorld) = 1 ∧
  tilesLeftToOpenToWin (board lostWorld) = 1 ∧
  openEmpty (board lostWorld) = 1%nat ∧
  tilesLeftToOpenToWin (board lostWorld)
  ≠ width (tileData (board lostWorld)) * height (tileData (board lostWorld))
    - bombCount (board lostWorld) - Z.of_nat (openEmpty (board lostWorld)).
Proof.
  intros p. split_and!;
    [exact misflaggedWorld_reachable|exact lostWorld_reachable
    |reflexivity..|].
  vm_compute. congruence.
Qed.

(** ** The win *)

Lemma filter_filter_implies {A} (f g : A → bool) (l : list A) :
  (∀ a, g a = true → f a = true) →
  List.filter g (List.filter f l) = List.filter g l.
Proof.
  intros Himp. induction l as [|a l IH]; [done|]. simpl.
  destruct (f a) eqn:Hf; simpl.
  - by rewrite IH.
  - destruct (g a) eqn:Hg; [|done]. by rewrite (Himp a Hg) in Hf.
Qed.

Lemma closedEmpty_pos w q d s :
  wfBoard (board w) → dataAt w q = Some d → tileAt w q = Some s →
  isEmpty d = true → isOpen s = false → closedEmpty (board w) ≠ 0%nat.
Proof.
  intros (_ & _ & Hw & _) Hd Hs He Ho Hzero.
  pose proof (getOrNull_inBounds _ _ _ Hd) as Hind.
  pose proof (getOrNull_inBounds _ _ _ Hs) as Hins.
  unfold dataAt in Hd. rewrite getOrNull_lookup in Hd by done.
  unfold tileAt in Hs. rewrite getOrNull_lookup in Hs by done.
  rewrite Hw in Hs.
  pose proof (count2_zero _ _ _ _ _ _ Hzero Hd Hs) as Htest. simpl in Htest.
  by rewrite He, Ho in Htest.
Qed.

(** When the chord opens a bomb, a flag around the clicked tile sits on an
    empty tile, which stays closed: the counter cannot have reached 0. *)
Lemma chord_loss_leaves_tiles w p k w1 ps :
  Inv w → running w → dataAt w p = Some (EmptyTile k) →
  length (flagNeighbors w p) = k →
  cascade (activated w) w1 ps →
  (∀ q, q ∈ ps → isBombAt (tileData (board w)) q = true →
        q ∈ neighborsToOpen w p) →
  existsb (isBombAt (tileData (board w1))) ps = true →
  tilesLeftToOpenToWin (board w1) ≠ 0.
Proof.
  intros HI Hr Hd Hk Hc Hdirect Hex.
  pose proof (Inv_activated w HI) as HI0.
  pose proof (inv_wf _ HI) as Hwf.
  rewrite (c_tileData _ _ _ Hc), activated_tileData in Hex.
  apply existsb_exists in Hex as (b & Hb%list_elem_of_In & Hbomb).
  pose proof (Hdirect b Hb Hbomb) as Hbn.
  apply elem_of_neighborsToOpen in Hbn as (Hbn & Hbin & Hbclosed).
  destruct (filter_pigeonhole (holds isClosedFlag w)
              (isBombAt (tileData (board w))) (neighborsIn w p))
    as (y & Hy & Hyflag & Hyempty).
  { fold (flagNeighbors w p). rewrite Hk. unfold neighborsIn.
    rewrite filter_filter_implies by apply isBombAt_inBounds.
    by apply (inv_data _ HI p k). }
  { exists b. split_and!; [|done|].
    - unfold neighborsIn. apply list_elem_of_In, filter_In.
      by rewrite <- list_elem_of_In.
    - unfold holds in *. destruct (tileAt w b) as [sb|]; [|done].
      unfold isClosedNoFlag, isClosedFlag in *.
      destruct (isOpen sb), (isFlag (state sb)); done. }
  pose proof (neighborsIn_inBounds _ _ _ Hy) as Hyin.
  destruct (tileAt_is_Some w y Hwf Hyin) as [sy Hsy].
  destruct (dataAt_is_Some w y Hwf Hyin) as [dy Hdy].
  unfold holds in Hyflag. rewrite Hsy in Hyflag.
  apply andb_true_iff in Hyflag as [Hyo%negb_true_iff Hyf].
  rewrite (isBombAt_dataAt _ _ _ Hdy) in Hyempty.
  assert (y ∉ ps) as Hyps.
  { intros Hin. destruct (c_opened _ _ _ Hc y Hin) as (? & ? & Hy0 & _).
    rewrite activated_tileAt, Hsy in Hy0. injection Hy0 as ->.
    simpl in Hyf. done. }
  assert (tilesLeftToOpenToWin (board w1) = Z.of_nat (closedEmpty (board w1)))
    as ->.
  { apply (cascade_left _ _ _ Hc), (inv_left _ HI0).
    by rewrite (activated_state w Hr). }
  assert (closedEmpty (board w1) ≠ 0%nat); [|lia].
  apply (closedEmpty_pos w1 y dy sy).
  - eapply cascade_wfBoard; [done|]. by apply activated_wfBoard.
  - unfold dataAt. by rewrite (c_tileData _ _ _ Hc), activated_tileData.
  - by rewrite (c_others _ _ _ Hc y Hyps), activated_tileAt.
  - by destruct dy.
  - done.
Qed.

Lemma finish_cases w1 ps :
  (existsb (isBombAt (tileData (board w1))) ps = true ∧
   boardState (board (finish w1 ps)) = lost ∧
   tilesLeftToOpenToWin (board (finish w1 ps))
   = tilesLeftToOpenToWin (board w1)) ∨
  (existsb (isBombAt (tileData (board w1))) ps = false ∧
   tilesLeftToOpenToWin (board w1) = 0 ∧
   finish w1 ps
   = ended won
       (markEach isUnflaggedBomb flagged (points (tileData (board w1))) w1)) ∨
  (existsb (isBombAt (tileData (board w1))) ps = false ∧
   tilesLeftToOpenToWin (board w1) ≠ 0 ∧
   finish w1 ps = w1).
Proof.
  unfold finish. destruct (existsb _ ps).
  - left. split_and!; [done..|]. simpl.
    apply (markEach_frame shouldReveal revealed).
  - right. destruct (_ =? 0) eqn:Hz.
    + left. by apply Z.eqb_eq in Hz.
    + right. by apply Z.eqb_neq in Hz.
Qed.

Lemma activated_emitted w :
  ∃ pre, emitted (activated w) = emitted w ++ pre ∧
         ∀ q, TileChanged q ∉ pre.
Proof.
  unfold activated. case_bool_decide.
  - exists [BoardStateChanged active]. split; [done|].
    intros q [=]%list_elem_of_singleton.
  - exists []. split; [by rewrite app_nil_r|]. intros q ?%elem_of_nil. done.
Qed.

(** What the win check emits after a cascade that opened no bomb. *)
Lemma finish_won_emitted w0 w1 ps :
  wfBoard (board w0) → cascade w0 w1 ps →
  existsb (isBombAt (tileData (board w1))) ps = false →
  tilesLeftToOpenToWin (board w1) = 0 →
  ∃ l,
    emitted (finish w1 ps) = emitted w0 ++ l ++ [BoardStateChanged won] ∧
    ∀ q, dataAt w0 q = Some BombTile →
         holds (λ s, negb (isFlag (state s))) w0 q = true →
         TileChanged q ∈ l.
Proof.
  intros Hwf Hc Hex Hzero.
  destruct (finish_cases w1 ps) as [(Hex' & _)|[(_ & _ & ->)|(_ & Hnz & _)]];
    [congruence| |done].
  set (pts := points (tileData (board w1))).
  exists ((TileChanged <$> ps)
          ++ (TileChanged <$> List.filter (marks isUnflaggedBomb w1) pts)).
  split.
  - simpl. rewrite markEach_emitted by apply NoDup_points.
    rewrite (c_emitted _ _ _ Hc). by rewrite <- !app_assoc.
  - intros q Hd Hnf. apply elem_of_app. right.
    apply list_elem_of_fmap. exists q. split; [done|].
    apply list_elem_of_In, filter_In. split.
    + apply list_elem_of_In, elem_of_points.
      rewrite (c_tileData _ _ _ Hc). by eapply getOrNull_inBounds.
    + assert (q ∉ ps) as Hq.
      { intros Hq. rewrite (c_tileData _ _ _ Hc) in Hex.
        pose proof (proj1 (existsb_bomb_false _ _) Hex q Hq) as Hnb.
        by rewrite (proj2 (isBombAt_true w0 q) Hd) in Hnb. }
      unfold marks, holds in *. unfold dataAt at 1.
      rewrite (c_tileData _ _ _ Hc). fold (dataAt w0 q).
      rewrite Hd, (c_others _ _ _ Hc q Hq).
      destruct (tileAt w0 q); [|done]. by unfold isUnflaggedBomb.
Qed.

Lemma click_win_transition w p :
  Inv w →
  ((boardState (board w) ≠ won ∧ boardState (board (clickTile p w).2) = won) ↔
   (tilesLeftToOpenToWin (board w) ≠ 0 ∧
    tilesLeftToOpenToWin (board (clickTile p w).2) = 0)) ∧
  (boardState (board w) ≠ won → boardState (board (clickTile p w).2) = won →
   ∃ l,
     emitted (clickTile p w).2 = emitted w ++ l ++ [BoardStateChanged won] ∧
     ∀ q, dataAt w q = Some BombTile →
          holds (λ s, negb (isFlag (state s))) w q = true →
          TileChanged q ∈ l).
Proof.
  intros HI. pose proof (clickTile_outcome w p HI) as Hout.
  pose proof (inv_wf _ HI) as Hwf.
  destruct (clickTile p w) as [o w']. simpl in *.
  assert (∀ w1 ps,
    running w → cascade (activated w) w1 ps →
    (existsb (isBombAt (tileData (board w1))) ps = true →
     tilesLeftToOpenToWin (board w) ≠ 0 →
     tilesLeftToOpenToWin (board w1) ≠ 0) →
    (existsb (isBombAt (tileData (board w1))) ps = false →
     tilesLeftToOpenToWin (board w) ≠ 0) →
    ((boardState (board w) ≠ won ∧ boardState (board (finish w1 ps)) = won) ↔
     (tilesLeftToOpenToWin (board w) ≠ 0 ∧
      tilesLeftToOpenToWin (board (finish w1 ps)) = 0)) ∧
    (boardState (board w) ≠ won → boardState (board (finish w1 ps)) = won →
     ∃ l,
       emitted (finish w1 ps) = emitted w ++ l ++ [BoardStateChanged won] ∧
       ∀ q, dataAt w q = Some BombTile →
            holds (λ s, negb (isFlag (state s))) w q = true →
            TileChanged q ∈ l)) as Hfinish.
  { intros w1 ps Hr Hc Hlose Hroot.
    assert (boardState (board w) ≠ won) as Hnw by by destruct Hr as [-> | ->].
    pose proof (c_boardState _ _ _ Hc) as Hst1.
    rewrite (activated_state w Hr) in Hst1.
    destruct (finish_cases w1 ps)
      as [(Hex & Hst & Hl)|[(Hex & Hz & Heq)|(Hex & Hnz & Heq)]].
    - rewrite Hst, Hl. split; [|done]. split; [by intros [_ ?]|].
      intros [Hw0 Hw1]. by destruct (Hlose Hex Hw0).
    - split.
      + rewrite Heq. simpl.
        rewrite (proj1 (proj2 (proj2 (proj2 (markEach_frame _ _ _ _))))).
        split; [intros _|done]. split; [by apply Hroot|done].
      + intros _ _.
        destruct (finish_won_emitted (activated w) w1 ps) as (l & Hem & Hl);
          [by apply activated_wfBoard|done..|].
        destruct (activated_emitted w) as (pre & Hpre & _).
        exists (pre ++ l). split.
        * rewrite Hem, Hpre. by rewrite <- !app_assoc.
        * intros q Hd Hnf. apply elem_of_app. right. apply Hl.
          -- by rewrite activated_dataAt.
          -- unfold holds in *. by rewrite activated_tileAt.
    - rewrite Heq, Hst1. split; [|done]. split; [by intros [_ ?]|].
      by intros [_ ?]. }
  assert (∀ w2, boardState (board w2) = boardState (board (activated w)) →
                tilesLeftToOpenToWin (board w2) = tilesLeftToOpenToWin (board w) →
    ((boardState (board w) ≠ won ∧ boardState (board w2) = won) ↔
     (tilesLeftToOpenToWin (board w) ≠ 0 ∧ tilesLeftToOpenToWin (board w2) = 0)) ∧
    (boardState (board w) ≠ won → boardState (board w2) = won →
     ∃ l,
       emitted w2 = emitted w ++ l ++ [BoardStateChanged won] ∧
       ∀ q, dataAt w q = Some BombTile →
            holds (λ s, negb (isFlag (state s))) w q = true →
            TileChanged q ∈ l)) as Hsame.
  { intros w2 Hst Hl. rewrite Hst, Hl.
    assert (boardState (board w) ≠ won →
            boardState (board (activated w)) ≠ won) as Hact.
    { unfold activated. by case_bool_decide. }
    split; [|by intros ? ?%Hact]. split; [by intros [?%Hact ?]|lia]. }
  inversion Hout as [Hr|Hr Hout'|s Hr Hs Ho Hf|wc w1 ps Hr Hs Hc _ Hsafe Hone
                     |s k Hr Hs Ho Hd Hk|s k w1 ps Hr Hs Ho Hd Hk Hc _ Hdirect];
    subst.
  - apply Hsame; simpl; [by rewrite activated_idle|done].
  - apply Hsame; [done|apply activated_tilesLeft].
  - apply Hsame; simpl; [done|apply activated_tilesLeft].
  - apply Hfinish; [done..| |].
    + intros Hex. rewrite (c_tileData _ _ _ Hc), activated_tileData in Hex.
      simpl in Hex. rewrite (proj2 (existsb_bomb_false _ _) Hsafe) in Hex.
      rewrite orb_false_r in Hex. rewrite (Hone Hex) in Hc.
      rewrite (c_left _ _ _ Hc), activated_tileData, activated_tilesLeft. simpl.
      unfold isEmptyAt. unfold isBombAt in Hex.
      destruct (getOrNull _ p) as [[]|]; simpl; try done. lia.
    + intros Hex Hzero.
      rewrite (c_tileData _ _ _ Hc), activated_tileData in Hex.
      simpl in Hex. apply orb_false_iff in Hex as [Hp _].
      rewrite (inv_some_empty _ HI Hr Hzero p) in Hp; [done|].
      by eapply tileAt_inBounds.
  - apply Hsame; [done|apply activated_tilesLeft].
  - apply Hfinish; [done..| |].
    + intros Hex _. by eapply chord_loss_leaves_tiles.
    + intros _ Hzero.
      pose proof (inv_no_open_bomb _ HI Hr p s Hs Ho) as Hnb.
      rewrite (inv_some_empty _ HI Hr Hzero p) in Hnb; [done|].
      by eapply tileAt_inBounds.
Qed.

Lemma flag_win_transition w p :
  boardState (board (changeTileState p w).2) = boardState (board (activated w)) ∧
  tilesLeftToOpenToWin (board (changeTileState p w).2)
  = tilesLeftToOpenToWin (board w).
Proof.
  rewrite changeTileState_eq. case_bool_decide.
  - destruct (tileAt (activated w) p) as [s|]; simpl.
    + destruct (isOpen s); simpl; by rewrite ?activated_tilesLeft.
    + by rewrite activated_tilesLeft.
  - simpl. by rewrite activated_tilesLeft.
Qed.

Lemma step_reachable w w' : reachable w → step w w' → reachable w'.
Proof.
  intros Hr Hs. destruct Hs; [by apply reach_click|by apply reach_flag].
Qed.

Lemma changeTileState_isOpen w p q :
  holds isOpen (changeTileState p w).2 q = holds isOpen w q.
Proof.
  rewrite changeTileState_eq. unfold holds. case_bool_decide; simpl;
    [|by rewrite activated_tileAt].
  destruct (tileAt (activated w) p) as [s|] eqn:Hs; simpl;
    [|by rewrite activated_tileAt].
  destruct (isOpen s) eqn:Ho; [by rewrite activated_tileAt|].
  unfold tileAt at 1, toggledAt. simpl.
  destruct (decide (q = p)) as [->|Hne].
  - rewrite (getOrNull_setAt_same _ _ s) by done.
    rewrite <- activated_tileAt, Hs. by rewrite Ho.
  - rewrite getOrNull_setAt_ne by done. fold (tileAt (activated w) q).
    by rewrite activated_tileAt.
Qed.

Lemma step_idle w w' q :
  ¬ running w → step w w' → holds isOpen w' q = holds isOpen w q.
Proof.
  intros Hr Hstep. destruct Hstep as [w p|w p].
  - rewrite clickTile_run, (activated_idle w Hr), bool_decide_eq_false_2; [done|].
    intros Hs. apply Hr. by right.
  - apply changeTileState_isOpen.
Qed.

(** C2: the win.  The win check on a board with its grids in place and the
    counter at 0 sets the mark of every bomb that has none to [flag],
    emits [TileChanged] for each of these in the order of [points], leaves
    every other tile as it is, makes the board [won] and emits
    [BoardStateChanged won]; with a positive counter it does nothing.
    On a board that was played from a constructed one, one call of
    [clickTile] or [changeTileState] makes the board [won] exactly when the
    call brings the counter from another value to 0.  On a won board every
    bomb is flagged and closed, and the call that won has emitted
    [TileChanged] for every bomb that was not flagged before it.  In
    particular a call that opened a tile and left every bomb closed, so that
    the win check ran, has won when it leaves the counter at 0. *)
Theorem won_exactly_when_counter_reaches_zero w w' :
  reachable w → step w w' →
  ((boardState (board w) ≠ won ∧ boardState (board w') = won) ↔
   (tilesLeftToOpenToWin (board w) ≠ 0 ∧ tilesLeftToOpenToWin (board w') = 0)) ∧
  (boardState (board w') = won →
   ∀ q, dataAt w' q = Some BombTile →
        ∃ s, tileAt w' q = Some s ∧ state s = flag ∧ isOpen s = false) ∧
  (boardState (board w) ≠ won → boardState (board w') = won →
   ∃ l,
     emitted w' = emitted w ++ l ++ [BoardStateChanged won] ∧
     ∀ q, dataAt w q = Some BombTile →
          holds (λ s, negb (isFlag (state s))) w q = true →
          TileChanged q ∈ l) ∧
  (∀ w1, wfBoard (board w1) → tilesLeftToOpenToWin (board w1) = 0 →
     ∃ w2,
       checkWin w1 = (Return tt, w2) ∧
       boardState (board w2) = won ∧
       (∀ p d s, dataAt w1 p = Some d → tileAt w1 p = Some s →
          tileAt w2 p
          = Some (if isBomb d && negb (isFlag (state s))
                  then mkTileState flag (isOpen s) (wasClicked s)
                  else s)) ∧
       emitted w2
       = emitted w1
         ++ (TileChanged <$>
               List.filter (marks isUnflaggedBomb w1)
                 (points (tileData (board w1))))
         ++ [BoardStateChanged won]) ∧
  (∀ w1, wfBoard (board w1) → 0 < tilesLeftToOpenToWin (board w1) →
     checkWin w1 = (Return tt, w1)) ∧
  ((∃ q, holds isOpen w q = false ∧ holds isOpen w' q = true) →
   (∀ q, dataAt w q = Some BombTile → holds isOpen w' q = false) →
   tilesLeftToOpenToWin (board w') = 0 →
   boardState (board w') = won).
Proof.
  intros Hreach Hstep.
  pose proof (reachable_Inv w Hreach) as HI.
  pose proof (reachable_Inv w' (step_reachable w w' Hreach Hstep)) as HI'.
  assert (∀ q, dataAt w' q = Some BombTile →
            boardState (board w') = won →
            ∃ s, tileAt w' q = Some s ∧ state s = flag ∧ isOpen s = false)
    as Hflags.
  { intros q Hq%isBombAt_true Hwon.
    by apply (proj2 (inv_won _ HI' Hwon)). }
  split_and!.
  - destruct Hstep as [w p|w p]; [apply (click_win_transition w p HI)|].
    destruct (flag_win_transition w p) as [-> ->].
    unfold activated. case_bool_decide; simpl; intuition congruence.
  - intros Hwon q Hq. by apply Hflags.
  - destruct Hstep as [w p|w p]; [apply (click_win_transition w p HI)|].
    destruct (flag_win_transition w p) as [-> _].
    unfold activated. case_bool_decide; simpl; intuition congruence.
  - intros w1 Hwf1 Hzero.
    set (pts := points (tileData (board w1))).
    exists (ended won (markEach isUnflaggedBomb flagged pts w1)).
    split_and!.
    + rewrite checkWin_run, Hzero by done. done.
    + done.
    + intros p d s Hd Hs.
      change (tileAt (ended won ?w0) p) with (tileAt w0 p).
      rewrite (markEach_here _ _ pts w1 p d s Hwf1); try done.
      * apply NoDup_points.
      * apply elem_of_points. by eapply getOrNull_inBounds.
    + simpl. rewrite markEach_emitted by apply NoDup_points.
      by rewrite <- app_assoc.
  - intros w1 Hwf1 Hpos. rewrite checkWin_run by done.
    rewrite (proj2 (Z.ltb_ge _ _)) by lia.
    by rewrite (proj2 (Z.eqb_neq _ _)) by lia.
  - intros (q & Hq0 & Hq1) Hbombs Hzero.
    destruct (decide (running w)) as [Hr|Hr]; cycle 1.
    { rewrite (step_idle w w' q Hr Hstep) in Hq1. congruence. }
    assert (tilesLeftToOpenToWin (board w) ≠ 0) as Hleft.
    { intros Hw0. unfold holds in Hq1.
      destruct (tileAt w' q) as [s'|] eqn:Hs'; [|done].
      pose proof (tileAt_inBounds _ _ _ (inv_wf _ HI') Hs') as Hin.
      assert (inBounds w q) as Hin0.
      { unfold inBounds in *. destruct Hstep as [w p|w p].
        - pose proof (clickTile_outcome w p HI) as Hout.
          destruct (clickTile p w) as [o w2]. simpl in *.
          assert (tileData (board w2) = tileData (board w)) as <-; [|done].
          assert (∀ w1 ps, cascade (activated w) w1 ps →
                    tileData (board (finish w1 ps)) = tileData (board w))
            as Hfin.
          { intros w1 ps Hc. rewrite <- (activated_tileData w),
              <- (c_tileData _ _ _ Hc). unfold finish.
            destruct (existsb _ ps); [apply (markEach_frame shouldReveal)|].
            destruct (_ =? 0); [apply (markEach_frame isUnflaggedBomb)|done]. }
          inversion Hout; subst; simpl; auto using activated_tileData.
        - rewrite changeTileState_eq in Hin. case_bool_decide; simpl in Hin;
            [|by rewrite activated_tileData in Hin].
          destruct (tileAt (activated w) p) as [s|]; simpl in Hin;
            [|by rewrite activated_tileData in Hin].
          destruct (isOpen s); simpl in Hin;
            by rewrite activated_tileData in Hin. }
      pose proof (inv_some_empty _ HI Hr Hw0 q Hin0) as Hb.
      apply isBombAt_true in Hb. specialize (Hbombs q Hb).
      unfold holds in Hbombs. rewrite Hs' in Hbombs. congruence. }
    assert (boardState (board w) ≠ won) as Hnw by by destruct Hr as [-> | ->].
    assert ((boardState (board w) ≠ won ∧ boardState (board w') = won) ↔
            (tilesLeftToOpenToWin (board w) ≠ 0 ∧
             tilesLeftToOpenToWin (board w') = 0)) as Hiff.
    { destruct Hstep as [w p|w p]; [apply (click_win_transition w p HI)|].
      destruct (flag_win_transition w p) as [_ Hl]. rewrite Hl in Hzero. done. }
    by apply Hiff.
Qed.

Lemma won_exactly_when_counter_reaches_zero_witness :
  let w := newWorld board2x1 in
  let w' := (clickTile (mkPoint 1 0) w).2 in
  reachable w ∧ step w w' ∧
  ((boardState (board w) ≠ won ∧ boardState (board w') = won) ↔
   (tilesLeftToOpenToWin (board w) ≠ 0 ∧ tilesLeftToOpenToWin (board w') = 0)) ∧
  (boardState (board w') = won →
   ∀ q, dataAt w' q = Some BombTile →
        ∃ s, tileAt w' q = Some s ∧ state s = flag ∧ isOpen s = false) ∧
  (boardState (board w) ≠ won → boardState (board w') = won →
   ∃ l,
     emitted w' = emitted w ++ l ++ [BoardStateChanged won] ∧
     ∀ q, dataAt w q = Some BombTile →
          holds (λ s, negb (isFlag (state s))) w q = true →
          TileChanged q ∈ l) ∧
  (∀ w1, wfBoard (board w1) → tilesLeftToOpenToWin (board w1) = 0 →
     ∃ w2,
       checkWin w1 = (Return tt, w2) ∧
       boardState (board w2) = won ∧
       (∀ p d s, dataAt w1 p = Some d → tileAt w1 p = Some s →
          tileAt w2 p
          = Some (if isBomb d && negb (isFlag (state s))
                  then mkTileState flag (isOpen s) (wasClicked s)
                  else s)) ∧
       emitted w2
       = emitted w1
         ++ (TileChanged <$>
               List.filter (marks isUnflaggedBomb w1)
                 (points (tileData (board w1))))
         ++ [BoardStateChanged won]) ∧
  (∀ w1, wfBoard (board w1) → 0 < tilesLeftToOpenToWin (board w1) →
     checkWin w1 = (Return tt, w1)) ∧
  ((∃ q, holds isOpen w q = false ∧ holds isOpen w' q = true) →
   (∀ q, dataAt w q = Some BombTile → holds isOpen w' q = false) →
   tilesLeftToOpenToWin (board w') = 0 →
   boardState (board w') = won).
Proof.
  intros w w'.
  assert (step w w') as Hstep by apply step_click.
  split_and!; [exact board2x1_reachable|exact Hstep|..];
    apply (won_exactly_when_counter_reaches_zero w w' board2x1_reachable Hstep).
Defined.

(** A board without an empty tile has its counter at 0 from the start.  Its
    only tile can be opened, and that loses the game: the counter was never
    brought to 0, and the board is never won. *)
Lemma board1x1_click :
  clickTile (mkPoint 0 0) (newWorld board1x1)
  = (Return tt,
     mkWorld
       (mkBoard lost (mkGrid 1 1 [BombTile])
          (mkGrid 1 1 [mkTileState default true true]) 1 0)
       [BoardStateChanged active; TileChanged (mkPoint 0 0);
        TileChanged (mkPoint 0 0); BoardStateChanged lost]
       []).
Proof. reflexivity. Qed.

(** On the two-tile board the click at (1, 0) wins the game: it opens the
    only empty tile, and the win check flags the bomb. *)
Lemma board2x1_win :
  clickTile (mkPoint 1 0) (newWorld board2x1)
  = (Return tt,
     mkWorld
       (mkBoard won (mkGrid 2 1 [BombTile; EmptyTile 1])
          (mkGrid 2 1 [mkTileState flag false false;
                       mkTileState default true true]) 1 0)
       [BoardStateChanged active; TileChanged (mkPoint 1 0);
        TileChanged (mkPoint 0 0); BoardStateChanged won]
       []).
Proof. reflexivity. Qed.

(** ** Generation *)

Lemma relativeIndex_bounds len pos :
  0 ≤ len → 0 ≤ relativeIndex len pos ≤ len.
Proof. unfold relativeIndex. destruct (pos <? 0) eqn:H; lia. Qed.

Lemma lookup_fill {T} (value : T) start finish (array : list T) i :
  fill value start finish array !! i =
  (λ a, if (relativeIndex (Z.of_nat (length array)) start <=? Z.of_nat i)
           && (Z.of_nat i <? relativeIndex (Z.of_nat (length array)) finish)
        then value else a) <$> array !! i.
Proof. unfold fill. by rewrite list_lookup_imap. Qed.

Lemma length_fill {T} (value : T) start finish (array : list T) :
  length (fill value start finish array) = length array.
Proof. unfold fill. by rewrite length_imap. Qed.

(** The two [fill] calls of [generate] overwrite every slot: the array they
    leave does not depend on what the slots held. *)
Lemma generate_array_slots (slots : list bool) (bombs : Z) :
  let n := length slots in
  let r := Z.to_nat (relativeIndex (Z.of_nat n) bombs) in
  fillFrom false bombs (fill true 0 bombs slots)
  = replicate r true ++ replicate (n - r) false.
Proof.
  intros n r. pose proof (relativeIndex_bounds (Z.of_nat n) bombs) as Hr.
  assert (relativeIndex (Z.of_nat n) 0 = 0) as H0.
  { unfold relativeIndex. simpl. lia. }
  assert (relativeIndex (Z.of_nat n) (Z.of_nat n) = Z.of_nat n) as Hn.
  { unfold relativeIndex. destruct (Z.of_nat n <? 0) eqn:H; lia. }
  apply list_eq. intros i. unfold fillFrom.
  rewrite lookup_fill, length_fill, lookup_fill. fold n. rewrite H0, Hn.
  destruct (decide (i < n)%nat) as [Hi|Hi].
  - destruct (lookup_lt_is_Some_2 slots i Hi) as [a ->].
    cbn [fmap option_fmap option_map].
    rewrite (proj2 (Z.leb_le 0 (Z.of_nat i))) by lia.
    rewrite (proj2 (Z.ltb_lt (Z.of_nat i) (Z.of_nat n))) by lia.
    rewrite andb_true_l, andb_true_r.
    destruct (decide (i < r)%nat) as [Hir|Hir].
    + rewrite lookup_app_l by (rewrite length_replicate; lia).
      rewrite lookup_replicate_2 by lia.
      rewrite (proj2 (Z.leb_gt (relativeIndex (Z.of_nat n) bombs) (Z.of_nat i)))
        by lia.
      by rewrite (proj2 (Z.ltb_lt (Z.of_nat i) (relativeIndex (Z.of_nat n) bombs)))
        by lia.
    + rewrite lookup_app_r by (rewrite length_replicate; lia).
      rewrite length_replicate, lookup_replicate_2 by lia.
      by rewrite (proj2 (Z.leb_le (relativeIndex (Z.of_nat n) bombs) (Z.of_nat i)))
        by lia.
  - rewrite (lookup_ge_None_2 slots) by (fold n; lia). simpl.
    rewrite lookup_ge_None_2; [done|].
    rewrite length_app, !length_replicate. lia.
Qed.

Lemma filter_replicate_true n m :
  List.filter (λ isBomb : bool, isBomb) (replicate n true ++ replicate m false)
  = replicate n true.
Proof.
  induction n as [|n IH]; simpl; [|by rewrite IH].
  induction m as [|m IH]; simpl; done.
Qed.

Section Shuffle.
Context {T : Type}.
Variable P : T → bool.

Lemma filter_insert_length (l : list T) i a b :
  l !! i = Some a →
  (length (List.filter P (<[ i := b ]> l)) + (if P a then 1 else 0)
   = length (List.filter P l) + (if P b then 1 else 0))%nat.
Proof.
  revert i. induction l as [|c l IH]; intros [|i] Hi; simplify_eq/=.
  - destruct (P a), (P b); simpl; lia.
  - specialize (IH i Hi). destruct (P c); simpl; lia.
Qed.

Lemma swap_length (l : list T) i j : length (swap l i j) = length l.
Proof.
  unfold swap. destruct (l !! j), (l !! i); try done.
  by rewrite !length_insert.
Qed.

Lemma swap_count (l : list T) i j :
  length (List.filter P (swap l i j)) = length (List.filter P l).
Proof.
  unfold swap. destruct (l !! j) as [aj|] eqn:Hj; [|done].
  destruct (l !! i) as [ai|] eqn:Hi; [|done].
  pose proof (filter_insert_length l i ai aj Hi) as H1.
  assert (<[ i := aj ]> l !! j = Some aj) as Hj'.
  { destruct (decide (i = j)) as [->|Hne].
    - apply list_lookup_insert_eq. by eapply lookup_lt_Some.
    - by rewrite list_lookup_insert_ne. }
  pose proof (filter_insert_length _ j aj ai Hj') as H2. lia.
Qed.

Lemma shuffleLoop_length random call i (l : list T) :
  length (shuffleLoop random call i l) = length l.
Proof.
  revert call l. induction i as [|i IH]; intros call l; [done|].
  simpl. by rewrite IH, swap_length.
Qed.

Lemma shuffleLoop_count random call i (l : list T) :
  length (List.filter P (shuffleLoop random call i l))
  = length (List.filter P l).
Proof.
  revert call l. induction i as [|i IH]; intros call l; [done|].
  simpl. by rewrite IH, swap_count.
Qed.

End Shuffle.

(** [Math.floor(Math.random() * (i + 1))] is one of [0 .. i]: the swap of
    [shuffleArray] stays inside the array. *)
Lemma randomIndex_le (r : Q) (i : nat) :
  (0 <= r)%Q → (r < 1)%Q → (randomIndex r i ≤ i)%nat.
Proof.
  intros H0 H1. unfold randomIndex.
  assert (Qfloor (r * inject_Z (Z.of_nat i + 1)) < Z.of_nat i + 1); [|lia].
  rewrite Zlt_Qlt.
  apply (Qle_lt_trans _ (r * inject_Z (Z.of_nat i + 1))); [apply Qfloor_le|].
  rewrite <- (Qmult_1_l (inject_Z (Z.of_nat i + 1))) at 2.
  apply Qmult_lt_compat_r; [|done].
  unfold Qlt. simpl. lia.
Qed.

Lemma filter_length_pointwise {A B} (f : A → bool) (g : B → bool)
    (l : list A) (k : list B) :
  length l = length k →
  (∀ i a, l !! i = Some a → ∃ b, k !! i = Some b ∧ g b = f a) →
  length (List.filter g k) = length (List.filter f l).
Proof.
  revert k. induction l as [|a l IH]; intros [|b k] Hlen Hall; simplify_eq/=;
    [done|].
  destruct (Hall 0%nat a eq_refl) as (b' & Hb' & Hg). simpl in Hb'.
  injection Hb' as <-. rewrite Hg.
  assert (length (List.filter g k) = length (List.filter f l)) as Hrest.
  { apply IH; [done|]. intros i a' Ha'. apply (Hall (S i) a' Ha'). }
  destruct (f a); simpl; by rewrite Hrest.
Qed.

(** C8, as the code has it: generation.  For positive dimensions, a bomb
    count strictly between 0 and the number of tiles, and whatever
    [Math.random] returns: when the number of tiles is an array length, below [2 ^ 32],
    [generate] returns a board of these dimensions, not started, whose
    [bombCount] is the count asked for, with exactly that many bomb tiles,
    the counter at the number of the other tiles, and on every empty tile
    the number of bombs among its eight neighbours that are on the board;
    every index that the shuffle draws for a position [i] is one of
    [0 .. i].  When the number of tiles is [2 ^ 32] or more, [generate]
    throws the [RangeError] of [new Array]. *)
Theorem generate_board random w h bombs :
  0 < w → 0 < h → 0 < bombs < w * h →
  (∀ k, (0 <= random k)%Q ∧ (random k < 1)%Q) →
  (w * h < 2 ^ 32 →
   ∃ b,
     generate random w h bombs = Return b ∧
     bombCount b = bombs ∧
     Z.of_nat (length (List.filter isBomb (array (tileData b)))) = bombs ∧
     (∀ p n, getOrNull (tileData b) p = Some (EmptyTile n) →
        n = length (List.filter
                      (λ q, isInBounds (tileData b) q && isBombAt (tileData b) q)
                      (eightWayNeighbors p))) ∧
     wfBoard b ∧
     width (tileData b) = w ∧ height (tileData b) = h ∧
     boardState b = not_started ∧
     tilesLeftToOpenToWin b = w * h - bombs ∧
     ∀ call i, (randomIndex (random call) i ≤ i)%nat) ∧
  (2 ^ 32 ≤ w * h → generate random w h bombs = Throw RangeError).
Proof.
  intros Hw Hh Hb Hrandom. split; cycle 1.
  { intros Hmax. unfold generate.
    rewrite (proj2 (Z.leb_le (2 ^ 32) (w * h))) by done.
    by rewrite orb_true_r. }
  intros Hmax.
  set (n := Z.to_nat (w * h)).
  set (bombsArray :=
         shuffleArray random
           (fillFrom false bombs (fill true 0 bombs (replicate n false)))).
  assert (length bombsArray = n) as Hlen.
  { unfold bombsArray, shuffleArray.
    rewrite shuffleLoop_length, generate_array_slots.
    rewrite length_app, !length_replicate.
    pose proof (relativeIndex_bounds (Z.of_nat n) bombs). lia. }
  assert (length (List.filter (λ isBomb : bool, isBomb) bombsArray)
          = Z.to_nat bombs) as Hcount.
  { unfold bombsArray, shuffleArray.
    rewrite shuffleLoop_count, generate_array_slots, filter_replicate_true.
    rewrite !length_replicate. unfold relativeIndex.
    rewrite (proj2 (Z.ltb_ge bombs 0)) by lia. lia. }
  assert (Z.of_nat (length bombsArray) = w * h) as Hsize by lia.
  destruct (newBoard_spec w h bombsArray Hw Hh Hsize)
    as (dataArray & Hrun & Hlen' & Hpoint & Hindex).
  set (b := mkBoard not_started (mkGrid w h dataArray)
              (mkGrid w h (replicate (Z.to_nat (w * h))
                             (mkTileState default false false)))
              (Z.of_nat (length (List.filter (λ isBomb : bool, isBomb) bombsArray)))
              (w * h
               - Z.of_nat (length (List.filter (λ isBomb : bool, isBomb)
                                     bombsArray)))) in *.
  pose proof (newBoard_Inv _ _ _ _ Hrun) as HI.
  exists b. split_and!.
  - unfold generate. rewrite (proj2 (Z.ltb_ge (w * h) 0)) by lia.
    rewrite (proj2 (Z.leb_gt (2 ^ 32) (w * h))) by lia.
    cbn [bindO orb]. fold n. fold bombsArray. exact Hrun.
  - unfold b. cbn [bombCount]. rewrite Hcount. lia.
  - unfold b. cbn [tileData array].
    rewrite (filter_length_pointwise (λ isBomb : bool, isBomb) isBomb
               bombsArray dataArray); [lia|done|].
    intros i v Hv. destruct (Hindex i v Hv) as (d & Hd & Hbomb). eauto.
  - intros p k Hp.
    pose proof (inv_data _ HI p k Hp) as Hk.
    change (tileData (board (newWorld b))) with (tileData b) in Hk.
    rewrite Hk at 1. f_equal. apply List.filter_ext. intros q.
    destruct (isBombAt (tileData b) q) eqn:Hq; [|by rewrite andb_false_r].
    by rewrite (isBombAt_inBounds _ _ Hq).
  - apply HI.
  - done.
  - done.
  - done.
  - unfold b. cbn [tilesLeftToOpenToWin]. rewrite Hcount. lia.
  - intros call i. apply randomIndex_le; apply Hrandom.
Qed.

Lemma generate_board_witness :
  let random := λ _ : nat, (1 # 2)%Q in
  0 < 3 ∧ 0 < 2 ∧ 0 < 2 < 3 * 2 ∧
  (∀ k, (0 <= random k)%Q ∧ (random k < 1)%Q) ∧
  3 * 2 < 2 ^ 32 ∧
  (3 * 2 < 2 ^ 32 →
   ∃ b,
     generate random 3 2 2 = Return b ∧
     bombCount b = 2 ∧
     Z.of_nat (length (List.filter isBomb (array (tileData b)))) = 2 ∧
     (∀ p n, getOrNull (tileData b) p = Some (EmptyTile n) →
        n = length (List.filter
                      (λ q, isInBounds (tileData b) q && isBombAt (tileData b) q)
                      (eightWayNeighbors p))) ∧
     wfBoard b ∧
     width (tileData b) = 3 ∧ height (tileData b) = 2 ∧
     boardState b = not_started ∧
     tilesLeftToOpenToWin b = 3 * 2 - 2 ∧
     ∀ call i, (randomIndex (random call) i ≤ i)%nat) ∧
  (2 ^ 32 ≤ 3 * 2 → generate random 3 2 2 = Throw RangeError).
Proof.
  intros random.
  assert (0 < 3) as Hw by lia.
  assert (0 < 2) as Hh by lia.
  assert (0 < 2 < 3 * 2) as Hb by lia.
  assert (∀ k, (0 <= random k)%Q ∧ (random k < 1)%Q) as Hrandom.
  { intros k. split; reflexivity || (unfold Qle; simpl; lia). }
  assert (3 * 2 < 2 ^ 32) as Hmax by reflexivity.
  split_and!; [exact Hw|exact Hh|apply Hb|apply Hb|exact Hrandom|exact Hmax|..];
    apply (generate_board random 3 2 2 Hw Hh Hb Hrandom).
Defined.

(** For a board of [2 ^ 32] tiles the dimensions are positive and one bomb
    is fewer than the tiles, yet [generate] throws and returns no board. *)
Lemma generate_beyond_array_length :
  let random := λ _ : nat, 0%Q in
  0 < 65536 ∧ 0 < 1 < 65536 * 65536 ∧
  (∀ k, (0 <= random k)%Q ∧ (random k < 1)%Q) ∧
  generate random 65536 65536 1 = Throw RangeError ∧
  ¬ ∃ b, generate random 65536 65536 1 = Return b.
Proof.
  intros random.
  assert (generate random 65536 65536 1 = Throw RangeError) as Hthrow.
  { unfold generate.
    replace ((65536 * 65536 <? 0) || (2 ^ 32 <=? 65536 * 65536)) with true
      by reflexivity.
    reflexivity. }
  split_and!; [reflexivity|reflexivity|reflexivity| |exact Hthrow|].
  - intros k. split; [discriminate|reflexivity].
  - rewrite Hthrow. by intros [b Hb].
Qed.

(** * Properties of the rest of the code *)

(** ** lib/grid *)

(** X1: the eight neighbours.  [eightWayNeighbors p] yields eight points,
    all different: exactly the points other than [p] whose two coordinates
    differ from those of [p] by at most 1.  Being a neighbour is symmetric. *)
Theorem eightWayNeighbors_spec p q :
  (q ∈ eightWayNeighbors p ↔
   q ≠ p ∧ Z.abs (x q - x p) ≤ 1 ∧ Z.abs (y q - y p) ≤ 1) ∧
  length (eightWayNeighbors p) = 8%nat ∧
  NoDup (eightWayNeighbors p) ∧
  (q ∈ eightWayNeighbors p ↔ p ∈ eightWayNeighbors q).
Proof.
  split_and!.
  - apply elem_of_eightWayNeighbors.
  - done.
  - unfold eightWayNeighbors. destruct p as [px py]. simpl.
    repeat (apply NoDup_cons; split;
            [rewrite ?elem_of_cons, elem_of_nil; intros H;
             repeat destruct H as [H|H]; try done; injection H; lia|]).
    apply NoDup_nil_2.
  - rewrite !elem_of_eightWayNeighbors. split; intros (Hne & Hx & Hy);
      (split; [congruence|lia]).
Qed.

(** X2: the constructor of [Grid] and [get].  The constructor returns
    exactly for a positive width, a positive height and an array of
    [width * height] elements, and throws the first failed assertion
    otherwise.  On the grid it returns, [getOrNull] returns the element at
    index [x + width * y] for a point with [0 <= x < width] and
    [0 <= y < height], and [get] returns it as well unless it is [null];
    [get] throws for an element that is [null] and for every other point,
    where [getOrNull] returns [null]. *)
Theorem newGrid_get {T} `{Nullable T} (width height : Z) (array : list T) :
  (∀ g, newGrid width height array = Return g ↔
        0 < width ∧ 0 < height ∧ Z.of_nat (length array) = width * height ∧
        g = mkGrid width height array) ∧
  (width ≤ 0 →
   newGrid width height array
   = Throw (AssertionError "Width should be greater than zero")) ∧
  (0 < width → height ≤ 0 →
   newGrid width height array
   = Throw (AssertionError "Height should be greater than zero")) ∧
  (0 < width → 0 < height → Z.of_nat (length array) ≠ width * height →
   newGrid width height array
   = Throw (AssertionError
              "Size of the array should be equal to the size of the grid")) ∧
  (∀ g p, newGrid width height array = Return g →
     if bool_decide (0 ≤ x p < width ∧ 0 ≤ y p < height)
     then ∃ v, array !! Z.to_nat (x p + width * y p) = Some v ∧
               getOrNull g p = Some v ∧
               get g p = if isNull v then Throw (OutOfBoundsError p)
                         else Return v
     else get g p = Throw (OutOfBoundsError p) ∧ getOrNull g p = None).
Proof.
  assert (∀ g, newGrid width height array = Return g →
            0 < width ∧ 0 < height ∧ Z.of_nat (length array) = width * height ∧
            g = mkGrid width height array) as Hret.
  { intros g. unfold newGrid, assert.
    destruct (0 <? width) eqn:Hw; [|done].
    destruct (0 <? height) eqn:Hh; [|done].
    destruct (Z.of_nat (length array) =? width * height) eqn:Hlen; [|done].
    simpl. intros [= <-].
    apply Z.ltb_lt in Hw, Hh. apply Z.eqb_eq in Hlen. done. }
  split_and!.
  - intros g. split; [apply Hret|]. intros (Hw & Hh & Hlen & ->).
    by apply newGrid_Return.
  - intros Hw. unfold newGrid, assert.
    by rewrite (proj2 (Z.ltb_ge 0 width)) by lia.
  - intros Hw Hh. unfold newGrid, assert.
    rewrite (proj2 (Z.ltb_lt 0 width)) by lia.
    by rewrite (proj2 (Z.ltb_ge 0 height)) by lia.
  - intros Hw Hh Hlen. unfold newGrid, assert.
    rewrite (proj2 (Z.ltb_lt 0 width)), (proj2 (Z.ltb_lt 0 height)) by lia.
    by rewrite (proj2 (Z.eqb_neq _ _)) by done.
  - intros g p (Hw & Hh & Hlen & ->)%Hret.
    set (g := mkGrid width height array).
    assert (wfGrid g) as Hwf by done.
    case_bool_decide as Hp.
    + assert (isInBounds g p = true) as Hin by by apply isInBounds_true.
      destruct (getOrNull_is_Some g p Hwf Hin) as [v Hv].
      exists v. unfold get. rewrite Hv. split_and!; try done.
      by rewrite getOrNull_lookup in Hv.
    + assert (isInBounds g p = false) as Hout.
      { destruct (isInBounds g p) eqn:Hin; [|done].
        by apply isInBounds_true in Hin. }
      unfold get. by rewrite (getOrNull_out g p Hout).
Qed.

(** X3: [points] is the row-major order of the array.  A grid has
    [height * width] points, all different, and they are the points in
    bounds; the point at position [i] of [points] is the one whose array
    index is [i]. *)
Theorem points_row_major {T} (g : Grid T) :
  length (points g) = (Z.to_nat (height g) * Z.to_nat (width g))%nat ∧
  NoDup (points g) ∧
  (∀ p, p ∈ points g ↔ isInBounds g p = true) ∧
  (∀ (i : nat) p,
     points g !! i = Some p ↔ pointToArrayIndex g p = Some (Z.of_nat i)).
Proof.
  split_and!.
  - apply length_points.
  - apply NoDup_points.
  - intros p. apply elem_of_points.
  - intros i p. unfold pointToArrayIndex. split.
    + intros Hi. pose proof (list_elem_of_lookup_2 _ _ _ Hi) as Hp.
      apply elem_of_points in Hp. rewrite Hp.
      pose proof (points_lookup g p Hp) as Hidx.
      pose proof (NoDup_lookup _ _ _ _ (NoDup_points g) Hi Hidx) as ->.
      apply isInBounds_true in Hp. f_equal. nia.
    + destruct (isInBounds g p) eqn:Hp; [|done]. intros [= Hi].
      rewrite <- (points_lookup g p Hp). f_equal. lia.
Qed.

Lemma relativeIndex_inside len pos : 0 ≤ pos ≤ len → relativeIndex len pos = pos.
Proof. intros H. unfold relativeIndex. rewrite (proj2 (Z.ltb_ge pos 0)); lia. Qed.

Lemma slice_row {T} (array : list T) (w : nat) (i : nat) :
  (i * w + w ≤ length array)%nat →
  slice array (Z.of_nat i * Z.of_nat w) ((Z.of_nat i + 1) * Z.of_nat w)
  = take w (drop (i * w) array).
Proof.
  intros Hi. unfold slice. rewrite !relativeIndex_inside by nia.
  f_equal; [lia|f_equal; lia].
Qed.

Lemma lines_eq {T} (g : Grid T) :
  wfGrid g →
  lines g
  = (λ i : nat, take (Z.to_nat (width g)) (drop (i * Z.to_nat (width g)) (array g)))
      <$> seq 0 (Z.to_nat (height g)).
Proof.
  intros (Hw & Hh & Hlen). unfold lines, seqZ. rewrite <- list_fmap_compose.
  apply list_fmap_ext. intros k i Hi%lookup_seq. simpl in *.
  destruct Hi as [-> Hi]. rewrite Z.add_0_r.
  rewrite <- (slice_row (array g) (Z.to_nat (width g)) k) by nia.
  by rewrite !Z2Nat.id by lia.
Qed.

Lemma concat_rows {T} (l : list T) (w n : nat) :
  concat ((λ i : nat, take w (drop (i * w) l)) <$> seq 0 n) = take (n * w) l.
Proof.
  induction n as [|n IH]; [done|].
  rewrite seq_S, fmap_app, concat_app, IH. simpl.
  rewrite app_nil_r, take_take_drop. f_equal. lia.
Qed.

(** X4: [lines].  On a grid as the constructor builds it, [lines] yields
    [height] rows of [width] elements each; put one after the other they are
    the array, and the element at position [x] of row [y] is the one that
    [getOrNull] finds at the point [(x, y)]. *)
Theorem lines_rows {T} (g : Grid T) :
  wfGrid g →
  length (lines g) = Z.to_nat (height g) ∧
  (∀ row, row ∈ lines g → length row = Z.to_nat (width g)) ∧
  concat (lines g) = array g ∧
  (∀ p, isInBounds g p = true →
        lines g !! Z.to_nat (y p) ≫= (λ row, row !! Z.to_nat (x p))
        = getOrNull g p).
Proof.
  intros Hwf. rewrite (lines_eq g Hwf). destruct Hwf as (Hw & Hh & Hlen).
  split_and!.
  - by rewrite length_fmap, length_seq.
  - intros row (i & -> & Hi)%list_elem_of_fmap. apply elem_of_seq in Hi.
    rewrite length_take, length_drop. nia.
  - rewrite concat_rows. apply take_ge. nia.
  - intros p Hp. rewrite getOrNull_lookup by done.
    apply isInBounds_true in Hp.
    rewrite list_lookup_fmap, lookup_seq_lt by lia. simpl.
    rewrite lookup_take_lt by lia. rewrite lookup_drop. f_equal. nia.
Qed.

Lemma lines_rows_witness :
  let g := mkGrid 2 2 [1; 2; 3; 4] in
  wfGrid g ∧
  length (lines g) = Z.to_nat (height g) ∧
  (∀ row, row ∈ lines g → length row = Z.to_nat (width g)) ∧
  concat (lines g) = array g ∧
  (∀ p, isInBounds g p = true →
        lines g !! Z.to_nat (y p) ≫= (λ row, row !! Z.to_nat (x p))
        = getOrNull g p).
Proof.
  intros g. assert (wfGrid g) as Hwf by (vm_compute; intuition congruence).
  split; [exact Hwf|]. exact (lines_rows g Hwf).
Defined.

Lemma forEachPoint_values {T S} `{Nullable T} (g : Grid T)
    (action : T → S → S) l vs s :
  Forall2 (λ p v, getOrNull g p = Some v) l vs →
  Forall (λ v, isNull v = false) vs →
  forEachPoint g action l s = (Return tt, foldl (λ s0 v, action v s0) s vs).
Proof.
  intros Hall. revert s.
  induction Hall as [|p v l vs Hv _ IH]; intros s Hnull; [done|].
  apply Forall_cons in Hnull as [Hnull Hrest].
  simpl. unfold get. rewrite Hv, Hnull. by apply IH.
Qed.

Lemma forEachPoint_null {T S} `{Nullable T} (g : Grid T)
    (action : T → S → S) l vs s i p v :
  Forall2 (λ p v, getOrNull g p = Some v) l vs →
  l !! i = Some p → vs !! i = Some v → isNull v = true →
  Forall (λ v, isNull v = false) (take i vs) →
  forEachPoint g action l s
  = (Throw (OutOfBoundsError p), foldl (λ s0 v, action v s0) s (take i vs)).
Proof.
  intros Hall. revert s i.
  induction Hall as [|q u l vs Hu _ IH]; intros s i Hp Hv Hnull Hbefore;
    [done|].
  destruct i as [|i]; simpl in *.
  - simplify_eq. unfold get. by rewrite Hu, Hnull.
  - apply Forall_cons in Hbefore as [Hq Hbefore].
    unfold get. rewrite Hu, Hq. by apply IH.
Qed.

Lemma points_values {T} (g : Grid T) :
  wfGrid g → Forall2 (λ p v, getOrNull g p = Some v) (points g) (array g).
Proof.
  intros Hwf. apply Forall2_same_length_lookup. split.
  - rewrite length_points. destruct Hwf as (? & ? & ?). nia.
  - intros i p v Hp Hv.
    pose proof (list_elem_of_lookup_2 _ _ _ Hp) as Hin.
    apply elem_of_points in Hin.
    pose proof (NoDup_lookup _ _ _ _ (NoDup_points g) Hp (points_lookup g p Hin))
      as Hi.
    rewrite getOrNull_lookup by done. by rewrite <- Hi.
Qed.

(** X5: [forEach].  On a grid as the constructor builds it and that holds
    no [null], [forEach] returns and has run the action once on every
    element of the array, from the first to the last.  On a grid that holds
    a [null] it runs the action on the elements before the first [null], in
    this order, and then throws the error of [get] for the point of that
    [null]. *)
Theorem Grid_forEach_visits_array {T S} `{Nullable T} (g : Grid T)
    (action : T → S → S) (s : S) :
  wfGrid g →
  (Forall (λ v, isNull v = false) (array g) →
   Grid_forEach g action s
   = (Return tt, foldl (λ s0 v, action v s0) s (array g))) ∧
  (∀ i v, array g !! i = Some v → isNull v = true →
     Forall (λ v, isNull v = false) (take i (array g)) →
     ∃ p, points g !! i = Some p ∧ getOrNull g p = Some v ∧
          Grid_forEach g action s
          = (Throw (OutOfBoundsError p),
             foldl (λ s0 v, action v s0) s (take i (array g)))).
Proof.
  intros Hwf. pose proof (points_values g Hwf) as Hall. split.
  - intros Hnull. by apply forEachPoint_values.
  - intros i v Hv Hnull Hbefore.
    destruct (Forall2_lookup_r _ _ _ _ _ Hall Hv) as (p & Hp & Hget).
    exists p. split_and!; [done..|].
    by apply (forEachPoint_null g action _ (array g) s i p v).
Qed.

Lemma Grid_forEach_visits_array_witness :
  let g := mkGrid 2 2 [Some 1; Some 2; None; Some 4] in
  let action := λ (v : option Z) (s : list (option Z)), s ++ [v] in
  wfGrid g ∧
  (Forall (λ v, isNull v = false) (array g) →
   Grid_forEach g action []
   = (Return tt, foldl (λ s0 v, action v s0) [] (array g))) ∧
  (∀ i v, array g !! i = Some v → isNull v = true →
     Forall (λ v, isNull v = false) (take i (array g)) →
     ∃ p, points g !! i = Some p ∧ getOrNull g p = Some v ∧
          Grid_forEach g action []
          = (Throw (OutOfBoundsError p),
             foldl (λ s0 v, action v s0) [] (take i (array g)))) ∧
  Grid_forEach g action []
  = (Throw (OutOfBoundsError (mkPoint 0 1)), [Some 1; Some 2]).
Proof.
  intros g action.
  assert (wfGrid g) as Hwf by (vm_compute; intuition congruence).
  split; [exact Hwf|].
  refine (let Hall := Grid_forEach_visits_array g action [] Hwf in
          conj (proj1 Hall) (conj (proj2 Hall) _)).
  reflexivity.
Defined.

(** X6: [mapIndexed].  On a grid as the constructor builds it and that
    holds no [null], [mapIndexed] returns a grid of the same width and
    height that the constructor accepts, and at every point it holds the
    transform of the point and of the value that the first grid holds
    there; [get] on the new grid returns that transform unless it is
    [null].  On a grid that holds a [null], [mapIndexed] throws the error of
    [get] for a point that holds one. *)
Theorem mapIndexed_get {T R} `{Nullable T} `{Nullable R} (g : Grid T)
    (transform : Point → T → R) :
  wfGrid g →
  (Forall (λ v, isNull v = false) (array g) →
   ∃ g', mapIndexed g transform = Return g' ∧
         width g' = width g ∧ height g' = height g ∧ wfGrid g' ∧
         (∀ p, getOrNull g' p = transform p <$> getOrNull g p) ∧
         (∀ p, get g' p
               = match getOrNull g p with
                 | Some v =>
                     if isNull (transform p v)
                     then Throw (OutOfBoundsError p)
                     else Return (transform p v)
                 | None => Throw (OutOfBoundsError p)
                 end)) ∧
  (¬ Forall (λ v, isNull v = false) (array g) →
   ∃ p v, getOrNull g p = Some v ∧ isNull v = true ∧
          mapIndexed g transform = Throw (OutOfBoundsError p)).
Proof.
  intros Hwf. split; cycle 1.
  { intros Hnull%not_Forall_Exists; [|intros v; apply _].
    destruct (arrayFrom_Throw
      (λ point, let+ value := get g point in Return (transform point value))
      (points g)) as (p & e & Hp & He & Hrun).
    - intros p _. unfold get.
      destruct (getOrNull g p) as [v|]; [|done]. by destruct (isNull v).
    - apply Exists_exists in Hnull as (v & Hv & Hnull).
      apply list_elem_of_lookup_1 in Hv as [i Hi].
      destruct (Forall2_lookup_r _ _ _ _ _ (points_values g Hwf) Hi)
        as (p & Hp & Hget).
      exists p. split; [by eapply list_elem_of_lookup_2|].
      unfold get. rewrite Hget. simpl in Hnull.
      destruct (isNull v); [by eexists|done].
    - apply elem_of_points in Hp.
      destruct (getOrNull_is_Some g p Hwf Hp) as [v Hv].
      unfold get in He. rewrite Hv in He.
      destruct (isNull v) eqn:Hnv; [|done]. simpl in He. simplify_eq.
      exists p, v. split_and!; [done..|].
      unfold mapIndexed. by rewrite Hrun. }
  intros Hnull.
  destruct (mapIndexed_Return g transform Hwf)
    as (newArray & Hrun & Hlen & Hpoint & _).
  { intros v Hv. by eapply Forall_forall in Hnull. }
  set (g' := mkGrid (width g) (height g) newArray) in *.
  assert (wfGrid g') as Hwf'.
  { destruct Hwf as (? & ? & ?). split_and!; simpl; [done..|]. by rewrite Hlen. }
  assert (∀ p, getOrNull g' p = transform p <$> getOrNull g p) as Hget.
  { intros p. destruct (getOrNull g p) as [v|] eqn:Hv; simpl.
    - by apply Hpoint.
    - apply getOrNull_out. change (isInBounds g' p) with (isInBounds g p).
      destruct (isInBounds g p) eqn:Hp; [|done].
      destruct (getOrNull_is_Some g p Hwf Hp). congruence. }
  exists g'. split_and!; try done.
  intros p. unfold get. rewrite Hget. by destruct (getOrNull g p).
Qed.

Lemma mapIndexed_get_witness :
  let g := mkGrid 2 2 [1; 2; 3; 4] in
  let transform :=
    λ (p : Point) (v : Z), if v =? 3 then None else Some (x p + v) in
  wfGrid g ∧
  (Forall (λ v, isNull v = false) (array g) →
   ∃ g', mapIndexed g transform = Return g' ∧
         width g' = width g ∧ height g' = height g ∧ wfGrid g' ∧
         (∀ p, getOrNull g' p = transform p <$> getOrNull g p) ∧
         (∀ p, get g' p
               = match getOrNull g p with
                 | Some v =>
                     if isNull (transform p v)
                     then Throw (OutOfBoundsError p)
                     else Return (transform p v)
                 | None => Throw (OutOfBoundsError p)
                 end)) ∧
  mapIndexed g transform
  = Return (mkGrid 2 2 [Some 1; Some 3; None; Some 5]) ∧
  mapIndexed (mkGrid 2 2 [Some 1; None; Some 3; None])
    (λ (p : Point) (v : option Z), v)
  = Throw (OutOfBoundsError (mkPoint 1 0)).
Proof.
  intros g transform.
  assert (wfGrid g) as Hwf by (vm_compute; intuition congruence).
  split; [exact Hwf|]. split; [|split; reflexivity].
  exact (proj1 (mapIndexed_get g transform Hwf)).
Defined.

(** ** utils/shuffle-array and the construction of boards *)

Lemma swap_Permutation {T} (l : list T) i j : swap l i j ≡ₚ l.
Proof.
  unfold swap. destruct (l !! j) as [aj|] eqn:Hj; [|done].
  destruct (l !! i) as [ai|] eqn:Hi; [|done].
  by apply Permutation_insert_swap.
Qed.

Lemma shuffleLoop_Permutation {T} random call i (l : list T) :
  shuffleLoop random call i l ≡ₚ l.
Proof.
  revert call l. induction i as [|i IH]; intros call l; [done|].
  simpl. by rewrite IH, swap_Permutation.
Qed.

(** X7: [shuffleArray] permutes.  Whatever numbers in [0, 1) [Math.random]
    returns, the shuffled array holds the elements of the given one, each as
    often as before; an array of at most one element is returned as it is. *)
Theorem shuffleArray_permutes {T} (random : nat → Q) (array : list T) :
  (∀ call, (0 <= random call)%Q ∧ (random call < 1)%Q) →
  shuffleArray random array ≡ₚ array ∧
  length (shuffleArray random array) = length array ∧
  ((length array ≤ 1)%nat → shuffleArray random array = array).
Proof.
  intros _. unfold shuffleArray. split_and!.
  - apply shuffleLoop_Permutation.
  - apply shuffleLoop_length.
  - intros Hlen. by replace (length array - 1)%nat with 0%nat by lia.
Qed.

Lemma shuffleArray_permutes_witness :
  let random := λ _ : nat, (1 # 2)%Q in
  let array := [1; 2; 3] in
  (∀ call, (0 <= random call)%Q ∧ (random call < 1)%Q) ∧
  shuffleArray random array ≡ₚ array ∧
  length (shuffleArray random array) = length array ∧
  ((length array ≤ 1)%nat → shuffleArray random array = array).
Proof.
  intros random array.
  assert (∀ call, (0 <= random call)%Q ∧ (random call < 1)%Q) as Hrandom.
  { intros k. split; reflexivity || (unfold Qle; simpl; lia). }
  split; [exact Hrandom|]. exact (shuffleArray_permutes random array Hrandom).
Defined.

(** What [generate] passes to the constructor. *)
Lemma generate_newBoard random w h bombs :
  0 ≤ w * h < 2 ^ 32 →
  ∃ bombsArray,
    generate random w h bombs = newBoard w h bombsArray ∧
    Z.of_nat (length bombsArray) = w * h ∧
    Z.of_nat (length (List.filter (λ isBomb : bool, isBomb) bombsArray))
    = relativeIndex (w * h) bombs.
Proof.
  intros [Hsize Hmax]. set (n := Z.to_nat (w * h)).
  exists (shuffleArray random
            (fillFrom false bombs (fill true 0 bombs (replicate n false)))).
  pose proof (relativeIndex_bounds (w * h) bombs Hsize) as Hr.
  split_and!.
  - unfold generate. rewrite (proj2 (Z.ltb_ge (w * h) 0)) by lia.
    by rewrite (proj2 (Z.leb_gt (2 ^ 32) (w * h))) by lia.
  - unfold shuffleArray.
    rewrite shuffleLoop_length, generate_array_slots.
    rewrite length_app, !length_replicate.
    replace (Z.of_nat n) with (w * h) by lia. lia.
  - unfold shuffleArray.
    rewrite shuffleLoop_count, generate_array_slots, filter_replicate_true.
    rewrite !length_replicate.
    replace (Z.of_nat n) with (w * h) by lia. lia.
Qed.

(** X8: when [generate] returns.  For dimensions whose product is an array
    length that [new Array] accepts or a negative number, [generate] returns
    a board exactly when the width and the height are positive.  It throws
    the [RangeError] of [new Array] for a negative product, else the
    assertion of the constructor on the width when the width is not
    positive, else the one on the height. *)
Theorem generate_rejects random w h bombs :
  w * h < 2 ^ 32 →
  ((∃ b, generate random w h bombs = Return b) ↔ 0 < w ∧ 0 < h) ∧
  (w * h < 0 → generate random w h bombs = Throw RangeError) ∧
  (0 ≤ w * h → w ≤ 0 →
   generate random w h bombs
   = Throw (AssertionError "Width should be greater than zero")) ∧
  (0 < w → h = 0 →
   generate random w h bombs
   = Throw (AssertionError "Height should be greater than zero")).
Proof.
  intros Hmax.
  assert (w * h < 0 → generate random w h bombs = Throw RangeError) as Hneg.
  { intros Hs. unfold generate. by rewrite (proj2 (Z.ltb_lt (w * h) 0)) by lia. }
  assert (0 ≤ w * h → w ≤ 0 →
          generate random w h bombs
          = Throw (AssertionError "Width should be greater than zero")) as Hwidth.
  { intros Hs Hw. destruct (generate_newBoard random w h bombs)
      as (bombsArray & -> & _); [done|].
    unfold newBoard, assert. by rewrite (proj2 (Z.ltb_ge 0 w)) by lia. }
  assert (0 < w → h = 0 →
          generate random w h bombs
          = Throw (AssertionError "Height should be greater than zero"))
    as Hheight.
  { intros Hw ->. destruct (generate_newBoard random w 0 bombs)
      as (bombsArray & -> & _); [lia|].
    unfold newBoard, assert. by rewrite (proj2 (Z.ltb_lt 0 w)) by lia. }
  split_and!; try done.
  split.
  - intros [b Hb].
    destruct (Z.lt_ge_cases (w * h) 0) as [Hs|Hs]; [by rewrite Hneg in Hb|].
    destruct (Z.lt_ge_cases 0 w) as [Hw|Hw]; [|by rewrite Hwidth in Hb].
    destruct (Z.lt_ge_cases 0 h) as [Hh|Hh]; [done|].
    assert (h = 0) as -> by nia. by rewrite Hheight in Hb.
  - intros [Hw Hh].
    destruct (generate_newBoard random w h bombs) as (bombsArray & -> & Hlen & _);
      [nia|].
    destruct (newBoard_spec w h bombsArray Hw Hh Hlen) as (? & -> & _). eauto.
Qed.

Lemma generate_rejects_witness :
  let random := λ _ : nat, (1 # 2)%Q in
  let w := -1 in
  let h := -1 in
  let bombs := 0 in
  w * h < 2 ^ 32 ∧
  ((∃ b, generate random w h bombs = Return b) ↔ 0 < w ∧ 0 < h) ∧
  (w * h < 0 → generate random w h bombs = Throw RangeError) ∧
  (0 ≤ w * h → w ≤ 0 →
   generate random w h bombs
   = Throw (AssertionError "Width should be greater than zero")) ∧
  (0 < w → h = 0 →
   generate random w h bombs
   = Throw (AssertionError "Height should be greater than zero")).
Proof.
  intros random w h bombs.
  assert (w * h < 2 ^ 32) as Hs by (vm_compute; reflexivity).
  split; [exact Hs|]. exact (generate_rejects random w h bombs Hs).
Defined.

(** X9: the number of bombs of a generated board, for every count asked
    for.  With positive dimensions [generate] returns a board for every
    integer [bombs], also outside the range of the tiles: a count of
    [width * height] or more makes every tile a bomb, and a negative count
    [- k] leaves [k] tiles empty (none when [k] exceeds the number of
    tiles).  [bombCount] is the number of bomb tiles that the board really
    has, and the counter of tiles left is the number of the other tiles. *)
Theorem generate_bomb_count random w h bombs :
  0 < w → 0 < h → w * h < 2 ^ 32 →
  (∀ k, (0 <= random k)%Q ∧ (random k < 1)%Q) →
  ∃ b,
    generate random w h bombs = Return b ∧
    bombCount b
    = (if bombs <? 0 then Z.max (w * h + bombs) 0 else Z.min bombs (w * h)) ∧
    Z.of_nat (length (List.filter isBomb (array (tileData b)))) = bombCount b ∧
    tilesLeftToOpenToWin b = w * h - bombCount b ∧
    0 ≤ bombCount b ≤ w * h ∧
    width (tileData b) = w ∧ height (tileData b) = h.
Proof.
  intros Hw Hh Hmax _.
  destruct (generate_newBoard random w h bombs)
    as (bombsArray & -> & Hlen & Hcount); [nia|].
  destruct (newBoard_spec w h bombsArray Hw Hh Hlen)
    as (dataArray & -> & Hlen' & _ & Hindex).
  eexists. split; [done|]. cbn [bombCount tileData array tilesLeftToOpenToWin].
  rewrite Hcount. split_and!; try done.
  - rewrite (filter_length_pointwise (λ isBomb : bool, isBomb) isBomb
               bombsArray dataArray); [done|done|].
    intros i v Hv. destruct (Hindex i v Hv) as (d & Hd & Hbomb). eauto.
  - apply relativeIndex_bounds. nia.
  - apply relativeIndex_bounds. nia.
Qed.

Lemma generate_bomb_count_witness :
  let random := λ _ : nat, (1 # 2)%Q in
  let w := 3 in
  let h := 2 in
  let bombs := -2 in
  0 < w ∧ 0 < h ∧ w * h < 2 ^ 32 ∧
  (∀ k, (0 <= random k)%Q ∧ (random k < 1)%Q) ∧
  ∃ b,
    generate random w h bombs = Return b ∧
    bombCount b
    = (if bombs <? 0 then Z.max (w * h + bombs) 0 else Z.min bombs (w * h)) ∧
    Z.of_nat (length (List.filter isBomb (array (tileData b)))) = bombCount b ∧
    tilesLeftToOpenToWin b = w * h - bombCount b ∧
    0 ≤ bombCount b ≤ w * h ∧
    width (tileData b) = w ∧ height (tileData b) = h.
Proof.
  intros random w h bombs.
  assert (0 < w) as Hw by reflexivity.
  assert (0 < h) as Hh by reflexivity.
  assert (w * h < 2 ^ 32) as Hs by (vm_compute; reflexivity).
  assert (∀ k, (0 <= random k)%Q ∧ (random k < 1)%Q) as Hrandom.
  { intros k. split; reflexivity || (unfold Qle; simpl; lia). }
  split_and!; [exact Hw|exact Hh|exact Hs|exact Hrandom|].
  exact (generate_bomb_count random w h bombs Hw Hh Hs Hrandom).
Defined.

(** ** The game: what a call does to the tiles and what it announces *)

(** A call of [clickTile] either leaves the board as the activation left it,
    or opens tiles [ps] and ends with the loss or the win check. *)
Lemma clickTile_stages w p :
  Inv w →
  ∃ w1 ps,
    cascade (activated w) w1 ps ∧
    ((running w ∧ (clickTile p w).2 = finish w1 ps ∧
      (∀ q, q ∈ ps → isBombAt (tileData (board w)) q = true →
            q = p ∨ q ∈ neighborsToOpen w p))
     ∨ (ps = [] ∧ w1 = activated w ∧
        board (clickTile p w).2 = board (activated w) ∧
        emitted (clickTile p w).2 = emitted (activated w))).
Proof.
  intros HI. pose proof (clickTile_outcome w p HI) as Hout.
  destruct (clickTile p w) as [o w']. simpl in *.
  assert (cascade (activated w) (activated w) []) as Hsame
    by by apply cascade_same.
  destruct Hout as [Hr|Hr Hout|s Hr Hs Ho Hf|wc w1 ps Hr Hs Hc _ Hsafe _
                    |s k Hr Hs Ho Hd Hk|s k w1 ps Hr Hs Ho Hd Hk Hc _ Hdirect].
  - exists (activated w), []. split; [done|]. right.
    by rewrite (activated_idle w Hr).
  - exists (activated w), []. split; [done|]. by right.
  - exists (activated w), []. split; [done|]. by right.
  - exists w1, (p :: ps). split; [done|]. left. split_and!; [done..|].
    intros q [->|Hq]%elem_of_cons Hb; [by left|]. by rewrite (Hsafe q Hq) in Hb.
  - exists (activated w), []. split; [done|]. by right.
  - exists w1, ps. split; [done|]. left. split_and!; [done..|].
    intros q Hq Hb. right. by apply Hdirect.
Qed.

Lemma finish_tileAt w1 ps q d s :
  wfBoard (board w1) → dataAt w1 q = Some d → tileAt w1 q = Some s →
  tileAt (finish w1 ps) q =
  Some (if existsb (isBombAt (tileData (board w1))) ps
        then (if shouldReveal d s then revealed s else s)
        else if tilesLeftToOpenToWin (board w1) =? 0
        then (if isUnflaggedBomb d s then flagged s else s)
        else s).
Proof.
  intros Hwf Hd Hs. pose proof (tileAt_inBounds _ _ _ Hwf Hs) as Hin.
  unfold finish. destruct (existsb _ ps).
  - change (tileAt (ended lost ?w) q) with (tileAt w q).
    apply markEach_here; [done|apply NoDup_points|by apply elem_of_points|done..].
  - destruct (_ =? 0); [|done].
    change (tileAt (ended won ?w) q) with (tileAt w q).
    apply markEach_here; [done|apply NoDup_points|by apply elem_of_points|done..].
Qed.

Lemma finish_emitted w1 ps :
  emitted (finish w1 ps) =
  emitted w1 ++
  (if existsb (isBombAt (tileData (board w1))) ps
   then (TileChanged <$> List.filter (marks shouldReveal w1)
                           (points (tileData (board w1))))
        ++ [BoardStateChanged lost]
   else if tilesLeftToOpenToWin (board w1) =? 0
   then (TileChanged <$> List.filter (marks isUnflaggedBomb w1)
                           (points (tileData (board w1))))
        ++ [BoardStateChanged won]
   else []).
Proof.
  unfold finish. destruct (existsb _ ps).
  - simpl. rewrite markEach_emitted by apply NoDup_points.
    by rewrite <- app_assoc.
  - destruct (_ =? 0); [|by rewrite app_nil_r].
    simpl. rewrite markEach_emitted by apply NoDup_points.
    by rewrite <- app_assoc.
Qed.

Lemma finish_frame w1 ps :
  tileData (board (finish w1 ps)) = tileData (board w1) ∧
  bombCount (board (finish w1 ps)) = bombCount (board w1) ∧
  tilesLeftToOpenToWin (board (finish w1 ps)) = tilesLeftToOpenToWin (board w1) ∧
  boardState (board (finish w1 ps))
  = (if existsb (isBombAt (tileData (board w1))) ps then lost
     else if tilesLeftToOpenToWin (board w1) =? 0 then won
     else boardState (board w1)).
Proof.
  unfold finish. destruct (existsb _ ps).
  - destruct (markEach_frame shouldReveal revealed
                (points (tileData (board w1))) w1) as (_ & ? & ? & ? & _).
    by split_and!.
  - destruct (_ =? 0); [|done].
    destruct (markEach_frame isUnflaggedBomb flagged
                (points (tileData (board w1))) w1) as (_ & ? & ? & ? & _).
    by split_and!.
Qed.

Lemma marks_elem_of test w q l :
  q ∈ l → marks test w q = true → TileChanged q ∈ TileChanged <$> List.filter (marks test w) l.
Proof.
  intros Hq Hm. apply list_elem_of_fmap. exists q. split; [done|].
  apply list_elem_of_In, filter_In. by rewrite <- list_elem_of_In.
Qed.

Lemma tileAt_None_stays w w' q :
  wfBoard (board w) → wfBoard (board w') →
  tileData (board w') = tileData (board w) →
  tileAt w q = None → tileAt w' q = None.
Proof.
  intros Hwf Hwf' Hd Hnone. destruct (tileAt w' q) as [s'|] eqn:Hs'; [|done].
  apply (tileAt_inBounds _ _ _ Hwf') in Hs'. unfold inBounds in Hs'.
  rewrite Hd in Hs'. destruct (tileAt_is_Some w q Hwf Hs'). congruence.
Qed.

(** What one call of [clickTile] or [changeTileState] adds to the
    emissions: every tile whose state differs afterwards is among the
    points announced, and every point announced is on the board. *)
Lemma step_announces w w' :
  Inv w → step w w' →
  ∃ l, emitted w' = emitted w ++ l ∧
       (∀ q, tileAt w' q ≠ tileAt w q → TileChanged q ∈ l) ∧
       (∀ q, TileChanged q ∈ l → inBounds w q).
Proof.
  intros HI Hstep. pose proof (inv_wf _ HI) as Hwf.
  pose proof (proj2 (activated_wfBoard w) Hwf) as Hwf0.
  destruct (activated_emitted w) as (pre & Hpre & Hnone).
  destruct Hstep as [w p|w p].
  - destruct (clickTile_stages w p HI) as (w1 & ps & Hc & Hcase).
    destruct Hcase as [(Hr & -> & _)|(-> & -> & Hb & He)]; cycle 1.
    { exists pre. rewrite He. split_and!; [done| |].
      - intros q Hq. destruct Hq. unfold tileAt. rewrite Hb.
        by rewrite activated_tileState.
      - intros q Hq. by destruct (Hnone q). }
    pose proof (cascade_wfBoard _ _ _ Hc Hwf0) as Hwf1.
    rewrite finish_emitted, (c_emitted _ _ _ Hc), Hpre.
    set (pts := points (tileData (board w1))).
    set (tail := if existsb (isBombAt (tileData (board w1))) ps
                 then (TileChanged <$> List.filter (marks shouldReveal w1) pts)
                      ++ [BoardStateChanged lost]
                 else if tilesLeftToOpenToWin (board w1) =? 0
                 then (TileChanged <$> List.filter (marks isUnflaggedBomb w1) pts)
                      ++ [BoardStateChanged won]
                 else []).
    exists (pre ++ (TileChanged <$> ps) ++ tail).
    split_and!; [by rewrite <- !app_assoc| |].
    + intros q Hq. destruct (decide (q ∈ ps)) as [Hin|Hout].
      { rewrite !elem_of_app. right. left.
        apply list_elem_of_fmap. by exists q. }
      pose proof (c_others _ _ _ Hc q Hout) as Hsame.
      rewrite activated_tileAt in Hsame.
      destruct (tileAt w q) as [s|] eqn:Hs; cycle 1.
      { destruct Hq. apply (tileAt_None_stays w1); [done| | |done].
        - destruct (finish_frame w1 ps) as (Hd & _).
          unfold finish. destruct (existsb _ ps).
          + by apply (markEach_frame shouldReveal revealed).
          + destruct (_ =? 0); [|done].
            by apply (markEach_frame isUnflaggedBomb flagged).
        - apply finish_frame. }
      pose proof (tileAt_inBounds _ _ _ Hwf1 Hsame) as Hin1.
      destruct (dataAt_is_Some w1 q Hwf1 Hin1) as [d Hd].
      rewrite (finish_tileAt w1 ps q d s Hwf1 Hd Hsame) in Hq.
      rewrite !elem_of_app. right. right. unfold tail.
      destruct (existsb _ ps).
      * apply elem_of_app. left. apply marks_elem_of; [by apply elem_of_points|].
        unfold marks. rewrite Hd, Hsame. by destruct (shouldReveal d s).
      * destruct (_ =? 0); [|done].
        apply elem_of_app. left. apply marks_elem_of; [by apply elem_of_points|].
        unfold marks. rewrite Hd, Hsame. by destruct (isUnflaggedBomb d s).
    + assert (∀ test q,
        TileChanged q ∈ TileChanged <$> List.filter (marks test w1) pts →
        inBounds w q) as Hmarks.
      { intros test q (q' & [= <-] & Hq')%list_elem_of_fmap.
        apply list_elem_of_In, filter_In in Hq' as [Hq' _].
        apply list_elem_of_In, elem_of_points in Hq'. unfold inBounds.
        by rewrite <- (activated_tileData w), <- (c_tileData _ _ _ Hc). }
      intros q. rewrite !elem_of_app. intros [Hq|[Hq|Hq]].
      * by destruct (Hnone q).
      * apply list_elem_of_fmap in Hq as (q' & [= <-] & Hq').
        destruct (c_opened _ _ _ Hc q Hq') as (? & ? & Hs0 & _).
        rewrite activated_tileAt in Hs0. by eapply tileAt_inBounds.
      * unfold tail in Hq. destruct (existsb _ ps).
        -- apply elem_of_app in Hq as [Hq|[=]%list_elem_of_singleton].
           by eapply Hmarks.
        -- destruct (_ =? 0); [|by apply elem_of_nil in Hq].
           apply elem_of_app in Hq as [Hq|[=]%list_elem_of_singleton].
           by eapply Hmarks.
  - rewrite changeTileState_eq. case_bool_decide as Hact; cycle 1.
    { exists pre. split_and!; [done| |].
      - intros q Hq. destruct Hq. simpl. apply activated_tileAt.
      - intros q Hq. by destruct (Hnone q). }
    destruct (tileAt (activated w) p) as [s|] eqn:Hs; simpl; cycle 1.
    { exists pre. split_and!; [done| |].
      - intros q Hq. destruct Hq. apply activated_tileAt.
      - intros q Hq. by destruct (Hnone q). }
    destruct (isOpen s).
    { exists pre. split_and!; [done| |].
      - intros q Hq. destruct Hq. apply activated_tileAt.
      - intros q Hq. by destruct (Hnone q). }
    exists (pre ++ [TileChanged p]). split_and!.
    + unfold toggledAt. simpl. by rewrite Hpre, <- app_assoc.
    + intros q Hq. destruct (decide (q = p)) as [->|Hne].
      { apply elem_of_app. right. by left. }
      destruct Hq. unfold tileAt, toggledAt. simpl.
      rewrite getOrNull_setAt_ne by done. by rewrite activated_tileState.
    + intros q [Hq|[= ->]%list_elem_of_singleton]%elem_of_app.
      * by destruct (Hnone q).
      * rewrite activated_tileAt in Hs. by eapply tileAt_inBounds.
Qed.

Lemma stateChanges_app l1 l2 :
  stateChanges (l1 ++ l2) = stateChanges l1 ++ stateChanges l2.
Proof. apply omap_app. Qed.

Lemma stateChanges_tiles (ps : list Point) : stateChanges (TileChanged <$> ps) = [].
Proof. by induction ps. Qed.

Lemma elem_of_tileChanges q l : q ∈ tileChanges l ↔ TileChanged q ∈ l.
Proof.
  unfold tileChanges. rewrite list_elem_of_omap. split.
  - intros ([q'|st] & Hin & Heq); by simplify_eq.
  - intros Hin. by exists (TileChanged q).
Qed.

Lemma step_frame w w' :
  Inv w → step w w' →
  tileData (board w') = tileData (board w) ∧
  bombCount (board w') = bombCount (board w) ∧
  tilesLeftToOpenToWin (board w') ≤ tilesLeftToOpenToWin (board w) ∧
  (∀ q, holds isOpen w q = true → holds isOpen w' q = true).
Proof.
  intros HI Hstep. pose proof (inv_wf _ HI) as Hwf.
  pose proof (proj2 (activated_wfBoard w) Hwf) as Hwf0.
  destruct Hstep as [w p|w p].
  - destruct (clickTile_stages w p HI) as (w1 & ps & Hc & Hcase).
    destruct Hcase as [(Hr & -> & _)|(-> & -> & Hb & He)]; cycle 1.
    { unfold holds, tileAt. rewrite Hb.
      rewrite activated_tileData, activated_bombCount, activated_tilesLeft,
        activated_tileState. by split_and!. }
    pose proof (cascade_wfBoard _ _ _ Hc Hwf0) as Hwf1.
    destruct (finish_frame w1 ps) as (-> & -> & -> & _).
    rewrite (c_tileData _ _ _ Hc), (c_bombCount _ _ _ Hc), (c_left _ _ _ Hc).
    rewrite activated_tileData, activated_bombCount, activated_tilesLeft.
    split_and!; [done|done|lia|].
    intros q Hq. unfold holds in Hq.
    destruct (tileAt w q) as [s|] eqn:Hs; [|done].
    rewrite <- activated_tileAt in Hs.
    destruct (decide (q ∈ ps)) as [Hin|Hout].
    + destruct (c_opened _ _ _ Hc q Hin) as (? & ? & Hs0 & _).
      rewrite Hs0 in Hs. by simplify_eq/=.
    + rewrite <- (c_others _ _ _ Hc q Hout) in Hs.
      by eapply finish_keeps_open.
  - split_and!.
    + rewrite changeTileState_eq. case_bool_decide; simpl;
        [|apply activated_tileData].
      destruct (tileAt (activated w) p) as [s|]; simpl;
        [|apply activated_tileData].
      destruct (isOpen s); apply activated_tileData.
    + rewrite changeTileState_eq. case_bool_decide; simpl;
        [|apply activated_bombCount].
      destruct (tileAt (activated w) p) as [s|]; simpl;
        [|apply activated_bombCount].
      destruct (isOpen s); apply activated_bombCount.
    + destruct (flag_win_transition w p) as [_ ->]. lia.
    + intros q. by rewrite changeTileState_isOpen.
Qed.

(** X10: the listeners see every change of a tile.  On a board that was
    played from a constructed one, a call of [clickTile] or
    [changeTileState] only adds to what was emitted, and among what it adds
    is [TileChanged q] for every tile [q] whose state is not what it was
    before the call. *)
Theorem changed_tiles_are_announced w w' :
  reachable w → step w w' →
  ∃ l, emitted w' = emitted w ++ l ∧
       ∀ q, tileAt w' q ≠ tileAt w q → q ∈ tileChanges l.
Proof.
  intros Hreach Hstep.
  destruct (step_announces w w' (reachable_Inv w Hreach) Hstep)
    as (l & He & Hall & _).
  exists l. split; [done|]. intros q Hq. apply elem_of_tileChanges. auto.
Qed.

Lemma changed_tiles_are_announced_witness :
  let w := newWorld board2x1 in
  let w' := (clickTile (mkPoint 1 0) w).2 in
  reachable w ∧ step w w' ∧
  ∃ l, emitted w' = emitted w ++ l ∧
       ∀ q, tileAt w' q ≠ tileAt w q → q ∈ tileChanges l.
Proof.
  intros w w'.
  assert (step w w') as Hstep by apply step_click.
  split_and!; [exact board2x1_reachable|exact Hstep|].
  exact (changed_tiles_are_announced w w' board2x1_reachable Hstep).
Defined.

Lemma reachable_announced_inBounds w :
  reachable w → ∀ q, TileChanged q ∈ emitted w → inBounds w q.
Proof.
  induction 1 as [width height bombsArray b Hnew|w p Hreach IH|w p Hreach IH].
  - by intros q ?%elem_of_nil.
  - pose proof (reachable_Inv w Hreach) as HI.
    destruct (step_announces w _ HI (step_click w p)) as (l & -> & _ & Hin).
    destruct (step_frame w _ HI (step_click w p)) as (Hd & _).
    intros q [Hq|Hq]%elem_of_app; unfold inBounds; rewrite Hd; [by apply IH|].
    by apply Hin.
  - pose proof (reachable_Inv w Hreach) as HI.
    destruct (step_announces w _ HI (step_flag w p)) as (l & -> & _ & Hin).
    destruct (step_frame w _ HI (step_flag w p)) as (Hd & _).
    intros q [Hq|Hq]%elem_of_app; unfold inBounds; rewrite Hd; [by apply IH|].
    by apply Hin.
Qed.

(** X11: what is announced can be read.  On a board that was played from a
    constructed one, every point that [tileChangedSignal] ever delivered is
    in bounds and among the [points] of the board, and the two public
    getters return for it without changing anything, so that a listener can
    look up the tile it is told about. *)
Theorem announced_tiles_can_be_read w q :
  reachable w → q ∈ tileChanges (emitted w) →
  isInBounds (tileData (board w)) q = true ∧
  q ∈ points (tileData (board w)) ∧
  ∃ s d, getTileState q w = (Return s, w) ∧ getTileData q w = (Return d, w).
Proof.
  intros Hreach Hq%elem_of_tileChanges.
  pose proof (reachable_announced_inBounds w Hreach q Hq) as Hin.
  pose proof (inv_wf _ (reachable_Inv w Hreach)) as Hwf.
  destruct (tileAt_is_Some w q Hwf Hin) as [s Hs].
  destruct (dataAt_is_Some w q Hwf Hin) as [d Hd].
  split_and!; [done|by apply elem_of_points|].
  exists s, d. by rewrite getTileState_run, getTileData_run, Hs, Hd.
Qed.

Lemma announced_tiles_can_be_read_witness :
  let w := (clickTile (mkPoint 1 0) (newWorld board2x1)).2 in
  let q := mkPoint 0 0 in
  reachable w ∧ q ∈ tileChanges (emitted w) ∧
  isInBounds (tileData (board w)) q = true ∧
  q ∈ points (tileData (board w)) ∧
  ∃ s d, getTileState q w = (Return s, w) ∧ getTileData q w = (Return d, w).
Proof.
  intros w q.
  assert (reachable w) as Hreach by apply reach_click, board2x1_reachable.
  assert (q ∈ tileChanges (emitted w)) as Hq by (vm_compute; right; left).
  split_and!; [exact Hreach|exact Hq|..];
    apply (announced_tiles_can_be_read w q Hreach Hq).
Defined.

Lemma activated_stateChanges w :
  stateChanges (emitted (activated w))
  = stateChanges (emitted w)
    ++ (if bool_decide (boardState (board w) = not_started) then [active] else []).
Proof.
  unfold activated. case_bool_decide; simpl.
  - by rewrite stateChanges_app.
  - by rewrite app_nil_r.
Qed.

Lemma activated_statesUpTo w :
  stateChanges (emitted w) = statesUpTo (boardState (board w)) →
  stateChanges (emitted (activated w))
  = statesUpTo (boardState (board (activated w))).
Proof.
  intros Hw. rewrite activated_stateChanges, Hw. unfold activated.
  case_bool_decide as Hs; [by rewrite Hs|]. by rewrite app_nil_r.
Qed.

(** The values that [boardStateChangedSignal] has delivered by the time the
    board is in a given state. *)
Lemma announced_states w :
  reachable w → stateChanges (emitted w) = statesUpTo (boardState (board w)).
Proof.
  induction 1 as [width height bombsArray b Hnew|w p Hreach IH|w p Hreach IH].
  - destruct (newBoard_Return _ _ _ _ Hnew) as (Hw & Hh & Hlen).
    destruct (newBoard_spec width height bombsArray Hw Hh Hlen) as (? & Hrun & _).
    rewrite Hrun in Hnew. by injection Hnew as <-.
  - pose proof (reachable_Inv w Hreach) as HI. apply activated_statesUpTo in IH.
    destruct (clickTile_stages w p HI) as (w1 & ps & Hc & Hcase).
    destruct Hcase as [(Hr & -> & _)|(-> & -> & -> & ->)]; [|done].
    rewrite (activated_state w Hr) in IH.
    destruct (finish_frame w1 ps) as (_ & _ & _ & ->).
    rewrite finish_emitted, (c_emitted _ _ _ Hc), !stateChanges_app.
    rewrite stateChanges_tiles, IH, (c_boardState _ _ _ Hc), (activated_state w Hr).
    destruct (existsb _ ps).
    { by rewrite stateChanges_app, stateChanges_tiles. }
    destruct (_ =? 0); [|done].
    by rewrite stateChanges_app, stateChanges_tiles.
  - apply activated_statesUpTo in IH. rewrite changeTileState_eq.
    case_bool_decide as Hs; [|done].
    destruct (tileAt (activated w) p) as [s|]; [|done]. simpl.
    destruct (isOpen s); [done|].
    unfold toggledAt. simpl. rewrite stateChanges_app, IH. simpl.
    by rewrite app_nil_r.
Qed.

(** X12: the board states that the listeners are told.  On a board that
    was played from a constructed one, [boardStateChangedSignal] has
    delivered nothing while the board is not started, [active] once the game
    runs, and after that [won] or [lost] once the game is over: every state
    the board is put into is announced once, in order, and the last one
    announced is the state of the board.  So the header that
    [MinesweeperPixi] keeps through its listener shows the state of the
    board on its button, and the ticker of its stopwatch is started exactly
    while the board is active. *)
Theorem board_state_is_announced w pressed :
  reachable w →
  stateChanges (emitted w) = statesUpTo (boardState (board w)) ∧
  let h := headerAfter (emitted w) (setupHeader pressed) in
  buttonState h = boardState (board w) ∧
  tickerStarted h = bool_decide (boardState (board w) = active) ∧
  (pressed = false →
   buttonTextureKey h
   = match boardState (board w) with
     | not_started | active => "face/happy.png"
     | won => "face/sunglasses.png"
     | lost => "face/dead.png"
     end%string).
Proof.
  intros Hreach. pose proof (announced_states w Hreach) as Hs.
  split; [done|]. unfold headerAfter. rewrite Hs.
  destruct (boardState (board w)); simpl; split_and!; try done;
    by intros ->.
Qed.

Lemma board_state_is_announced_witness :
  let w := (clickTile (mkPoint 1 0) (newWorld board2x1)).2 in
  let pressed := false in
  reachable w ∧
  stateChanges (emitted w) = statesUpTo (boardState (board w)) ∧
  let h := headerAfter (emitted w) (setupHeader pressed) in
  buttonState h = boardState (board w) ∧
  tickerStarted h = bool_decide (boardState (board w) = active) ∧
  (pressed = false →
   buttonTextureKey h
   = match boardState (board w) with
     | not_started | active => "face/happy.png"
     | won => "face/sunglasses.png"
     | lost => "face/dead.png"
     end%string).
Proof.
  intros w pressed.
  assert (reachable w) as Hreach by apply reach_click, board2x1_reachable.
  split; [exact Hreach|]. exact (board_state_is_announced w pressed Hreach).
Defined.

Lemma step_boardState w w' :
  Inv w → step w w' →
  boardState (board w') ≠ not_started ∧
  (boardState (board w) = won → boardState (board w') = won) ∧
  (boardState (board w) = lost → boardState (board w') = lost).
Proof.
  intros HI Hstep.
  assert (boardState (board (activated w)) ≠ not_started ∧
          (boardState (board w) = won → boardState (board (activated w)) = won) ∧
          (boardState (board w) = lost → boardState (board (activated w)) = lost))
    as Hact.
  { unfold activated. case_bool_decide as Hs; simpl; [rewrite Hs|]; done. }
  destruct Hstep as [w p|w p].
  - destruct (clickTile_stages w p HI) as (w1 & ps & Hc & Hcase).
    destruct Hcase as [(Hr & -> & _)|(-> & -> & -> & _)]; [|done].
    destruct (finish_frame w1 ps) as (_ & _ & _ & ->).
    rewrite (c_boardState _ _ _ Hc), (activated_state w Hr).
    destruct (existsb _ ps); [|destruct (_ =? 0)];
      (split_and!; [done|intros Hs|intros Hs]); destruct Hr; congruence.
  - destruct (flag_win_transition w p) as [-> _]. done.
Qed.

(** X13: a game only moves forward.  On a board that was played from a
    constructed one, a call of [clickTile] or [changeTileState] never
    changes the tile data, the bomb count or the dimensions, never closes an
    open tile, never raises the counter of tiles left, never leaves the
    board not started, and never takes a board out of [won] or [lost]. *)
Theorem play_only_moves_forward w w' :
  reachable w → step w w' →
  tileData (board w') = tileData (board w) ∧
  bombCount (board w') = bombCount (board w) ∧
  tilesLeftToOpenToWin (board w') ≤ tilesLeftToOpenToWin (board w) ∧
  (∀ q, holds isOpen w q = true → holds isOpen w' q = true) ∧
  boardState (board w') ≠ not_started ∧
  (boardState (board w) = won → boardState (board w') = won) ∧
  (boardState (board w) = lost → boardState (board w') = lost).
Proof.
  intros Hreach Hstep. pose proof (reachable_Inv w Hreach) as HI.
  destruct (step_frame w w' HI Hstep) as (? & ? & ? & ?).
  destruct (step_boardState w w' HI Hstep) as (? & ? & ?).
  by split_and!.
Qed.

Lemma play_only_moves_forward_witness :
  let w := newWorld board2x1 in
  let w' := (clickTile (mkPoint 1 0) w).2 in
  reachable w ∧ step w w' ∧
  tileData (board w') = tileData (board w) ∧
  bombCount (board w') = bombCount (board w) ∧
  tilesLeftToOpenToWin (board w') ≤ tilesLeftToOpenToWin (board w) ∧
  (∀ q, holds isOpen w q = true → holds isOpen w' q = true) ∧
  boardState (board w') ≠ not_started ∧
  (boardState (board w) = won → boardState (board w') = won) ∧
  (boardState (board w) = lost → boardState (board w') = lost).
Proof.
  intros w w'.
  assert (step w w') as Hstep by apply step_click.
  split_and!; [exact board2x1_reachable|exact Hstep|..];
    apply (play_only_moves_forward w w' board2x1_reachable Hstep).
Defined.

(** ** The game: the shape of the board *)

Lemma Shape_ext w w' : board w' = board w → Shape w → Shape w'.
Proof.
  intros Hb [H1 H2 H3 H4]. split; unfold tileAt, dataAt in *; rewrite Hb; done.
Qed.

Lemma Shape_activated w : Shape w → Shape (activated w).
Proof.
  intros [H1 H2 H3 H4]. unfold activated. case_bool_decide as Hs; [|done].
  split; simpl; try done. intros _. apply H1. by rewrite Hs.
Qed.

Lemma Shape_new width height bombsArray b :
  newBoard width height bombsArray = Return b → Shape (newWorld b).
Proof.
  intros Hnew. pose proof (newBoard_Inv _ _ _ _ Hnew) as HI.
  destruct (newBoard_Return _ _ _ _ Hnew) as (Hw & Hh & Hlen).
  destruct (newBoard_spec width height bombsArray Hw Hh Hlen) as (? & Hrun & _).
  assert (boardState (board (newWorld b)) = not_started) as Hs.
  { rewrite Hrun in Hnew. by injection Hnew as <-. }
  split.
  - intros _ p s Hp Ho. by rewrite (inv_fresh _ HI Hs p s Hp) in Ho.
  - intros p s Hp _. by rewrite (inv_fresh _ HI Hs p s Hp).
  - by rewrite Hs.
  - by rewrite Hs.
Qed.

Lemma Shape_finish w0 w1 ps :
  Inv w0 → Shape w0 → boardState (board w0) = active → cascade w0 w1 ps →
  Shape (finish w1 ps).
Proof.
  intros HI HS Hact Hc.
  pose proof (cascade_wfBoard _ _ _ Hc (inv_wf _ HI)) as Hwf1.
  assert (∀ p s, tileAt w1 p = Some s → isOpen s = true → state s = default)
    as Hopen1.
  { intros p s Hs Ho. destruct (decide (p ∈ ps)) as [Hin|Hout].
    - destruct (c_opened _ _ _ Hc p Hin) as (? & ? & _ & Hs1).
      rewrite Hs1 in Hs. by simplify_eq/=.
    - rewrite (c_others _ _ _ Hc p Hout) in Hs.
      apply (shape_open _ HS) with p; [by rewrite Hact|done..]. }
  assert (∀ p s, tileAt w1 p = Some s → isOpen s = false → wasClicked s = false)
    as Hclosed1.
  { intros p s Hs Ho. destruct (decide (p ∈ ps)) as [Hin|Hout].
    - destruct (c_opened _ _ _ Hc p Hin) as (? & ? & _ & Hs1).
      rewrite Hs1 in Hs. by simplify_eq/=.
    - rewrite (c_others _ _ _ Hc p Hout) in Hs.
      by apply (shape_closed _ HS) with p. }
  assert (∀ p s, tileAt w1 p = Some s → isOpen s = true →
                 dataAt w1 p = Some BombTile → p ∈ ps) as Hbombs1.
  { intros p s Hs Ho Hb. destruct (decide (p ∈ ps)) as [|Hout]; [done|].
    rewrite (c_others _ _ _ Hc p Hout) in Hs.
    unfold dataAt in Hb. rewrite (c_tileData _ _ _ Hc) in Hb.
    pose proof (inv_no_open_bomb _ HI (or_intror Hact) p s Hs Ho) as Hnb.
    by rewrite (proj2 (isBombAt_true w0 p) Hb) in Hnb. }
  assert (∀ p s', tileAt (finish w1 ps) p = Some s' →
            ∃ d s, dataAt w1 p = Some d ∧ tileAt w1 p = Some s ∧
                   dataAt (finish w1 ps) p = Some d ∧
                   s' = if existsb (isBombAt (tileData (board w1))) ps
                        then (if shouldReveal d s then revealed s else s)
                        else if tilesLeftToOpenToWin (board w1) =? 0
                        then (if isUnflaggedBomb d s then flagged s else s)
                        else s) as Htile.
  { intros p s' Hs'.
    assert (inBounds w1 p) as Hin.
    { destruct (decide (inBounds w1 p)) as [|Hout]; [done|].
      assert (tileAt w1 p = None) as Hnone by by apply tileAt_outside.
      rewrite (tileAt_None_stays w1 (finish w1 ps) p) in Hs'; try done.
      - unfold finish. destruct (existsb _ ps).
        + by apply (markEach_frame shouldReveal revealed).
        + destruct (_ =? 0); [|done].
          by apply (markEach_frame isUnflaggedBomb flagged).
      - apply finish_frame. }
    destruct (tileAt_is_Some w1 p Hwf1 Hin) as [s Hs].
    destruct (dataAt_is_Some w1 p Hwf1 Hin) as [d Hd].
    exists d, s. split_and!; [done|done| |].
    - unfold dataAt. by rewrite (proj1 (finish_frame w1 ps)).
    - rewrite (finish_tileAt w1 ps p d s Hwf1 Hd Hs) in Hs'. congruence. }
  destruct (finish_frame w1 ps) as (Hdata & _ & _ & Hstate).
  destruct (existsb (isBombAt (tileData (board w1))) ps) eqn:Hex.
  - (* lost *)
    split.
    + by rewrite Hstate.
    + intros p s' Hs' Ho. destruct (Htile p s' Hs') as (d & s & Hd & Hs & _ & ->).
      destruct (shouldReveal d s); [done|]. by apply (Hclosed1 p).
    + intros _ p d' s' Hd' Hs'.
      destruct (Htile p s' Hs') as (d & s & Hd & Hs & Hd2 & ->).
      rewrite Hd2 in Hd'. injection Hd' as <-.
      pose proof (Hopen1 p s Hs) as Ho.
      unfold shouldReveal. destruct d as [n|], s as [[] [] wc]; simpl in *;
        split; try done; intros; by specialize (Ho eq_refl).
    + intros _. apply existsb_exists in Hex as (q & Hq%list_elem_of_In & Hb).
      destruct (c_opened _ _ _ Hc q Hq) as (wc & wc' & _ & Hs1).
      assert (dataAt w1 q = Some BombTile) as Hd1 by by apply isBombAt_true.
      exists q, (mkTileState default true wc'). split_and!; try done.
      * unfold dataAt. by rewrite Hdata.
      * rewrite (finish_tileAt w1 ps q BombTile _ Hwf1 Hd1 Hs1).
        by rewrite (proj2 (existsb_exists _ _)) by
          (exists q; by rewrite <- list_elem_of_In).
  - destruct (tilesLeftToOpenToWin (board w1) =? 0) eqn:Hzero.
    + (* won *)
      split.
      * intros _ p s' Hs' Ho.
        destruct (Htile p s' Hs') as (d & s & Hd & Hs & _ & ->).
        destruct (isUnflaggedBomb d s) eqn:Hm; [|by apply (Hopen1 p)].
        simpl in Ho. exfalso.
        assert (d = BombTile) as -> by by destruct d.
        pose proof (Hbombs1 p s Hs Ho Hd) as Hin.
        pose proof (proj1 (existsb_bomb_false _ _) Hex p Hin) as Hnb.
        by rewrite (proj2 (isBombAt_true w1 p) Hd) in Hnb.
      * intros p s' Hs' Ho.
        destruct (Htile p s' Hs') as (d & s & Hd & Hs & _ & ->).
        destruct (isUnflaggedBomb d s); simpl in *; by apply (Hclosed1 p s).
      * by rewrite Hstate.
      * by rewrite Hstate.
    + (* still running *)
      assert (finish w1 ps = w1) as ->.
      { unfold finish. by rewrite Hex, Hzero. }
      split; try done.
      * rewrite (c_boardState _ _ _ Hc), Hact. done.
      * rewrite (c_boardState _ _ _ Hc), Hact. done.
Qed.

Lemma Shape_toggledAt w p s :
  wfBoard (board w) → Shape w → boardState (board w) = active →
  tileAt w p = Some s → isOpen s = false → Shape (toggledAt p s w).
Proof.
  intros Hwf HS Hact Hs Ho.
  assert (∀ q s', tileAt (toggledAt p s w) q = Some s' →
            (q = p ∧ s' = toggleMark s) ∨ tileAt w q = Some s') as Htile.
  { intros q s' Hs'. unfold tileAt, toggledAt in Hs'. simpl in Hs'.
    destruct (decide (q = p)) as [->|Hne].
    - rewrite (getOrNull_setAt_same _ _ s) in Hs' by done. left. by simplify_eq.
    - rewrite getOrNull_setAt_ne in Hs' by done. by right. }
  split; simpl.
  - intros _ q s' Hs' Ho'. destruct (Htile q s' Hs') as [[-> ->]|Hq].
    + simpl in Ho'. congruence.
    + apply (shape_open _ HS) with q; [by rewrite Hact|done..].
  - intros q s' Hs' Ho'. destruct (Htile q s' Hs') as [[-> ->]|Hq].
    + simpl. by apply (shape_closed _ HS) with p.
    + by apply (shape_closed _ HS) with q.
  - by rewrite Hact.
  - by rewrite Hact.
Qed.

Lemma reachable_Shape w : reachable w → Shape w.
Proof.
  induction 1 as [width height bombsArray b Hnew|w p Hreach IH|w p Hreach IH].
  - by eapply Shape_new.
  - pose proof (reachable_Inv w Hreach) as HI.
    destruct (clickTile_stages w p HI) as (w1 & ps & Hc & Hcase).
    destruct Hcase as [(Hr & -> & _)|(-> & -> & Hb & _)].
    + apply (Shape_finish (activated w)); try done.
      * by apply Inv_activated.
      * by apply Shape_activated.
      * by apply activated_state.
    + apply (Shape_ext (activated w)); [done|]. by apply Shape_activated.
  - pose proof (reachable_Inv w Hreach) as HI.
    rewrite changeTileState_eq. case_bool_decide as Hact; simpl;
      [|by apply Shape_activated].
    destruct (tileAt (activated w) p) as [s|] eqn:Hs; simpl;
      [|by apply Shape_activated].
    destruct (isOpen s) eqn:Ho; [by apply Shape_activated|].
    apply Shape_toggledAt; try done.
    + apply activated_wfBoard, HI.
    + by apply Shape_activated.
Qed.

Lemma closedEmpty_zero_open w p d s :
  wfBoard (board w) → closedEmpty (board w) = 0%nat →
  dataAt w p = Some d → tileAt w p = Some s → isBomb d = false →
  isOpen s = true.
Proof.
  intros Hwf Hzero Hd Hs Hnb.
  pose proof (getOrNull_inBounds _ _ _ Hd) as Hind.
  pose proof (getOrNull_inBounds _ _ _ Hs) as Hins.
  unfold dataAt in Hd. rewrite getOrNull_lookup in Hd by done.
  unfold tileAt in Hs. rewrite getOrNull_lookup in Hs by done.
  destruct Hwf as (_ & _ & Hw & _). rewrite Hw in Hs.
  pose proof (count2_zero _ _ _ _ _ _ Hzero Hd Hs) as Hp. simpl in Hp.
  destruct d; [|done]. simpl in Hp. by destruct (isOpen s).
Qed.

(** X14: the won board.  On a won board that was played from a constructed
    one, every bomb is closed, flagged and was never clicked, and every
    other tile is open and has no flag. *)
Theorem won_board_shape w p d s :
  reachable w → boardState (board w) = won →
  dataAt w p = Some d → tileAt w p = Some s →
  if isBomb d then s = mkTileState flag false false
  else isOpen s = true ∧ state s = default.
Proof.
  intros Hreach Hwon Hd Hs.
  pose proof (reachable_Inv w Hreach) as HI.
  pose proof (reachable_Shape w Hreach) as HS.
  destruct (inv_won _ HI Hwon) as (Hzero & Hbombs).
  destruct (isBomb d) eqn:Hb.
  - assert (d = BombTile) as -> by by destruct d.
    destruct (Hbombs p (proj2 (isBombAt_true w p) Hd)) as (s' & Hs' & Hf & Ho).
    rewrite Hs in Hs'. injection Hs' as <-.
    pose proof (shape_closed _ HS p s Hs Ho) as Hc.
    destruct s; simpl in *; by subst.
  - assert (isOpen s = true) as Ho.
    { apply (closedEmpty_zero_open w p d s); try done; [apply HI|].
      rewrite (inv_left _ HI) in Hzero by by rewrite Hwon. lia. }
    split; [done|]. apply (shape_open _ HS) with p; [by rewrite Hwon|done..].
Qed.

Lemma won_board_shape_witness :
  let w := (clickTile (mkPoint 1 0) (newWorld board2x1)).2 in
  let p := mkPoint 0 0 in
  let d := BombTile in
  let s := mkTileState flag false false in
  reachable w ∧ boardState (board w) = won ∧
  dataAt w p = Some d ∧ tileAt w p = Some s ∧
  if isBomb d then s = mkTileState flag false false
  else isOpen s = true ∧ state s = default.
Proof.
  intros w p d s.
  assert (reachable w) as Hreach by apply reach_click, board2x1_reachable.
  assert (boardState (board w) = won) as Hwon by reflexivity.
  assert (dataAt w p = Some d) as Hd by reflexivity.
  assert (tileAt w p = Some s) as Hs by reflexivity.
  split_and!; [exact Hreach|exact Hwon|exact Hd|exact Hs|].
  exact (won_board_shape w p d s Hreach Hwon Hd Hs).
Defined.

(** X15: the lost board.  On a lost board that was played from a
    constructed one, a bomb is open exactly when it has no flag, every
    flagged empty tile is open, a closed tile was never clicked, and at
    least one bomb without a flag lies open. *)
Theorem lost_board_shape w :
  reachable w → boardState (board w) = lost →
  (∀ p d s, dataAt w p = Some d → tileAt w p = Some s →
     (isBomb d = true → isOpen s = negb (isFlag (state s))) ∧
     (isBomb d = false → state s = flag → isOpen s = true) ∧
     (isOpen s = false → wasClicked s = false)) ∧
  (∃ p s, dataAt w p = Some BombTile ∧ tileAt w p = Some s ∧
          isOpen s = true ∧ state s = default).
Proof.
  intros Hreach Hlost. pose proof (reachable_Shape w Hreach) as HS. split.
  - intros p d s Hd Hs.
    destruct (shape_lost _ HS Hlost p d s Hd Hs) as (? & ?).
    split_and!; [done..|]. by apply (shape_closed _ HS p).
  - by apply (shape_lost_bomb _ HS).
Qed.

Lemma lost_board_shape_witness :
  let w := lostWorld in
  reachable w ∧ boardState (board w) = lost ∧
  (∀ p d s, dataAt w p = Some d → tileAt w p = Some s →
     (isBomb d = true → isOpen s = negb (isFlag (state s))) ∧
     (isBomb d = false → state s = flag → isOpen s = true) ∧
     (isOpen s = false → wasClicked s = false)) ∧
  (∃ p s, dataAt w p = Some BombTile ∧ tileAt w p = Some s ∧
          isOpen s = true ∧ state s = default).
Proof.
  intros w.
  assert (boardState (board w) = lost) as Hlost by reflexivity.
  split_and!; [exact lostWorld_reachable|exact Hlost|..];
    apply (lost_board_shape w lostWorld_reachable Hlost).
Defined.

(** X16: a flag protects a tile.  On a board that was played from a
    constructed one, no click, on whatever point, opens or changes a closed
    tile with a flag, be it directly, through the flood fill or through a
    chord; the one exception is the loss, which opens the flagged tile when
    it is empty.  A flagged bomb is never touched. *)
Theorem flag_protects w p q s :
  reachable w → tileAt w q = Some s → isOpen s = false → state s = flag →
  (boardState (board (clickTile p w).2) ≠ lost →
   tileAt (clickTile p w).2 q = Some s) ∧
  (dataAt w q = Some BombTile → tileAt (clickTile p w).2 q = Some s) ∧
  (tileAt (clickTile p w).2 q = Some s ∨
   tileAt (clickTile p w).2 q = Some (mkTileState flag true (wasClicked s))).
Proof.
  intros Hreach Hs Ho Hf. pose proof (reachable_Inv w Hreach) as HI.
  pose proof (inv_wf _ HI) as Hwf.
  pose proof (proj2 (activated_wfBoard w) Hwf) as Hwf0.
  destruct (clickTile_stages w p HI) as (w1 & ps & Hc & Hcase).
  destruct Hcase as [(Hr & -> & _)|(-> & -> & Hb & _)]; cycle 1.
  { unfold tileAt. rewrite Hb, activated_tileState. fold (tileAt w q).
    split_and!; [done|done|by left]. }
  pose proof (cascade_wfBoard _ _ _ Hc Hwf0) as Hwf1.
  assert (q ∉ ps) as Hout.
  { intros Hin. destruct (c_opened _ _ _ Hc q Hin) as (? & ? & Hs0 & _).
    rewrite activated_tileAt, Hs in Hs0. injection Hs0 as ->. done. }
  pose proof (c_others _ _ _ Hc q Hout) as Hs1.
  rewrite activated_tileAt, Hs in Hs1.
  pose proof (tileAt_inBounds _ _ _ Hwf1 Hs1) as Hin1.
  destruct (dataAt_is_Some w1 q Hwf1 Hin1) as [d Hd1].
  assert (dataAt w q = Some d) as Hd.
  { unfold dataAt in *.
    by rewrite (c_tileData _ _ _ Hc), activated_tileData in Hd1. }
  rewrite (finish_tileAt w1 ps q d s Hwf1 Hd1 Hs1).
  destruct (finish_frame w1 ps) as (_ & _ & _ & ->).
  assert (isUnflaggedBomb d s = false) as ->.
  { unfold isUnflaggedBomb. rewrite Hf. simpl. by rewrite andb_false_r. }
  destruct (existsb _ ps).
  - unfold shouldReveal, revealed. rewrite Hf. simpl.
    destruct d; simpl;
      (split_and!; [done|intros ?; congruence|first [by left|by right]]).
  - destruct (_ =? 0); (split_and!; [done|done|by left]).
Qed.

Lemma flag_protects_witness :
  let w := misflaggedWorld in
  let p := mkPoint 0 0 in
  let q := mkPoint 1 0 in
  let s := mkTileState flag false false in
  reachable w ∧ tileAt w q = Some s ∧ isOpen s = false ∧ state s = flag ∧
  (boardState (board (clickTile p w).2) ≠ lost →
   tileAt (clickTile p w).2 q = Some s) ∧
  (dataAt w q = Some BombTile → tileAt (clickTile p w).2 q = Some s) ∧
  (tileAt (clickTile p w).2 q = Some s ∨
   tileAt (clickTile p w).2 q = Some (mkTileState flag true (wasClicked s))).
Proof.
  intros w p q s.
  assert (tileAt w q = Some s) as Hs by reflexivity.
  assert (isOpen s = false) as Ho by reflexivity.
  assert (state s = flag) as Hf by reflexivity.
  split_and!; [exact misflaggedWorld_reachable|exact Hs|exact Ho|exact Hf|..];
    apply (flag_protects w p q s misflaggedWorld_reachable Hs Ho Hf).
Defined.

Lemma setAt_back {T} (g : Grid T) p v v' :
  getOrNull g p = Some v → setAt (setAt g p v') p v = g.
Proof.
  intros Hv. pose proof (getOrNull_inBounds _ _ _ Hv) as Hp.
  rewrite getOrNull_lookup in Hv by done.
  unfold setAt at 1. unfold pointToArrayIndex.
  rewrite isInBounds_setAt, Hp, width_setAt, height_setAt, array_setAt by done.
  rewrite list_insert_insert_eq, list_insert_id by done. by destruct g.
Qed.

(** X17: toggling a flag twice.  On every board with its grids in place,
    whatever its state and whatever the point, two calls of
    [changeTileState] on the same point leave the board as one activation
    leaves it: the second call takes back what the first one did. *)
Theorem changeTileState_twice w p :
  wfBoard (board w) →
  board (changeTileState p (changeTileState p w).2).2 = board (activated w).
Proof.
  intros Hwf. pose proof (proj2 (activated_wfBoard w) Hwf) as Hwf0.
  assert (∀ w1, boardState (board w1) ≠ not_started → activated w1 = w1)
    as Hidle.
  { intros w1 Hs. unfold activated. by case_bool_decide. }
  assert (boardState (board (activated w)) ≠ not_started) as Hns.
  { unfold activated. case_bool_decide as Hs; simpl; [done|apply Hs]. }
  rewrite (changeTileState_eq p w). case_bool_decide as Hact; cycle 1.
  { simpl. rewrite changeTileState_eq, (Hidle _ Hns).
    by rewrite bool_decide_eq_false_2. }
  destruct (tileAt (activated w) p) as [s|] eqn:Hs; simpl; cycle 1.
  { rewrite changeTileState_eq, (Hidle _ Hns), bool_decide_eq_true_2 by done.
    by rewrite Hs. }
  destruct (isOpen s) eqn:Ho.
  { rewrite changeTileState_eq, (Hidle _ Hns), bool_decide_eq_true_2 by done.
    by rewrite Hs, Ho. }
  set (w1 := toggledAt p s (activated w)).
  assert (tileAt w1 p = Some (toggleMark s)) as Hs1.
  { unfold w1, tileAt, toggledAt. simpl. by apply (getOrNull_setAt_same _ _ s). }
  rewrite changeTileState_eq, (Hidle w1) by (simpl; congruence).
  rewrite bool_decide_eq_true_2 by done. rewrite Hs1. simpl. rewrite Ho.
  unfold toggledAt, w1. simpl. unfold withTileState. simpl.
  rewrite (setAt_back _ p).
  - by destruct (board (activated w)).
  - destruct s as [[] o c]; simpl in *; by subst.
Qed.

Lemma changeTileState_twice_witness :
  let w := newWorld board2x1 in
  let p := mkPoint 1 0 in
  wfBoard (board w) ∧
  board (changeTileState p (changeTileState p w).2).2 = board (activated w).
Proof.
  intros w p. assert (wfBoard (board w)) as Hwf by (vm_compute; intuition congruence).
  split; [exact Hwf|]. exact (changeTileState_twice w p Hwf).
Defined.

(** ** The constructor of the board *)

(** X18: the constructor of [MinesweeperBoard].  It returns exactly for a
    positive width, a positive height and a bomb array of [width * height]
    elements, and throws the first failed assertion otherwise.  The board it
    returns is not started, has the given dimensions, counts as bombs the
    [true] elements of the array, and needs all other tiles opened to win;
    every tile of it is closed, without a flag and not clicked; the tile at
    a point is a bomb exactly when the array holds [true] at the index of
    the point, and an empty tile carries the number of its neighbours on
    the board at which the array holds [true]. *)
Theorem newBoard_fresh w h bombsArray :
  ((∃ b, newBoard w h bombsArray = Return b) ↔
   0 < w ∧ 0 < h ∧ Z.of_nat (length bombsArray) = w * h) ∧
  (w ≤ 0 →
   newBoard w h bombsArray
   = Throw (AssertionError "Width should be greater than zero")) ∧
  (0 < w → h ≤ 0 →
   newBoard w h bombsArray
   = Throw (AssertionError "Height should be greater than zero")) ∧
  (0 < w → 0 < h → Z.of_nat (length bombsArray) ≠ w * h →
   newBoard w h bombsArray
   = Throw (AssertionError
       "Bomb array should be as long as the size of the cells of the grid")) ∧
  (∀ b, newBoard w h bombsArray = Return b →
     boardState b = not_started ∧ wfBoard b ∧
     width (tileData b) = w ∧ height (tileData b) = h ∧
     bombCount b
     = Z.of_nat (length (List.filter (λ isBomb : bool, isBomb) bombsArray)) ∧
     tilesLeftToOpenToWin b = w * h - bombCount b ∧
     ∀ p, isInBounds (tileData b) p = true →
       getOrNull (tileState b) p = Some (mkTileState default false false) ∧
       ∃ v : bool, bombsArray !! Z.to_nat (x p + w * y p) = Some v ∧
            getOrNull (tileData b) p
            = Some (if v then BombTile
                    else EmptyTile
                           (length (List.filter
                              (bombAt (mkGrid w h bombsArray))
                              (eightWayNeighbors p))))).
Proof.
  split_and!.
  - split.
    + intros [b Hb]. by eapply newBoard_Return.
    + intros (Hw & Hh & Hlen).
      destruct (newBoard_spec w h bombsArray Hw Hh Hlen) as (? & -> & _).
      eauto.
  - intros Hw. unfold newBoard, assert.
    by rewrite (proj2 (Z.ltb_ge 0 w)) by lia.
  - intros Hw Hh. unfold newBoard, assert.
    rewrite (proj2 (Z.ltb_lt 0 w)) by lia.
    by rewrite (proj2 (Z.ltb_ge 0 h)) by lia.
  - intros Hw Hh Hlen. unfold newBoard, assert.
    rewrite (proj2 (Z.ltb_lt 0 w)), (proj2 (Z.ltb_lt 0 h)) by lia.
    by rewrite (proj2 (Z.eqb_neq _ _)) by done.
  - intros b Hnew. pose proof (newBoard_Inv _ _ _ _ Hnew) as HI.
    destruct (newBoard_Return _ _ _ _ Hnew) as (Hw & Hh & Hlen).
    destruct (newBoard_spec w h bombsArray Hw Hh Hlen)
      as (dataArray & Hrun & Hlen' & Hpoint & _).
    rewrite Hrun in Hnew. injection Hnew as <-.
    cbn [boardState tileData tileState bombCount tilesLeftToOpenToWin
         width height].
    split_and!; try done; [apply HI|].
    intros p Hp.
    set (bombsGrid := mkGrid w h bombsArray) in *.
    assert (wfGrid bombsGrid) as Hwfb by done.
    assert (isInBounds bombsGrid p = true) as Hpb by exact Hp.
    destruct (getOrNull_is_Some bombsGrid p Hwfb Hpb) as [v Hv].
    split.
    + destruct (tileAt_is_Some _ p (inv_wf _ HI) Hp) as [s Hs].
      pose proof (inv_fresh _ HI eq_refl p s Hs) as ->. exact Hs.
    + exists v. split.
      * by rewrite getOrNull_lookup in Hv by done.
      * by apply Hpoint.
Qed.

(** ** pixi/minesweeper-tile *)

Lemma bombNeighbors_le w p n :
  Inv w → dataAt w p = Some (EmptyTile n) → (n ≤ 8)%nat.
Proof.
  intros HI Hd. rewrite (inv_data _ HI p n Hd).
  etrans; [apply List.filter_length_le|]. done.
Qed.

(** X19: every tile has a texture.  On a board that was played from a
    constructed one, the number of bomb neighbours of an empty tile is at
    most 8, so that [getTextureKey] finds a texture for every tile, whatever
    its state and its highlight: the index into [numberTextures] is never
    outside. *)
Theorem tile_texture_defined w p d s highlight :
  reachable w → dataAt w p = Some d → tileAt w p = Some s →
  (∀ n, d = EmptyTile n → (n ≤ 8)%nat) ∧
  ∃ key, getTextureKey highlight d s = Some key.
Proof.
  intros Hreach Hd Hs. pose proof (reachable_Inv w Hreach) as HI.
  assert (∀ n, d = EmptyTile n → (n ≤ 8)%nat) as Hn.
  { intros n ->. by eapply bombNeighbors_le. }
  split; [done|]. unfold getTextureKey.
  destruct (isOpen s); simpl; [|destruct (state s); eauto].
  destruct d as [n|]; [|eauto]. destruct (state s); [|eauto].
  apply lookup_lt_is_Some_2. specialize (Hn n eq_refl).
  unfold numberTextures. rewrite length_fmap. simpl. lia.
Qed.

Lemma tile_texture_defined_witness :
  let w := chordWorld in
  let p := mkPoint 0 0 in
  let d := EmptyTile 1 in
  let s := mkTileState default true true in
  let highlight := false in
  reachable w ∧ dataAt w p = Some d ∧ tileAt w p = Some s ∧
  (∀ n, d = EmptyTile n → (n ≤ 8)%nat) ∧
  ∃ key, getTextureKey highlight d s = Some key.
Proof.
  intros w p d s highlight.
  assert (dataAt w p = Some d) as Hd by reflexivity.
  assert (tileAt w p = Some s) as Hs by reflexivity.
  split_and!; [exact chordWorld_reachable|exact Hd|exact Hs|..];
    apply (tile_texture_defined w p d s highlight chordWorld_reachable Hd Hs).
Defined.

Lemma numberTextures_not (key : string) n :
  key = "cell/open/no_mine.png"%string ∨ key = "cell/open/mine.png"%string ∨
  key = "cell/open/mine_red.png"%string ∨ key = "cell/filled/flag.png"%string →
  numberTextures !! n ≠ Some key.
Proof.
  intros Hkey Hn.
  do 9 (destruct n as [|n]; [destruct Hkey as [-> | [-> | [-> | ->] ] ]; done|]).
  done.
Qed.

(** X20: how a lost board is drawn.  On a lost board that was played from
    a constructed one, the texture of a tile is the crossed-out mine exactly
    on the flagged empty tiles, a mine (red or not) exactly on the bombs
    without a flag, and the flag exactly on the bombs with a flag: the
    player sees every bomb and every wrong flag. *)
Theorem lost_board_textures w p d s highlight :
  reachable w → boardState (board w) = lost →
  dataAt w p = Some d → tileAt w p = Some s →
  (getTextureKey highlight d s = Some "cell/open/no_mine.png"%string ↔
   isBomb d = false ∧ state s = flag) ∧
  (getTextureKey highlight d s = Some "cell/open/mine.png"%string ∨
   getTextureKey highlight d s = Some "cell/open/mine_red.png"%string ↔
   isBomb d = true ∧ state s = default) ∧
  (getTextureKey highlight d s = Some "cell/filled/flag.png"%string ↔
   isBomb d = true ∧ state s = flag).
Proof.
  intros Hreach Hlost Hd Hs. pose proof (reachable_Shape w Hreach) as HS.
  destruct (shape_lost _ HS Hlost p d s Hd Hs) as (Hbomb & Hempty).
  unfold getTextureKey.
  destruct d as [n|], s as [[] [] wc]; simpl in *;
    try (specialize (Hbomb eq_refl)); try (specialize (Hempty eq_refl eq_refl));
    try done;
    (split_and!; (split; [|intros [? ?]; try done]));
    try (intros [?|?]); try (intros ?); simplify_eq; try done;
    try (by destruct highlight); try (by destruct wc; auto);
    try (exfalso; by eapply numberTextures_not; [|eassumption]; auto).
Qed.

Lemma lost_board_textures_witness :
  let w := lostWorld in
  let p := mkPoint 1 0 in
  let d := EmptyTile 1 in
  let s := mkTileState flag true false in
  let highlight := false in
  reachable w ∧ boardState (board w) = lost ∧
  dataAt w p = Some d ∧ tileAt w p = Some s ∧
  (getTextureKey highlight d s = Some "cell/open/no_mine.png"%string ↔
   isBomb d = false ∧ state s = flag) ∧
  (getTextureKey highlight d s = Some "cell/open/mine.png"%string ∨
   getTextureKey highlight d s = Some "cell/open/mine_red.png"%string ↔
   isBomb d = true ∧ state s = default) ∧
  (getTextureKey highlight d s = Some "cell/filled/flag.png"%string ↔
   isBomb d = true ∧ state s = flag).
Proof.
  intros w p d s highlight.
  assert (boardState (board w) = lost) as Hlost by reflexivity.
  assert (dataAt w p = Some d) as Hd by reflexivity.
  assert (tileAt w p = Some s) as Hs by reflexivity.
  split_and!; [exact lostWorld_reachable|exact Hlost|exact Hd|exact Hs|..];
    apply (lost_board_textures w p d s highlight lostWorld_reachable Hlost Hd Hs).
Defined.

(** X21: the bomb that was clicked is the red one.  On a running board
    that was played from a constructed one, a click on a closed bomb without
    a flag loses the game, and afterwards the clicked bomb is drawn as the
    red mine, every other bomb without a flag as a plain mine, and every
    bomb with a flag still as a flag. *)
Theorem clicked_bomb_is_red w p wc highlight :
  reachable w → running w →
  tileAt w p = Some (mkTileState default false wc) →
  dataAt w p = Some BombTile →
  boardState (board (clickTile p w).2) = lost ∧
  ∀ q, dataAt w q = Some BombTile →
    ∃ s', tileAt (clickTile p w).2 q = Some s' ∧
          getTextureKey highlight BombTile s'
          = Some (if bool_decide (q = p) then "cell/open/mine_red.png"
                  else if isFlag (state s') then "cell/filled/flag.png"
                  else "cell/open/mine.png")%string.
Proof.
  intros Hreach Hr Hs Hd.
  pose proof (reachable_Inv w Hreach) as HI.
  pose proof (reachable_Shape w Hreach) as HS.
  pose proof (inv_wf _ HI) as Hwf.
  pose proof (proj2 (activated_wfBoard w) Hwf) as Hwf0.
  pose proof (clickTile_outcome w p HI) as Hout.
  pose proof (proj2 (isBombAt_true w p) Hd) as Hb.
  destruct (clickTile p w) as [o w']. simpl in *.
  destruct Hout as [Hr'|Hr' Hout'|s Hr' Hs' Ho Hf|wc' w1 ps Hr' Hs' Hc Hs1 _ Hone
                    |s k Hr' Hs' Ho Hd' Hk|s k w1 ps Hr' Hs' Ho Hd' Hk Hc _ _].
  - done.
  - destruct Hout'. by eapply tileAt_inBounds.
  - rewrite Hs in Hs'. injection Hs' as <-. done.
  - rewrite (Hone Hb) in *. clear Hone.
    pose proof (cascade_wfBoard _ _ _ Hc Hwf0) as Hwf1.
    assert (existsb (isBombAt (tileData (board w1))) [p] = true) as Hex.
    { simpl. by rewrite (c_tileData _ _ _ Hc), activated_tileData, Hb. }
    destruct (finish_frame w1 [p]) as (_ & _ & _ & Hstate).
    rewrite Hex in Hstate. split; [done|].
    intros q Hq.
    assert (dataAt w1 q = Some BombTile) as Hq1.
    { unfold dataAt. by rewrite (c_tileData _ _ _ Hc), activated_tileData. }
    assert (inBounds w1 q) as Hin1.
    { unfold inBounds. by eapply getOrNull_inBounds. }
    destruct (tileAt_is_Some w1 q Hwf1 Hin1) as [s1 Hsq1].
    rewrite (finish_tileAt w1 [p] q BombTile s1 Hwf1 Hq1 Hsq1), Hex.
    eexists. split; [done|].
    case_bool_decide as Hqp.
    + subst q. rewrite Hs1 in Hsq1. by injection Hsq1 as <-.
    + assert (q ∉ [p]) as Hout1 by by intros ?%list_elem_of_singleton.
      rewrite (c_others _ _ _ Hc q Hout1), activated_tileAt in Hsq1.
      assert (isOpen s1 = false) as Ho1.
      { destruct (isOpen s1) eqn:Ho1; [|done].
        pose proof (inv_no_open_bomb _ HI Hr q s1 Hsq1 Ho1) as Hnb.
        by rewrite (proj2 (isBombAt_true w q) Hq) in Hnb. }
      pose proof (shape_closed _ HS q s1 Hsq1 Ho1) as Hc1.
      destruct s1 as [[] o c]; simpl in *; by subst.
  - rewrite Hs in Hs'. injection Hs' as <-. done.
  - rewrite Hs in Hs'. injection Hs' as <-. done.
Qed.

Lemma clicked_bomb_is_red_witness :
  let w := newWorld board3x3 in
  let p := mkPoint 1 1 in
  let wc := false in
  let highlight := false in
  reachable w ∧ running w ∧
  tileAt w p = Some (mkTileState default false wc) ∧
  dataAt w p = Some BombTile ∧
  boardState (board (clickTile p w).2) = lost ∧
  ∀ q, dataAt w q = Some BombTile →
    ∃ s', tileAt (clickTile p w).2 q = Some s' ∧
          getTextureKey highlight BombTile s'
          = Some (if bool_decide (q = p) then "cell/open/mine_red.png"
                  else if isFlag (state s') then "cell/filled/flag.png"
                  else "cell/open/mine.png")%string.
Proof.
  intros w p wc highlight.
  assert (running w) as Hr by (left; reflexivity).
  assert (tileAt w p = Some (mkTileState default false wc)) as Hs by reflexivity.
  assert (dataAt w p = Some BombTile) as Hd by reflexivity.
  split_and!; [exact board3x3_reachable|exact Hr|exact Hs|exact Hd|..];
    apply (clicked_bomb_is_red w p wc highlight board3x3_reachable Hr Hs Hd).
Defined.

(** ** The assertions of the game *)

(** X22: the assertions of the game never fail.  On a board that was
    played from a constructed one by calls that ran to completion, and on a
    call stack of any depth, [clickTile] returns, or exhausts the stack in a
    flood fill, or throws the error of [Grid.get] for a point outside the
    board.  [changeTileState], which opens no tile, returns or throws that
    error for a point outside.  For a point of the board [clickTile]
    returns whenever the stack has room for more nested calls of
    [setTileOpen] than the board has closed tiles without a flag.  So the
    assertion of [checkWin] on the counter and the assertion of
    [openNeighbors] on the open tile hold whenever they are reached. *)
Theorem only_out_of_bounds_is_thrown w p stack :
  reachable w →
  ((clickTileOn stack p w).1 = Return tt ∨
   (clickTileOn stack p w).1 = OutOfFuel ∨
   (clickTileOn stack p w).1 = Throw (OutOfBoundsError p) ∧ ¬ inBounds w p) ∧
  ((changeTileState p w).1 = Return tt ∨
   (changeTileState p w).1 = Throw (OutOfBoundsError p) ∧ ¬ inBounds w p) ∧
  (inBounds w p →
   (changeTileState p w).1 = Return tt ∧
   ((clickTileOn stack p w).1 = Return tt ∨
    (clickTileOn stack p w).1 = OutOfFuel) ∧
   ((closedDefault (board w) < stack)%nat →
    (clickTileOn stack p w).1 = Return tt)).
Proof.
  intros Hreach. pose proof (reachable_Inv w Hreach) as HI.
  pose proof (inv_wf _ HI) as Hwf.
  assert ((clickTile p w).1 = Return tt ∨
          (clickTile p w).1 = Throw (OutOfBoundsError p) ∧ ¬ inBounds w p)
    as Hclick.
  { pose proof (clickTile_outcome w p HI) as Hout.
    destruct (clickTile p w) as [o w']. simpl in *.
    destruct Hout; auto. }
  assert ((changeTileState p w).1 = Return tt ∨
          (changeTileState p w).1 = Throw (OutOfBoundsError p) ∧ ¬ inBounds w p)
    as Hflag.
  { rewrite changeTileState_eq. case_bool_decide; [|by left].
    destruct (tileAt (activated w) p) as [s|] eqn:Hs; [by left|].
    right. split; [done|]. intros Hin.
    rewrite activated_tileAt in Hs.
    destruct (tileAt_is_Some w p Hwf Hin). congruence. }
  pose proof (clickTileOn_any stack w p Hwf) as Hany.
  split_and!; [|done|].
  - destruct Hany as [-> |?]; [|by auto].
    destruct Hclick as [|[? ?]]; auto.
  - intros Hin. split_and!.
    + by destruct Hflag as [|[_ ?]].
    + destruct Hany as [-> |?]; [|by auto].
      destruct Hclick as [|[_ ?]]; [by left|done].
    + intros Hstack. rewrite (clickTileOn_enough stack w p Hwf Hstack).
      by destruct Hclick as [|[_ ?]].
Qed.

Lemma only_out_of_bounds_is_thrown_witness :
  let w := newWorld cornerBoard in
  let p := mkPoint 2 2 in
  let stack := 10%nat in
  reachable w ∧
  (((clickTileOn stack p w).1 = Return tt ∨
    (clickTileOn stack p w).1 = OutOfFuel ∨
    (clickTileOn stack p w).1 = Throw (OutOfBoundsError p) ∧ ¬ inBounds w p) ∧
   ((changeTileState p w).1 = Return tt ∨
    (changeTileState p w).1 = Throw (OutOfBoundsError p) ∧ ¬ inBounds w p) ∧
   (inBounds w p →
    (changeTileState p w).1 = Return tt ∧
    ((clickTileOn stack p w).1 = Return tt ∨
     (clickTileOn stack p w).1 = OutOfFuel) ∧
    ((closedDefault (board w) < stack)%nat →
     (clickTileOn stack p w).1 = Return tt))) ∧
  inBounds w p ∧ (closedDefault (board w) < stack)%nat ∧
  (clickTileOn 1 p w).1 = OutOfFuel.
Proof.
  intros w p stack. split; [exact cornerBoard_reachable|].
  split; [|split_and!; [reflexivity|vm_compute; lia|reflexivity]].
  exact (only_out_of_bounds_is_thrown w p stack cornerBoard_reachable).
Defined.

(** ** lib/signal *)

Section SignalFacts.
Import SignalClass.
Context {K : Type} `{EqDecision K}.

Lemma change_NoDup (s : Signal K) (c : Change K) :
  NoDup (callbacks s) → NoDup (callbacks (change s c)).
Proof.
  intros Hnd. destruct c as [k|k|]; simpl.
  - unfold connect. case_bool_decide as Hk; [done|]. simpl.
    apply NoDup_app. split_and!; [done| |apply NoDup_singleton].
    intros c Hc ->%list_elem_of_singleton. done.
  - by apply NoDup_ListNoDup, List.NoDup_filter, NoDup_ListNoDup.
  - constructor.
Qed.

Lemma elem_of_change (s : Signal K) (c : Change K) k :
  k ∈ callbacks (change s c) ↔
  match c with
  | Connect k' => k = k' ∨ k ∈ callbacks s
  | Disconnect k' => k ≠ k' ∧ k ∈ callbacks s
  | Clear => False
  end.
Proof.
  destruct c as [k'|k'|]; simpl.
  - unfold connect. case_bool_decide as Hk; simpl.
    + split; [auto|]. by intros [->|?].
    + rewrite elem_of_app, list_elem_of_singleton. tauto.
  - rewrite list_elem_of_In, filter_In, <- list_elem_of_In.
    rewrite negb_true_iff, bool_decide_eq_false. tauto.
  - apply elem_of_nil.
Qed.

Lemma changes_callbacks (cs : list (Change K)) :
  NoDup (callbacks (foldl change newSignal cs)) ∧
  ∀ k, k ∈ callbacks (foldl change newSignal cs) ↔ connectedBy k cs = true.
Proof.
  induction cs as [|c cs IH] using rev_ind.
  { split; [constructor|]. intros k. simpl. split; [by intros ?%elem_of_nil|done]. }
  destruct IH as [Hnd Hin]. rewrite foldl_snoc. split.
  - by apply change_NoDup.
  - intros k. rewrite elem_of_change. unfold connectedBy. rewrite foldl_snoc.
    fold (connectedBy k cs). specialize (Hin k).
    destruct c as [k'|k'|]; repeat case_bool_decide; subst;
      try tauto; try (intuition congruence).
Qed.

(** X23: who a signal calls.  After any sequence of [connect],
    [disconnect] and [clear] calls on a new signal, the callbacks of the
    signal are those whose last call among these was a [connect] that no
    [clear] followed, each of them once; [emit] calls exactly these, once
    each, with the data emitted, and in the order in which the signal holds
    them.  A callback that is connected again keeps its place and is not
    called twice. *)
Theorem signal_calls_connected_once {T : Type} (cs : list (Change K)) (data : T) :
  let s := foldl change newSignal cs in
  NoDup (callbacks s) ∧
  (∀ k, k ∈ callbacks s ↔ connectedBy k cs = true) ∧
  emit (λ k d calls, calls ++ [(k, d)]) data s []
  = (λ k, (k, data)) <$> callbacks s ∧
  (∀ k, k ∈ callbacks s → connect k s = s).
Proof.
  intros s. destruct (changes_callbacks cs) as [Hnd Hin]. split_and!; try done.
  - unfold emit. generalize (callbacks s).
    assert (∀ (l : list K) (acc : list (K * T)),
              foldl (λ st0 callback, st0 ++ [(callback, data)]) acc l
              = acc ++ ((λ k, (k, data)) <$> l)) as Hfold.
    { induction l as [|k l IH]; intros acc; simpl; [by rewrite app_nil_r|].
      by rewrite IH, <- app_assoc. }
    intros l. by rewrite Hfold.
  - intros k Hk. unfold connect. by rewrite bool_decide_eq_true_2.
Qed.

(** X24: the laws of [connect], [disconnect] and [clear].  On every signal:
    a callback that is not connected is called last once it is connected,
    after all the others; disconnecting it again gives back the signal as
    it was; a disconnected callback is not called any more while all others
    still are, in their order; and after [clear] an [emit] does nothing. *)
Theorem signal_laws {T S : Type} (call : K → T → S → S)
    (s : Signal K) (k : K) (data : T) (st : S) :
  (k ∉ callbacks s →
   emit call data (connect k s) st = call k data (emit call data s st)) ∧
  (k ∉ callbacks s → disconnect k (connect k s) = s) ∧
  (k ∉ callbacks (disconnect k s)) ∧
  (∀ k', k' ≠ k → (k' ∈ callbacks (disconnect k s) ↔ k' ∈ callbacks s)) ∧
  (k ∉ callbacks s → disconnect k s = s) ∧
  emit call data (clear s) st = st ∧
  emit call data newSignal st = st.
Proof.
  assert (∀ l : list K, k ∉ l →
            List.filter (λ c, negb (bool_decide (c = k))) l = l) as Hfilter.
  { induction l as [|c l IH]; intros Hk; [done|].
    apply not_elem_of_cons in Hk as [Hne Hk]. simpl.
    rewrite bool_decide_eq_false_2 by done. simpl. by rewrite IH. }
  split_and!; try done.
  - intros Hk. unfold connect, emit. rewrite bool_decide_eq_false_2 by done.
    simpl. by rewrite foldl_snoc.
  - intros Hk. unfold connect, disconnect. rewrite bool_decide_eq_false_2 by done.
    simpl. rewrite List.filter_app, Hfilter by done. simpl.
    rewrite bool_decide_eq_true_2 by done. simpl. rewrite app_nil_r.
    by destruct s.
  - rewrite (elem_of_change s (Disconnect k)). tauto.
  - intros k' Hne. rewrite (elem_of_change s (Disconnect k)). tauto.
  - intros Hk. unfold disconnect. rewrite Hfilter by done. by destruct s.
Qed.

End SignalFacts.

(** ** utils/clamp and utils/digit-array *)

(** X25: [clamp].  With [min <= max] it returns the value when that lies
    in the range, else the bound of the range on the side of the value, so
    always a number of the range; clamping twice is clamping once.  With
    [min > max] it throws. *)
Theorem clamp_range value min max :
  (min ≤ max →
   ∃ r, clamp value min max = Return r ∧ min ≤ r ≤ max ∧
        (min ≤ value ≤ max → r = value) ∧
        (value < min → r = min) ∧ (max < value → r = max) ∧
        clamp r min max = Return r) ∧
  (max < min →
   clamp value min max
   = Throw (AssertionError
              "The 'min' value cannot be greater than the 'max' value.")).
Proof.
  unfold clamp, assert. split.
  - intros Hle. rewrite (proj2 (Z.leb_le min max)) by done. simpl.
    eexists. split; [done|]. split_and!; try lia. f_equal. lia.
  - intros Hlt. by rewrite (proj2 (Z.leb_gt min max)) by done.
Qed.

Lemma digitLoop_length digits number :
  length (digitLoop digits number) = digits.
Proof.
  revert number. induction digits as [|i IH]; intros number; simpl; [done|].
  by rewrite IH.
Qed.

Lemma digitsValue_cons_lt d l acc :
  foldl (λ acc digit, 10 * acc + digit) acc (d :: l)
  = foldl (λ acc digit, 10 * acc + digit) (10 * acc + d) l.
Proof. done. Qed.

Lemma foldl_digits acc l :
  foldl (λ acc digit, 10 * acc + digit) acc l
  = acc * 10 ^ Z.of_nat (length l) + foldl (λ acc digit, 10 * acc + digit) 0 l.
Proof.
  revert acc. induction l as [|d l IH]; intros acc; simpl foldl.
  - simpl. lia.
  - rewrite IH, (IH (10 * 0 + d)).
    replace (Z.of_nat (length (d :: l))) with (Z.of_nat (length l) + 1)
      by (simpl; lia).
    rewrite Z.pow_add_r by lia. lia.
Qed.

Lemma digitLoop_spec digits number :
  0 ≤ number < 10 ^ Z.of_nat digits →
  digitsValue (digitLoop digits number) = number ∧
  Forall (λ d, 0 ≤ d ≤ 9) (digitLoop digits number).
Proof.
  revert number. induction digits as [|i IH]; intros number Hn.
  { simpl in *. split; [unfold digitsValue; simpl; lia|constructor]. }
  assert (0 < 10 ^ Z.of_nat i) as Hpos by (apply Z.pow_pos_nonneg; lia).
  assert (10 ^ Z.of_nat (S i) = 10 * 10 ^ Z.of_nat i) as Hpow.
  { rewrite Nat2Z.inj_succ, Z.pow_succ_r by lia. done. }
  rewrite Hpow in Hn.
  pose proof (Z.mod_pos_bound number (10 ^ Z.of_nat i) Hpos) as Hmod.
  pose proof (Z.div_mod number (10 ^ Z.of_nat i)) as Hdm.
  assert (0 ≤ number `div` 10 ^ Z.of_nat i) as Hd0 by (apply Z.div_pos; lia).
  assert (number `div` 10 ^ Z.of_nat i < 10) as Hd9
    by (apply Z.div_lt_upper_bound; lia).
  destruct (IH (number `mod` 10 ^ Z.of_nat i) Hmod) as (Hval & Hall).
  cbn [digitLoop]. split.
  - unfold digitsValue in *. rewrite digitsValue_cons_lt, foldl_digits, Hval.
    rewrite digitLoop_length. lia.
  - constructor; [lia|done].
Qed.

Lemma getDigitArray_nonzero (floorLog10 : Z → Z) (n : Z) :
  n ≠ 0 →
  getDigitArray floorLog10 n
  = digitLoop (Z.to_nat (floorLog10 (Z.abs n) + 1)) (Z.abs n).
Proof.
  intros Hn. unfold getDigitArray.
  rewrite (proj2 (Z.eqb_neq n 0)) by done. by rewrite Z.abs_idemp.
Qed.

Lemma digitLoop_leading (i : nat) (n : Z) :
  10 ^ Z.of_nat i ≤ n → ∃ d l, digitLoop (S i) n = d :: l ∧ 1 ≤ d.
Proof.
  intros Hn. cbn [digitLoop]. eexists _, _. split; [done|].
  apply Z.div_le_lower_bound; [apply Z.pow_pos_nonneg; lia|lia].
Qed.

(** X26: [getDigitArray] writes the number in decimal.  For 0 it returns
    [[0]].  For another integer [n] below [2 ^ 52] in absolute value, for
    which [Math.floor(Math.log10(|n|))] is the integer logarithm of [|n|],
    it returns the decimal digits of [|n|]: each between 0 and 9, the first
    one not 0, as many as [|n|] has digits, and read as a decimal number
    they give [|n|] back. *)
Theorem getDigitArray_decimal (floorLog10 : Z → Z) (n : Z) :
  Z.abs n < 2 ^ 52 →
  (n ≠ 0 →
   0 ≤ floorLog10 (Z.abs n) ∧
   10 ^ floorLog10 (Z.abs n) ≤ Z.abs n < 10 ^ (floorLog10 (Z.abs n) + 1)) →
  digitsValue (getDigitArray floorLog10 n) = Z.abs n ∧
  Forall (λ d, 0 ≤ d ≤ 9) (getDigitArray floorLog10 n) ∧
  (0 < length (getDigitArray floorLog10 n))%nat ∧
  (n ≠ 0 →
   Z.of_nat (length (getDigitArray floorLog10 n)) = floorLog10 (Z.abs n) + 1 ∧
   ∃ d l, getDigitArray floorLog10 n = d :: l ∧ 1 ≤ d) ∧
  (n = 0 → getDigitArray floorLog10 n = [0]).
Proof.
  intros _ Hlog. destruct (decide (n = 0)) as [->|Hn].
  { unfold getDigitArray. simpl. split_and!; try done; try lia.
    repeat constructor; lia. }
  destruct (Hlog Hn) as (Hk & Hlo & Hhi).
  rewrite (getDigitArray_nonzero floorLog10 n Hn).
  set (k := floorLog10 (Z.abs n)) in *.
  assert (Z.to_nat (k + 1) = S (Z.to_nat k)) as Hdigits by lia.
  destruct (digitLoop_spec (Z.to_nat (k + 1)) (Z.abs n)) as (Hval & Hall).
  { rewrite Z2Nat.id by lia. lia. }
  split_and!; try done.
  - rewrite digitLoop_length. lia.
  - intros _. split; [rewrite digitLoop_length; lia|].
    rewrite Hdigits. apply digitLoop_leading. by rewrite Z2Nat.id by lia.
Qed.

Lemma log10Loop_spec fuel n :
  1 ≤ n → n ≤ Z.of_nat fuel →
  0 ≤ log10Loop fuel n ∧
  10 ^ log10Loop fuel n ≤ n < 10 ^ (log10Loop fuel n + 1).
Proof.
  revert n. induction fuel as [|fuel IH]; intros n H1 Hf; [lia|].
  simpl. destruct (n <? 10) eqn:Hlt.
  - apply Z.ltb_lt in Hlt. simpl. lia.
  - apply Z.ltb_ge in Hlt.
    pose proof (Z.div_mod n 10) as Hdm.
    pose proof (Z.mod_pos_bound n 10) as Hmod.
    destruct (IH (n `div` 10)) as (Hk & Hlo & Hhi); [lia|lia|].
    set (k := log10Loop fuel (n `div` 10)) in *.
    rewrite !Z.pow_add_r, !Z.pow_1_r by lia.
    rewrite Z.pow_add_r, Z.pow_1_r in Hhi by lia. lia.
Qed.

Lemma exactFloorLog10_spec n :
  1 ≤ n →
  0 ≤ exactFloorLog10 n ∧
  10 ^ exactFloorLog10 n ≤ n < 10 ^ (exactFloorLog10 n + 1).
Proof. intros Hn. apply log10Loop_spec; lia. Qed.

Lemma getDigitArray_decimal_witness :
  let floorLog10 := exactFloorLog10 in
  let n := -407 in
  Z.abs n < 2 ^ 52 ∧
  (n ≠ 0 →
   0 ≤ floorLog10 (Z.abs n) ∧
   10 ^ floorLog10 (Z.abs n) ≤ Z.abs n < 10 ^ (floorLog10 (Z.abs n) + 1)) ∧
  digitsValue (getDigitArray floorLog10 n) = Z.abs n ∧
  Forall (λ d, 0 ≤ d ≤ 9) (getDigitArray floorLog10 n) ∧
  (0 < length (getDigitArray floorLog10 n))%nat ∧
  (n ≠ 0 →
   Z.of_nat (length (getDigitArray floorLog10 n)) = floorLog10 (Z.abs n) + 1 ∧
   ∃ d l, getDigitArray floorLog10 n = d :: l ∧ 1 ≤ d) ∧
  (n = 0 → getDigitArray floorLog10 n = [0]).
Proof.
  intros floorLog10 n.
  assert (n ≠ 0 →
          0 ≤ floorLog10 (Z.abs n) ∧
          10 ^ floorLog10 (Z.abs n) ≤ Z.abs n < 10 ^ (floorLog10 (Z.abs n) + 1))
    as Hlog.
  { intros _. vm_compute. intuition congruence. }
  assert (Z.abs n < 2 ^ 52) as Hn by (vm_compute; reflexivity).
  split; [exact Hn|]. split; [exact Hlog|].
  exact (getDigitArray_decimal floorLog10 n Hn Hlog).
Defined.

(** ** pixi/minesweeper-number-display *)

Lemma digits_upto_999 (floorLog10 : Z → Z) (n : Z) :
  (∀ n, 1 ≤ n ≤ 999 →
     0 ≤ floorLog10 n ∧ 10 ^ floorLog10 n ≤ n < 10 ^ (floorLog10 n + 1)) →
  0 ≤ n ≤ 999 →
  digitsValue (getDigitArray floorLog10 n) = n ∧
  Forall (λ d, 0 ≤ d ≤ 9) (getDigitArray floorLog10 n) ∧
  (1 ≤ length (getDigitArray floorLog10 n) ≤ 3)%nat ∧
  (n ≤ 99 → (length (getDigitArray floorLog10 n) ≤ 2)%nat) ∧
  (n ≠ 0 → ∃ d l, getDigitArray floorLog10 n = d :: l ∧ 1 ≤ d).
Proof.
  intros Hlog Hn.
  destruct (decide (n = 0)) as [->|Hne].
  { unfold getDigitArray. simpl.
    split_and!; try done; try lia; try (repeat constructor; lia). }
  rewrite (getDigitArray_nonzero floorLog10 n Hne), Z.abs_eq by lia.
  destruct (Hlog n) as (Hk & Hlo & Hhi); [lia|].
  set (k := floorLog10 n) in *.
  assert (k ≤ 2) as Hk2.
  { destruct (Z.le_gt_cases k 2) as [|Hgt]; [done|].
    assert (10 ^ 3 ≤ 10 ^ k) by (apply Z.pow_le_mono_r; lia). lia. }
  assert (Z.to_nat (k + 1) = S (Z.to_nat k)) as Hdigits by lia.
  destruct (digitLoop_spec (Z.to_nat (k + 1)) n) as (Hval & Hall).
  { rewrite Z2Nat.id by lia. lia. }
  rewrite digitLoop_length. split_and!; try done; try lia.
  - intros Hn99. assert (k ≤ 1); [|lia].
    destruct (Z.le_gt_cases k 1) as [|Hgt]; [done|].
    assert (10 ^ 2 ≤ 10 ^ k) by (apply Z.pow_le_mono_r; lia). lia.
  - intros _. rewrite Hdigits. apply digitLoop_leading.
    by rewrite Z2Nat.id by lia.
Qed.

(** X27: the number display shows the value.  If
    [Math.floor(Math.log10(n))] is the integer logarithm for the integers
    from 1 to 999, then [updateDisplay] passes all its assertions for every
    integer value: the three sprites show the value clamped to
    [-99 .. 999], as its decimal digits without a leading zero, right
    aligned, directly preceded by the minus sign when the value is negative,
    and with empty cells before. *)
Theorem updateDisplay_shows_value (floorLog10 : Z → Z) (value : Z)
    (sprites : list (option string)) :
  (∀ n, 1 ≤ n ≤ 999 →
     0 ≤ floorLog10 n ∧ 10 ^ floorLog10 n ≤ n < 10 ^ (floorLog10 n + 1)) →
  length sprites = 3%nat →
  let shown := Z.min (Z.max value (-99)) 999 in
  let digits := getDigitArray floorLog10 (Z.abs shown) in
  let sign := if value <? 0 then [Some "number/minus.png"%string] else [] in
  digitsValue digits = Z.abs shown ∧
  Forall (λ d, 0 ≤ d ≤ 9) digits ∧
  (shown ≠ 0 → ∃ d l, digits = d :: l ∧ 1 ≤ d) ∧
  (length sign + length digits ≤ 3)%nat ∧
  updateDisplay floorLog10 value sprites
  = (Return tt,
     replicate (3 - length sign - length digits) (Some "number/empty.png"%string)
     ++ sign ++ ((λ d, digitTextures !! Z.to_nat d) <$> digits)) ∧
  Forall (λ key, is_Some key) (updateDisplay floorLog10 value sprites).2.
Proof.
  intros Hlog Hsprites shown digits sign.
  assert (0 ≤ Z.abs shown ≤ 999) as Habs by (unfold shown; lia).
  destruct (digits_upto_999 floorLog10 (Z.abs shown) Hlog Habs)
    as (Hval & Hall & Hlen & Hlen99 & Hnz).
  fold digits in Hval, Hall, Hlen, Hlen99, Hnz.
  assert (shown ≠ 0 → ∃ d l, digits = d :: l ∧ 1 ≤ d) as Hlead.
  { intros Hne. apply Hnz. lia. }
  assert ((value <? 0) = true → (length digits ≤ 2)%nat) as Hneg.
  { intros Hv%Z.ltb_lt. apply Hlen99. unfold shown. lia. }
  assert (updateDisplay floorLog10 value sprites
          = updateSprites
              (spriteTexture (value <? 0) digits (3 - Z.of_nat (length digits)))
              0 sprites) as ->.
  { unfold updateDisplay, clamp, assert. simpl. fold shown. fold digits.
    rewrite (proj2 (Nat.ltb_lt 0 (length digits))) by lia. simpl.
    destruct (value <? 0) eqn:Hv.
    - rewrite (proj2 (Nat.leb_le (length digits) 2)) by auto. done.
    - rewrite (proj2 (Nat.leb_le (length digits) 3)) by lia. done. }
  assert (∀ d, 0 ≤ d ≤ 9 →
            assert ((0 <=? d) && (d <=? 9))
              "Digit can't be bigger than 9 or less than 0." = Return tt ∧
            is_Some (digitTextures !! Z.to_nat d)) as Hdigit.
  { intros d Hd. split.
    - unfold assert.
      by rewrite (proj2 (Z.leb_le 0 d)), (proj2 (Z.leb_le d 9)) by lia.
    - apply lookup_lt_is_Some_2. unfold digitTextures.
      rewrite length_fmap. simpl. lia. }
  destruct sprites as [|s0 [|s1 [|s2 [|]]]]; try done.
  assert (updateSprites
            (spriteTexture (value <? 0) digits (3 - Z.of_nat (length digits)))
            0 [s0; s1; s2]
          = (Return tt,
             replicate (3 - length sign - length digits)
               (Some "number/empty.png"%string)
             ++ sign ++ ((λ d, digitTextures !! Z.to_nat d) <$> digits)))
    as Hrun.
  { unfold sign. clear Hval Hlead Hlen99.
    destruct digits as [|d1 [|d2 [|d3 [|]]]]; simpl in Hlen; try lia.
    - apply Forall_cons in Hall as [H1 _].
      destruct (Hdigit d1 H1) as [Ha1 _].
      destruct (value <? 0); simpl; unfold spriteTexture; simpl;
        by rewrite Ha1.
    - apply Forall_cons in Hall as [H1 Hall].
      apply Forall_cons in Hall as [H2 _].
      destruct (Hdigit d1 H1) as [Ha1 _]. destruct (Hdigit d2 H2) as [Ha2 _].
      destruct (value <? 0); simpl; unfold spriteTexture; simpl;
        by rewrite Ha1, Ha2.
    - apply Forall_cons in Hall as [H1 Hall].
      apply Forall_cons in Hall as [H2 Hall].
      apply Forall_cons in Hall as [H3 _].
      destruct (Hdigit d1 H1) as [Ha1 _]. destruct (Hdigit d2 H2) as [Ha2 _].
      destruct (Hdigit d3 H3) as [Ha3 _].
      destruct (value <? 0) eqn:Hv; [specialize (Hneg eq_refl); simpl in Hneg; lia|].
      simpl. unfold spriteTexture. simpl. by rewrite Ha1, Ha2, Ha3. }
  rewrite Hrun. split_and!; try done.
  - unfold sign. destruct (value <? 0); simpl; [specialize (Hneg eq_refl)|]; lia.
  - simpl. rewrite !Forall_app. split_and!.
    + apply Forall_replicate. by eexists.
    + unfold sign. destruct (value <? 0); repeat constructor. by eexists.
    + apply Forall_fmap. eapply Forall_impl; [exact Hall|].
      intros d Hd. by apply Hdigit.
Qed.

Lemma updateDisplay_shows_value_witness :
  let floorLog10 := exactFloorLog10 in
  let value := -5 in
  let sprites := [None; None; None] in
  (∀ n, 1 ≤ n ≤ 999 →
     0 ≤ floorLog10 n ∧ 10 ^ floorLog10 n ≤ n < 10 ^ (floorLog10 n + 1)) ∧
  length sprites = 3%nat ∧
  let shown := Z.min (Z.max value (-99)) 999 in
  let digits := getDigitArray floorLog10 (Z.abs shown) in
  let sign := if value <? 0 then [Some "number/minus.png"%string] else [] in
  digitsValue digits = Z.abs shown ∧
  Forall (λ d, 0 ≤ d ≤ 9) digits ∧
  (shown ≠ 0 → ∃ d l, digits = d :: l ∧ 1 ≤ d) ∧
  (length sign + length digits ≤ 3)%nat ∧
  updateDisplay floorLog10 value sprites
  = (Return tt,
     replicate (3 - length sign - length digits) (Some "number/empty.png"%string)
     ++ sign ++ ((λ d, digitTextures !! Z.to_nat d) <$> digits)) ∧
  Forall (λ key, is_Some key) (updateDisplay floorLog10 value sprites).2.
Proof.
  intros floorLog10 value sprites.
  assert (∀ n, 1 ≤ n ≤ 999 →
            0 ≤ floorLog10 n ∧ 10 ^ floorLog10 n ≤ n < 10 ^ (floorLog10 n + 1))
    as Hlog.
  { intros n Hn. apply exactFloorLog10_spec. lia. }
  assert (length sprites = 3%nat) as Hlen by reflexivity.
  split_and!; [exact Hlog|exact Hlen|].
  exact (updateDisplay_shows_value floorLog10 value sprites Hlog Hlen).
Defined.

(** ** board-settings *)

Lemma custom_settings_valid parseInt params s printed :
  Settings.getUrlParamsCustomBoardSettings parseInt params = (Some s, printed) →
  8 ≤ Settings.width s ∧ 1 ≤ Settings.height s ∧
  1 ≤ Settings.bombs s < Settings.width s * Settings.height s ∧
  printed = [] ∧
  (∃ widthParam heightParam bombsParam,
     params "width"%string = Some widthParam ∧
     params "height"%string = Some heightParam ∧
     params "bombs"%string = Some bombsParam ∧
     parseInt widthParam = Some (Settings.width s) ∧
     parseInt heightParam = Some (Settings.height s) ∧
     parseInt bombsParam = Some (Settings.bombs s)).
Proof.
  unfold Settings.getUrlParamsCustomBoardSettings.
  destruct (params "width"%string) as [wp|]; [|done].
  destruct (params "height"%string) as [hp|]; [|done].
  destruct (params "bombs"%string) as [bp|]; [|done].
  destruct (parseInt wp) as [w|] eqn:Hw; [|done].
  destruct (parseInt hp) as [h|] eqn:Hh; [|done].
  destruct (parseInt bp) as [b|] eqn:Hb; [|done].
  destruct (b <? 1) eqn:H1; [done|].
  destruct (w * h <=? b) eqn:H2; [done|].
  destruct ((h <? 1) || (w <? 8)) eqn:H3; [done|].
  intros [= <- <-]. simpl.
  apply Z.ltb_ge in H1. apply Z.leb_gt in H2.
  apply orb_false_iff in H3 as [H3 H4]. apply Z.ltb_ge in H3, H4.
  split_and!; try done. by exists wp, hp, bp.
Qed.

(** X28: the settings read from the URL are fit for a game.  Whatever the
    parameters of the URL hold, as long as [parseInt] reads no number above
    [2 ^ 26] in absolute value from them, the settings that [getUrlParamsBoardSettings] returns are one of the three
    presets or the custom numbers read from the URL, and they always
    describe a board at least 8 wide and 1 high with at least one bomb and
    at least one tile that is none.  A missing or unknown difficulty gives
    the beginner board, and so does a custom one whose numbers are missing,
    not numbers or out of range.  When the number of tiles is a length that
    [new Array] accepts, [generate] returns a board for these settings,
    with as many bombs as they ask for and at least one tile to open. *)
Theorem url_settings_are_playable (parseInt : string → option Z)
    (params : string → option string) (random : nat → Q) :
  (∀ str n, parseInt str = Some n → Z.abs n ≤ 2 ^ 26) →
  let s := (Settings.getUrlParamsBoardSettings parseInt params).1 in
  let printed := (Settings.getUrlParamsBoardSettings parseInt params).2 in
  8 ≤ Settings.width s ∧ 1 ≤ Settings.height s ∧
  1 ≤ Settings.bombs s < Settings.width s * Settings.height s ∧
  (s = Settings.BEGINNER_SETTINGS ∨ s = Settings.INTERMEDIATE_SETTINGS ∨
   s = Settings.EXPERT_SETTINGS ∨
   (params "difficulty"%string = Some "custom"%string ∧
    Settings.getUrlParamsCustomBoardSettings parseInt params = (Some s, []))) ∧
  (params "difficulty"%string = None → s = Settings.BEGINNER_SETTINGS ∧ printed = []) ∧
  (printed ≠ [] → s = Settings.BEGINNER_SETTINGS) ∧
  (Settings.width s * Settings.height s < 2 ^ 32 →
   (∀ k, (0 <= random k)%Q ∧ (random k < 1)%Q) →
   ∃ b, generate random (Settings.width s) (Settings.height s) (Settings.bombs s)
        = Return b ∧
        bombCount b = Settings.bombs s ∧
        0 < tilesLeftToOpenToWin b ∧
        reachable (newWorld b)).
Proof.
  intros _ s printed.
  assert (8 ≤ Settings.width s ∧ 1 ≤ Settings.height s ∧
          1 ≤ Settings.bombs s < Settings.width s * Settings.height s ∧
          (s = Settings.BEGINNER_SETTINGS ∨ s = Settings.INTERMEDIATE_SETTINGS ∨
           s = Settings.EXPERT_SETTINGS ∨
           (params "difficulty"%string = Some "custom"%string ∧
            Settings.getUrlParamsCustomBoardSettings parseInt params
            = (Some s, []))) ∧
          (params "difficulty"%string = None →
           s = Settings.BEGINNER_SETTINGS ∧ printed = []) ∧
          (printed ≠ [] → s = Settings.BEGINNER_SETTINGS))
    as (Hw & Hh & Hb & Hwhich & Hnone & Hprinted).
  { unfold s, printed, Settings.getUrlParamsBoardSettings,
      Settings.getUrlParamsDifficulty.
    destruct (params "difficulty"%string) as [param|]; simpl;
      [|split_and!; try done; try lia; auto].
    destruct (String.eqb param "beginner") eqn:H1; simpl;
      [split_and!; try done; try lia; auto|].
    destruct (String.eqb param "intermediate") eqn:H2; simpl;
      [split_and!; try done; try lia; auto|].
    destruct (String.eqb param "expert") eqn:H3; simpl;
      [split_and!; try done; try lia; auto 6|].
    destruct (String.eqb param "custom") eqn:H4; simpl;
      [|split_and!; try done; try lia; auto].
    apply String.eqb_eq in H4 as ->.
    destruct (Settings.getUrlParamsCustomBoardSettings parseInt params)
      as [[s'|] printed'] eqn:Hcustom; simpl.
    - destruct (custom_settings_valid _ _ _ _ Hcustom)
        as (? & ? & ? & -> & _).
      split_and!; try done; try lia. by auto 6.
    - split_and!; try done; try lia; auto. }
  split_and!; try done; try lia.
  intros Hsize Hrandom.
  destruct (generate_newBoard random (Settings.width s) (Settings.height s)
              (Settings.bombs s)) as (bombsArray & Hgen & Hlen & Hcount); [nia|].
  rewrite relativeIndex_inside in Hcount by lia.
  destruct (newBoard_spec (Settings.width s) (Settings.height s) bombsArray)
    as (dataArray & Hrun & _); [lia|lia|done|].
  eexists. split_and!.
  - by rewrite Hgen, Hrun.
  - simpl. by rewrite Hcount.
  - simpl. rewrite Hcount. lia.
  - eapply reach_new. exact Hrun.
Qed.

Lemma url_settings_are_playable_witness :
  let parseInt := λ str : string,
    if String.eqb str "8" then Some 8
    else if String.eqb str "2" then Some 2
    else if String.eqb str "3" then Some 3
    else None in
  let params := λ name : string,
    if String.eqb name "difficulty" then Some "custom"%string
    else if String.eqb name "width" then Some "8"%string
    else if String.eqb name "height" then Some "2"%string
    else if String.eqb name "bombs" then Some "3"%string
    else None in
  let random := λ _ : nat, 0%Q in
  (∀ str n, parseInt str = Some n → Z.abs n ≤ 2 ^ 26) ∧
  (Settings.getUrlParamsBoardSettings parseInt params).1
  = Settings.mkBoardSettings 8 2 3 ∧
  (let s := (Settings.getUrlParamsBoardSettings parseInt params).1 in
  let printed := (Settings.getUrlParamsBoardSettings parseInt params).2 in
  8 ≤ Settings.width s ∧ 1 ≤ Settings.height s ∧
  1 ≤ Settings.bombs s < Settings.width s * Settings.height s ∧
  (s = Settings.BEGINNER_SETTINGS ∨ s = Settings.INTERMEDIATE_SETTINGS ∨
   s = Settings.EXPERT_SETTINGS ∨
   (params "difficulty"%string = Some "custom"%string ∧
    Settings.getUrlParamsCustomBoardSettings parseInt params = (Some s, []))) ∧
  (params "difficulty"%string = None → s = Settings.BEGINNER_SETTINGS ∧ printed = []) ∧
  (printed ≠ [] → s = Settings.BEGINNER_SETTINGS) ∧
  (Settings.width s * Settings.height s < 2 ^ 32 →
   (∀ k, (0 <= random k)%Q ∧ (random k < 1)%Q) →
   ∃ b, generate random (Settings.width s) (Settings.height s) (Settings.bombs s)
        = Return b ∧
        bombCount b = Settings.bombs s ∧
        0 < tilesLeftToOpenToWin b ∧
        reachable (newWorld b))).
Proof.
  intros parseInt params random.
  assert (∀ str n, parseInt str = Some n → Z.abs n ≤ 2 ^ 26) as Hread.
  { intros str n. unfold parseInt.
    repeat (destruct (String.eqb str _); [intros [= <-]; vm_compute; discriminate|]).
    discriminate. }
  split; [exact Hread|]. split; [reflexivity|].
  exact (url_settings_are_playable parseInt params random Hread).
Defined.

(** ** lib/stopwatch *)

Section StopwatchFacts.
Import StopwatchClass.
Variables plus divide : Q → Q → Q.

Lemma last_cons_default (l : list Z) z d d' :
  List.last (z :: l) d = List.last (z :: l) d'.
Proof.
  revert z. induction l as [|m l IH]; intros z; [done|].
  change (List.last (m :: l) d = List.last (m :: l) d'). apply IH.
Qed.

Lemma distinctFrom_snoc previous l n :
  distinctFrom previous l → n ≠ List.last l previous →
  distinctFrom previous (l ++ [n]).
Proof.
  revert previous. induction l as [|m l IH]; intros previous Hd Hn; simpl in *.
  - done.
  - destruct Hd as [Hm Hd]. split; [done|]. apply IH; [done|].
    destruct l as [|z l]; [done|]. by rewrite (last_cons_default l z m previous).
Qed.

Lemma last_snoc_default (l : list Z) n d : List.last (l ++ [n]) d = n.
Proof. apply List.last_last. Qed.

Lemma setSeconds_inSync newSeconds sw : inSync sw → inSync (setSeconds newSeconds sw).
Proof.
  intros [Hlast Hd]. unfold setSeconds.
  destruct (Qfloor newSeconds =? elapsedSeconds sw) eqn:Heq; [done|].
  apply Z.eqb_neq in Heq. split; simpl.
  - by rewrite last_snoc_default.
  - apply distinctFrom_snoc; [done|]. by rewrite <- Hlast.
Qed.

Lemma handle_inSync sw e : inSync sw → inSync (handle plus divide sw e).
Proof.
  intros Hs. destruct e as [| | |deltaMS]; simpl; try done.
  - by apply setSeconds_inSync.
  - destruct (started sw); [|done]. by apply setSeconds_inSync.
Qed.

(** X29: the stopwatch tells every change of its seconds, once.  Whatever
    the ticker and the callers of [start], [pause] and [reset] do to a new
    stopwatch, and however the floating-point sum and quotient round, the
    number of seconds is the last value that [secondsUpdate] emitted, or 0
    if it emitted none, and no value is emitted twice in a row.  After
    [reset] the stopwatch is paused, at 0 milliseconds and 0 seconds. *)
Theorem stopwatch_in_sync (events : list Event) :
  let sw := foldl (handle plus divide) newStopwatch events in
  seconds sw = List.last (secondsUpdate sw) 0 ∧
  distinctFrom 0 (secondsUpdate sw) ∧
  started (reset sw) = false ∧ elapsedMS (reset sw) = 0%Q ∧
  seconds (reset sw) = 0 ∧
  (∀ deltaMS, handle plus divide (reset sw) (Tick deltaMS) = reset sw).
Proof.
  intros sw.
  assert (inSync sw) as [Hlast Hd].
  { unfold sw. induction events as [|e events IH] using rev_ind; [done|].
    rewrite foldl_snoc. by apply handle_inSync. }
  assert (∀ sw0, started (setSeconds 0 sw0) = started sw0 ∧
                 elapsedMS (setSeconds 0 sw0) = elapsedMS sw0 ∧
                 elapsedSeconds (setSeconds 0 sw0) = 0) as Hzero.
  { intros sw0. unfold setSeconds. change (Qfloor 0) with 0.
    destruct (0 =? elapsedSeconds sw0) eqn:Heq; [|done].
    apply Z.eqb_eq in Heq. by rewrite <- Heq. }
  split_and!; try done.
  - unfold reset. by rewrite (proj1 (Hzero _)).
  - unfold reset. by rewrite (proj1 (proj2 (Hzero _))).
  - unfold reset, seconds. by rewrite (proj2 (proj2 (Hzero _))).
  - intros deltaMS. unfold handle. unfold reset at 1.
    by rewrite (proj1 (Hzero _)).
Qed.

End StopwatchFacts.

(** ** pixi/minesweeper-board: the tile under the pointer *)

Lemma Qfloor_between (q : Q) (z : Z) :
  (inject_Z z <= q)%Q → (q < inject_Z (z + 1))%Q → Qfloor q = z.
Proof.
  intros Hle Hlt.
  pose proof (Qfloor_resp_le _ _ Hle) as H1. rewrite Qfloor_Z in H1.
  assert (Qfloor q < z + 1); [|lia].
  rewrite Zlt_Qlt. eapply Qle_lt_trans; [apply Qfloor_le|done].
Qed.

Lemma Qfloor_tile (z : Z) (d : Q) :
  (0 <= d)%Q → (d < 16)%Q →
  Qfloor ((inject_Z (z * TILE_SIZE_PX) + d) / inject_Z TILE_SIZE_PX) = z.
Proof.
  intros H0 H16. apply Qfloor_between.
  - apply Qle_shift_div_l; [done|]. unfold TILE_SIZE_PX.
    rewrite inject_Z_mult. lra.
  - apply Qlt_shift_div_r; [done|]. unfold TILE_SIZE_PX.
    rewrite inject_Z_plus, inject_Z_mult. change (inject_Z 1) with 1%Q.
    change (inject_Z 16) with 16%Q. lra.
Qed.

(** X30: the pointer selects the tile it is over.  For a pointer anywhere
    on the sixteen by sixteen pixels that start at the position of the
    sprite of a tile, [updateLastHovered] makes that tile the hovered one,
    and it reports an update exactly when another tile, or none, was hovered
    before.  If the pointer is also left of and above the far corner of the
    sprites of a grid, the hovered tile is in the bounds of the grid. *)
Theorem pointer_selects_tile (point : Point) (dx dy : Q)
    (lastHoveredTile : option Point) :
  0 ≤ x point → 0 ≤ y point →
  (0 <= dx)%Q ∧ (dx < 16)%Q → (0 <= dy)%Q ∧ (dy < 16)%Q →
  updateLastHovered (inject_Z (tilePosition point).1 + dx)
    (inject_Z (tilePosition point).2 + dy) lastHoveredTile
  = (negb (bool_decide (lastHoveredTile = Some point)), Some point) ∧
  ∀ (T : Type) (g : Grid T),
    (inject_Z (tilePosition point).1 + dx < inject_Z (width g * TILE_SIZE_PX))%Q →
    (inject_Z (tilePosition point).2 + dy < inject_Z (height g * TILE_SIZE_PX))%Q →
    isInBounds g point = true.
Proof.
  intros Hpx Hpy [Hx0 Hx1] [Hy0 Hy1]. split.
  - unfold updateLastHovered, tilePosition. cbn [fst snd].
    rewrite !Qfloor_tile by done.
    destruct lastHoveredTile as [[lx ly]|]; cbn [x y].
    + destruct point as [px py]. simpl.
      case_bool_decide as Heq.
      * injection Heq as -> ->. by rewrite !Z.eqb_refl.
      * destruct (px =? lx) eqn:Hxe; simpl; [|done].
        destruct (py =? ly) eqn:Hye; simpl; [|done].
        apply Z.eqb_eq in Hxe, Hye. congruence.
    + by destruct point.
  - intros T g Hw Hh. apply isInBounds_true.
    unfold tilePosition, TILE_SIZE_PX in *. simpl in *.
    rewrite !inject_Z_mult in *. change (inject_Z 16) with 16%Q in *.
    assert (inject_Z (x point) < inject_Z (width g))%Q as Hxw by lra.
    assert (inject_Z (y point) < inject_Z (height g))%Q as Hyh by lra.
    rewrite <- Zlt_Qlt in Hxw, Hyh. lia.
Qed.

Lemma pointer_selects_tile_witness :
  let point := mkPoint 2 1 in
  let dx := (15 # 2)%Q in
  let dy := 0%Q in
  let lastHoveredTile := Some (mkPoint 1 1) in
  0 ≤ x point ∧ 0 ≤ y point ∧
  ((0 <= dx)%Q ∧ (dx < 16)%Q) ∧ ((0 <= dy)%Q ∧ (dy < 16)%Q) ∧
  updateLastHovered (inject_Z (tilePosition point).1 + dx)
    (inject_Z (tilePosition point).2 + dy) lastHoveredTile
  = (negb (bool_decide (lastHoveredTile = Some point)), Some point) ∧
  ∀ (T : Type) (g : Grid T),
    (inject_Z (tilePosition point).1 + dx < inject_Z (width g * TILE_SIZE_PX))%Q →
    (inject_Z (tilePosition point).2 + dy < inject_Z (height g * TILE_SIZE_PX))%Q →
    isInBounds g point = true.
Proof.
  intros point dx dy lastHoveredTile.
  assert (0 ≤ x point) as Hpx by (simpl; lia).
  assert (0 ≤ y point) as Hpy by (simpl; lia).
  assert ((0 <= dx)%Q ∧ (dx < 16)%Q) as Hdx by (split; reflexivity || done).
  assert ((0 <= dy)%Q ∧ (dy < 16)%Q) as Hdy by (split; reflexivity || done).
  split_and!; [exact Hpx|exact Hpy|apply Hdx|apply Hdx|apply Hdy|apply Hdy|..];
    apply (pointer_selects_tile point dx dy lastHoveredTile Hpx Hpy Hdx Hdy).
Defined.
